(** * Sharthi front-end: session gate, screen router, tier cards, checkout

    A shallow embedding of the logic of the React components (App,
    Header, Auth, EventDetail, BookingFlow, AdminDashboard, SearchPage,
    OrganizerDashboard, CreatorProfile): every [useState] cell becomes a
    record field, every handler a function from the state (and
    [localStorage]) before the call to the state after it, and every
    awaited network call takes the settled outcome of the request as an
    argument. Strings are sequences of code units below 256, with the
    case mapping of the ASCII letters; the role mapping is also given on
    strings of any code points, with the upper-case forms of Unicode. *)

From Stdlib Require Import ZArith QArith Qround Lia Bool Ascii DecimalString.
From Stdlib Require Import SpecFloat PrimFloat FloatOps.
From stdpp Require Import gmap strings list.

Local Open Scope string_scope.
Set Warnings "-register-all".

(** ** JavaScript values *)

Module JS.

(** A parsed JSON value ([res.json()], [JSON.parse]). Numbers are the
    integers. *)
Inductive json :=
| JNull
| JBool (b : bool)
| JNum (n : Z)
| JStr (s : string)
| JArr (items : list json)
| JObj (fields : list (string * json)).

(** A JavaScript value read from a response: [None] is [undefined]. *)
Definition value := option json.

(** ToBoolean. *)
Definition truthy (v : value) : bool :=
  match v with
  | None | Some JNull => false
  | Some (JBool b) => b
  | Some (JNum n) => negb (n =? 0)%Z
  | Some (JStr s) => negb (String.eqb s "")
  | Some (JArr _) | Some (JObj _) => true
  end.

(** [v || d] with a JSON default. *)
Definition or_else (v : value) (d : json) : json :=
  match v with
  | Some j => if truthy v then j else d
  | None => d
  end.

Fixpoint assoc (k : string) (fields : list (string * json)) : value :=
  match fields with
  | [] => None
  | (k', j) :: rest => if String.eqb k k' then Some j else assoc k rest
  end.

(** [j.k] on a value that is neither [null] nor [undefined]: only objects
    carry the properties read by the components. *)
Definition prop (j : json) (k : string) : value :=
  match j with
  | JObj fields => assoc k fields
  | _ => None
  end.

(** [v?.k]. *)
Definition opt_prop (v : value) (k : string) : value :=
  match v with
  | None | Some JNull => None
  | Some j => prop j k
  end.

Definition decimal (n : Z) : string :=
  DecimalString.NilZero.string_of_int (Z.to_int n).

(** [String(j)]: arrays join their elements with a comma, [null]
    elements print as nothing. *)
Fixpoint js_String (j : json) : string :=
  match j with
  | JNull => "null"
  | JBool true => "true"
  | JBool false => "false"
  | JNum n => decimal n
  | JStr s => s
  | JArr items =>
      (fix join (l : list json) : string :=
         match l with
         | [] => ""
         | x :: rest =>
             let e := match x with JNull => "" | _ => js_String x end in
             match rest with
             | [] => e
             | _ => e ++ "," ++ join rest
             end
         end) items
  | JObj _ => "[object Object]"
  end.

(** [s.toUpperCase()] on strings of ASCII characters, one code unit at a
    time: a to z are mapped, every other code unit is kept. JavaScript also
    maps characters outside ASCII, some of them onto ASCII letters (the
    dotless i onto I, the sharp s onto SS): [Unicode.toUpperCase] below has
    these forms, and the role mapping is stated on it. *)
Definition upper_ascii (c : ascii) : ascii :=
  let n := nat_of_ascii c in
  if (97 <=? n)%nat && (n <=? 122)%nat then ascii_of_nat (n - 32) else c.

Fixpoint toUpperCase (s : string) : string :=
  match s with
  | EmptyString => EmptyString
  | String c rest => String (upper_ascii c) (toUpperCase rest)
  end.

Definition lower_ascii (c : ascii) : ascii :=
  let n := nat_of_ascii c in
  if (65 <=? n)%nat && (n <=? 90)%nat then ascii_of_nat (n + 32) else c.

Fixpoint toLowerCase (s : string) : string :=
  match s with
  | EmptyString => EmptyString
  | String c rest => String (lower_ascii c) (toLowerCase rest)
  end.

(** [s] spells [word] up to the case of its letters: every character of
    [s] is the character of [word] at its place or the lower-case form of
    it. *)
Fixpoint casing_of (s word : string) : bool :=
  match s, word with
  | EmptyString, EmptyString => true
  | String c s', String u word' =>
      (Ascii.eqb c u || Ascii.eqb c (lower_ascii u)) && casing_of s' word'
  | _, _ => false
  end.

Definition is_upper_letter (u : ascii) : bool :=
  let n := nat_of_ascii u in (65 <=? n)%nat && (n <=? 90)%nat.

Fixpoint all_upper (word : string) : bool :=
  match word with
  | EmptyString => true
  | String u rest => is_upper_letter u && all_upper rest
  end.

(** The 256 characters. *)
Definition all_ascii : list ascii := List.map ascii_of_nat (seq 0 256).

(** The settled outcome of [fetch(url)]: the promise rejects, or it
    resolves to a response whose body parses as JSON or does not
    ([res.json()] rejects on [None]). *)
Inductive fetched :=
| Rejected
| Response (ok : bool) (body : option json).

End JS.
Import JS.

(** ** String methods *)

Module Str.

(** The white space and the line terminators that [trim] removes, among
    the code units below 256: tab to carriage return, the space and the
    no-break space. *)
Definition is_space (c : ascii) : bool :=
  let n := nat_of_ascii c in
  ((9 <=? n)%nat && (n <=? 13)%nat) || (n =? 32)%nat || (n =? 160)%nat.

Fixpoint trimStart (s : string) : string :=
  match s with
  | EmptyString => EmptyString
  | String c rest => if is_space c then trimStart rest else s
  end.

Fixpoint trimEnd (s : string) : string :=
  match s with
  | EmptyString => EmptyString
  | String c rest =>
      let rest' := trimEnd rest in
      if is_space c && String.eqb rest' "" then EmptyString
      else String c rest'
  end.

(** [s.trim()]. *)
Definition trim (s : string) : string := trimEnd (trimStart s).

(** [s.includes(sub)]. *)
Fixpoint includes (s sub : string) : bool :=
  String.prefix sub s
  || match s with
     | EmptyString => false
     | String _ rest => includes rest sub
     end.

(** [s.split(sep)] for a separator of one character: the list is never
    empty. *)
Fixpoint split (sep : ascii) (s : string) : list string :=
  match s with
  | EmptyString => [EmptyString]
  | String c rest =>
      if Ascii.eqb c sep then EmptyString :: split sep rest
      else
        match split sep rest with
        | piece :: pieces => String c piece :: pieces
        | [] => [String c EmptyString]
        end
  end.

(** [l.join(sep)]. *)
Fixpoint join (sep : string) (l : list string) : string :=
  match l with
  | [] => EmptyString
  | [x] => x
  | x :: rest => x ++ sep ++ join sep rest
  end.

(** [csv.split(',').map(t => t.trim()).filter(Boolean)]. *)
Definition tags (csv : string) : list string :=
  List.filter (fun t => negb (String.eqb t ""))
    (List.map trim (split "," csv)).

End Str.

(** ** Client storage *)

(** The checkout draft written by EventDetail and read by BookingFlow. *)
Record Draft := mkDraft {
  draft_eventId : string;
  draft_stallId : string;
  draft_tier : string;
  draft_price : Z
}.

(** One row of the local mirror of "my bookings". *)
Record LocalBooking := mkLocalBooking {
  lb_event : string;
  lb_location : string;
  lb_tier : string;
  lb_stallNumber : string;
  lb_amount : Z;
  lb_status : string
}.

(** What a [localStorage] key holds: a plain string, or the JSON text of a
      value ([JSON.stringify]), kept as the value it encodes. *)
Inductive stored :=
| Text (s : string)
| DraftJson (d : Draft)
| UserJson (u : value)
| BookingsJson (rows : list LocalBooking).

Abbreviation Storage := (gmap string stored).

Definition getItem (k : string) (ls : Storage) : option stored := ls !! k.
Definition setItem (k : string) (v : stored) (ls : Storage) : Storage := <[k := v]> ls.
Definition removeItem (k : string) (ls : Storage) : Storage := delete k ls.

(** Truthiness of what [getItem] returned: [null] and the empty string are
      falsy, a JSON text is never empty. *)
Definition item_truthy (o : option stored) : bool :=
  match o with
  | None => false
  | Some (Text s) => negb (String.eqb s "")
  | Some _ => true
  end.

(** [localStorage.getItem("jwt") || localStorage.getItem("sharthi_token")]
      followed by the test [!jwt]: [None] when no usable token is stored. *)
Definition getToken (ls : Storage) : option stored :=
  if item_truthy (getItem "jwt" ls) then getItem "jwt" ls
  else if item_truthy (getItem "sharthi_token" ls) then getItem "sharthi_token" ls
  else None.

(** Notifications raised through [toast]; the text is not kept. *)
Inductive toast := ToastLoading | ToastError | ToastInfo | ToastSuccess.

(** ** Screens and roles *)

Module Page.
Inductive t :=
| home | event_detail | booking | organizer | admin
| chatbot | profile | search | my_bookings.

#[global] Instance eq_dec : EqDecision t.
Proof. solve_decision. Defined.

Definition all : list t :=
  [home; event_detail; booking; organizer; admin;
   chatbot; profile; search; my_bookings].

Definition index (p : t) : nat :=
  match p with
  | home => 0 | event_detail => 1 | booking => 2 | organizer => 3
  | admin => 4 | chatbot => 5 | profile => 6 | search => 7
  | my_bookings => 8
  end.

#[global] Instance countable : Countable t.
Proof.
  apply (inj_countable' index (fun n => nth n all home)).
  intros []; reflexivity.
Defined.
End Page.

Module Role.
Inductive t := creator | organizer | admin.

#[global] Instance eq_dec : EqDecision t.
Proof. solve_decision. Defined.
End Role.

(** ** Strings of any characters *)

Module Unicode.

Local Open Scope N_scope.

(** A string as the sequence of its code points, which is how
    [toUpperCase] reads it: a surrogate pair is one code point, a
    surrogate without its partner stands for itself. *)
Definition text := list N.

Fixpoint of_string (s : string) : text :=
  match s with
  | EmptyString => []
  | String c rest => N_of_ascii c :: of_string rest
  end.

(** The code points with an upper-case form of one code point (Unicode
    14.0, UnicodeData.txt): [(first, last, step, target)] stands for the
    code points [first], [first + step], ... up to [last], the upper-case
    form of [first] being [target] and the distance the same for all of
    them. *)
Definition simple_upper : list (N * N * N * N) :=
  [
    (97, 122, 1, 65); (181, 181, 1, 924); (224, 246, 1, 192);
    (248, 254, 1, 216); (255, 255, 1, 376); (257, 303, 2, 256);
    (305, 305, 1, 73); (307, 311, 2, 306); (314, 328, 2, 313);
    (331, 375, 2, 330); (378, 382, 2, 377); (383, 383, 1, 83);
    (384, 384, 1, 579); (387, 389, 2, 386); (392, 392, 1, 391);
    (396, 396, 1, 395); (402, 402, 1, 401); (405, 405, 1, 502);
    (409, 409, 1, 408); (410, 410, 1, 573); (414, 414, 1, 544);
    (417, 421, 2, 416); (424, 424, 1, 423); (429, 429, 1, 428);
    (432, 432, 1, 431); (436, 438, 2, 435); (441, 441, 1, 440);
    (445, 445, 1, 444); (447, 447, 1, 503); (453, 453, 1, 452);
    (454, 454, 1, 452); (456, 456, 1, 455); (457, 457, 1, 455);
    (459, 459, 1, 458); (460, 460, 1, 458); (462, 476, 2, 461);
    (477, 477, 1, 398); (479, 495, 2, 478); (498, 498, 1, 497);
    (499, 499, 1, 497); (501, 501, 1, 500); (505, 543, 2, 504);
    (547, 563, 2, 546); (572, 572, 1, 571); (575, 576, 1, 11390);
    (578, 578, 1, 577); (583, 591, 2, 582); (592, 592, 1, 11375);
    (593, 593, 1, 11373); (594, 594, 1, 11376); (595, 595, 1, 385);
    (596, 596, 1, 390); (598, 599, 1, 393); (601, 601, 1, 399);
    (603, 603, 1, 400); (604, 604, 1, 42923); (608, 608, 1, 403);
    (609, 609, 1, 42924); (611, 611, 1, 404); (613, 613, 1, 42893);
    (614, 614, 1, 42922); (616, 616, 1, 407); (617, 617, 1, 406);
    (618, 618, 1, 42926); (619, 619, 1, 11362); (620, 620, 1, 42925);
    (623, 623, 1, 412); (625, 625, 1, 11374); (626, 626, 1, 413);
    (629, 629, 1, 415); (637, 637, 1, 11364); (640, 640, 1, 422);
    (642, 642, 1, 42949); (643, 643, 1, 425); (647, 647, 1, 42929);
    (648, 648, 1, 430); (649, 649, 1, 580); (650, 651, 1, 433);
    (652, 652, 1, 581); (658, 658, 1, 439); (669, 669, 1, 42930);
    (670, 670, 1, 42928); (837, 837, 1, 921); (881, 883, 2, 880);
    (887, 887, 1, 886); (891, 893, 1, 1021); (940, 940, 1, 902);
    (941, 943, 1, 904); (945, 961, 1, 913); (962, 962, 1, 931);
    (963, 971, 1, 931); (972, 972, 1, 908); (973, 974, 1, 910);
    (976, 976, 1, 914); (977, 977, 1, 920); (981, 981, 1, 934);
    (982, 982, 1, 928); (983, 983, 1, 975); (985, 1007, 2, 984);
    (1008, 1008, 1, 922); (1009, 1009, 1, 929); (1010, 1010, 1, 1017);
    (1011, 1011, 1, 895); (1013, 1013, 1, 917); (1016, 1016, 1, 1015);
    (1019, 1019, 1, 1018); (1072, 1103, 1, 1040); (1104, 1119, 1, 1024);
    (1121, 1153, 2, 1120); (1163, 1215, 2, 1162); (1218, 1230, 2, 1217);
    (1231, 1231, 1, 1216); (1233, 1327, 2, 1232); (1377, 1414, 1, 1329);
    (4304, 4346, 1, 7312); (4349, 4351, 1, 7357); (5112, 5117, 1, 5104);
    (7296, 7296, 1, 1042); (7297, 7297, 1, 1044); (7298, 7298, 1, 1054);
    (7299, 7300, 1, 1057); (7301, 7301, 1, 1058); (7302, 7302, 1, 1066);
    (7303, 7303, 1, 1122); (7304, 7304, 1, 42570); (7545, 7545, 1, 42877);
    (7549, 7549, 1, 11363); (7566, 7566, 1, 42950); (7681, 7829, 2, 7680);
    (7835, 7835, 1, 7776); (7841, 7935, 2, 7840); (7936, 7943, 1, 7944);
    (7952, 7957, 1, 7960); (7968, 7975, 1, 7976); (7984, 7991, 1, 7992);
    (8000, 8005, 1, 8008); (8017, 8023, 2, 8025); (8032, 8039, 1, 8040);
    (8048, 8049, 1, 8122); (8050, 8053, 1, 8136); (8054, 8055, 1, 8154);
    (8056, 8057, 1, 8184); (8058, 8059, 1, 8170); (8060, 8061, 1, 8186);
    (8112, 8113, 1, 8120); (8126, 8126, 1, 921); (8144, 8145, 1, 8152);
    (8160, 8161, 1, 8168); (8165, 8165, 1, 8172); (8526, 8526, 1, 8498);
    (8560, 8575, 1, 8544); (8580, 8580, 1, 8579); (9424, 9449, 1, 9398);
    (11312, 11359, 1, 11264); (11361, 11361, 1, 11360);
    (11365, 11365, 1, 570); (11366, 11366, 1, 574);
    (11368, 11372, 2, 11367); (11379, 11379, 1, 11378);
    (11382, 11382, 1, 11381); (11393, 11491, 2, 11392);
    (11500, 11502, 2, 11499); (11507, 11507, 1, 11506);
    (11520, 11557, 1, 4256); (11559, 11559, 1, 4295);
    (11565, 11565, 1, 4301); (42561, 42605, 2, 42560);
    (42625, 42651, 2, 42624); (42787, 42799, 2, 42786);
    (42803, 42863, 2, 42802); (42874, 42876, 2, 42873);
    (42879, 42887, 2, 42878); (42892, 42892, 1, 42891);
    (42897, 42899, 2, 42896); (42900, 42900, 1, 42948);
    (42903, 42921, 2, 42902); (42933, 42947, 2, 42932);
    (42952, 42954, 2, 42951); (42961, 42961, 1, 42960);
    (42967, 42969, 2, 42966); (42998, 42998, 1, 42997);
    (43859, 43859, 1, 42931); (43888, 43967, 1, 5024);
    (65345, 65370, 1, 65313); (66600, 66639, 1, 66560);
    (66776, 66811, 1, 66736); (66967, 66977, 1, 66928);
    (66979, 66993, 1, 66940); (66995, 67001, 1, 66956);
    (67003, 67004, 1, 66964); (68800, 68850, 1, 68736);
    (71872, 71903, 1, 71840); (93792, 93823, 1, 93760);
    (125218, 125251, 1, 125184) ].

(** The code points with an upper-case form of several code points
    (SpecialCasing.txt, the mappings without a condition). *)
Definition special_upper : list (N * list N) :=
  [
    (223, [83; 83]); (329, [700; 78]); (496, [74; 780]);
    (912, [921; 776; 769]); (944, [933; 776; 769]); (1415, [1333; 1362]);
    (7830, [72; 817]); (7831, [84; 776]); (7832, [87; 778]);
    (7833, [89; 778]); (7834, [65; 702]); (8016, [933; 787]);
    (8018, [933; 787; 768]); (8020, [933; 787; 769]);
    (8022, [933; 787; 834]); (8064, [7944; 921]); (8065, [7945; 921]);
    (8066, [7946; 921]); (8067, [7947; 921]); (8068, [7948; 921]);
    (8069, [7949; 921]); (8070, [7950; 921]); (8071, [7951; 921]);
    (8072, [7944; 921]); (8073, [7945; 921]); (8074, [7946; 921]);
    (8075, [7947; 921]); (8076, [7948; 921]); (8077, [7949; 921]);
    (8078, [7950; 921]); (8079, [7951; 921]); (8080, [7976; 921]);
    (8081, [7977; 921]); (8082, [7978; 921]); (8083, [7979; 921]);
    (8084, [7980; 921]); (8085, [7981; 921]); (8086, [7982; 921]);
    (8087, [7983; 921]); (8088, [7976; 921]); (8089, [7977; 921]);
    (8090, [7978; 921]); (8091, [7979; 921]); (8092, [7980; 921]);
    (8093, [7981; 921]); (8094, [7982; 921]); (8095, [7983; 921]);
    (8096, [8040; 921]); (8097, [8041; 921]); (8098, [8042; 921]);
    (8099, [8043; 921]); (8100, [8044; 921]); (8101, [8045; 921]);
    (8102, [8046; 921]); (8103, [8047; 921]); (8104, [8040; 921]);
    (8105, [8041; 921]); (8106, [8042; 921]); (8107, [8043; 921]);
    (8108, [8044; 921]); (8109, [8045; 921]); (8110, [8046; 921]);
    (8111, [8047; 921]); (8114, [8122; 921]); (8115, [913; 921]);
    (8116, [902; 921]); (8118, [913; 834]); (8119, [913; 834; 921]);
    (8124, [913; 921]); (8130, [8138; 921]); (8131, [919; 921]);
    (8132, [905; 921]); (8134, [919; 834]); (8135, [919; 834; 921]);
    (8140, [919; 921]); (8146, [921; 776; 768]); (8147, [921; 776; 769]);
    (8150, [921; 834]); (8151, [921; 776; 834]); (8162, [933; 776; 768]);
    (8163, [933; 776; 769]); (8164, [929; 787]); (8166, [933; 834]);
    (8167, [933; 776; 834]); (8178, [8186; 921]); (8179, [937; 921]);
    (8180, [911; 921]); (8182, [937; 834]); (8183, [937; 834; 921]);
    (8188, [937; 921]); (64256, [70; 70]); (64257, [70; 73]);
    (64258, [70; 76]); (64259, [70; 70; 73]); (64260, [70; 70; 76]);
    (64261, [83; 84]); (64262, [83; 84]); (64275, [1348; 1350]);
    (64276, [1348; 1333]); (64277, [1348; 1339]); (64278, [1358; 1350]);
    (64279, [1348; 1341]) ].

Definition covers (c : N) (e : N * N * N * N) : bool :=
  let '(first, last, step, _) := e in
  (first <=? c) && (c <=? last) && ((c - first) mod step =? 0).

(** The upper-case form of one code point; a code point of neither table
    is its own. *)
Definition upper_point (c : N) : list N :=
  match List.find (fun e => fst e =? c) special_upper with
  | Some (_, l) => l
  | None =>
      match List.find (covers c) simple_upper with
      | Some (first, _, _, target) => [target + (c - first)]
      | None => [c]
      end
  end.

(** [s.toUpperCase()]. *)
Definition toUpperCase (s : text) : text := flat_map upper_point s.

(** [String(raw || "CREATOR").toUpperCase()] for a role that is a string
    [Some s], or is missing ([None]); the empty string is falsy. *)
Definition upperRole (raw : option text) : text :=
  toUpperCase
    match raw with
    | Some (c :: s) => c :: s
    | _ => of_string "CREATOR"
    end.

(** [toUiRole(raw)] of the sign-in dialog. *)
Definition toUiRole (raw : option text) : Role.t :=
  let r := upperRole raw in
  if bool_decide (r = of_string "ORGANIZER") then Role.organizer
  else if bool_decide (r = of_string "ADMIN") then Role.admin
  else Role.creator.

(** The role [meFromToken] computes for a user whose [role] is [raw]. *)
Definition meRole (raw : option text) : Role.t :=
  let rawRole := upperRole raw in
  if bool_decide (rawRole = of_string "ORGANIZER") then Role.organizer
  else if bool_decide (rawRole = of_string "ADMIN") then Role.admin
  else Role.creator.

(** [s] spells [word], a word of capital letters, in some casing: each
    code point of [s] is the letter of [word] at its place or the small
    letter of it. *)
Definition cased (c u : N) : bool := (c =? u) || (c =? u + 32).

Fixpoint casing_of (s word : text) : bool :=
  match s, word with
  | [], [] => true
  | c :: s', u :: word' => cased c u && casing_of s' word'
  | _, _ => false
  end.

(** The same, where the dotless small i (U+0131) may also stand for
    an I. *)
Definition cased_dotless (c u : N) : bool :=
  cased c u || ((c =? 305) && (u =? 73)).

Fixpoint casing_of_dotless (s word : text) : bool :=
  match s, word with
  | [], [] => true
  | c :: s', u :: word' => cased_dotless c u && casing_of_dotless s' word'
  | _, _ => false
  end.

(** The letters of ORGANIZER and ADMIN. *)
Definition role_letters : list N := [65; 68; 69; 71; 73; 77; 78; 79; 82; 90].

Definition is_role_letter (d : N) : bool := bool_decide (d ∈ role_letters).

(** An entry of [simple_upper] whose upper-case forms are above Z, or
    which is that of the small letters, of the dotless i or of the
    long s. *)
Definition simple_ok (e : N * N * N * N) : bool :=
  let '(first, last, step, target) := e in
  (90 <? target)
  || ((first =? 97) && (last =? 122) && (target =? 65))
  || ((first =? 305) && (last =? 305) && (target =? 73))
  || ((first =? 383) && (last =? 383) && (target =? 83)).

(** The role adm, dotless i, n. *)
Definition dotless_admin : text := [97; 100; 109; 305; 110].

End Unicode.

(** ** Auth: the sign-in dialog *)

Module Auth.

(** [toUiRole(raw)]: map the role of the API onto the role of the UI. *)
Definition toUiRole (raw : value) : Role.t :=
  let r := toUpperCase (js_String (or_else raw (JStr "CREATOR"))) in
  if String.eqb r "ORGANIZER" then Role.organizer
  else if String.eqb r "ADMIN" then Role.admin
  else Role.creator.

(** [jsonFetch(url, init)]: [None] when it throws (the request rejects or
    the status is not a success), otherwise the parsed body, [null] when
    the body is not JSON. *)
Definition jsonFetch (net : fetched) : option json :=
  match net with
  | Rejected => None
  | Response ok body =>
      let data := match body with Some j => j | None => JNull end in
      if ok then Some data else None
  end.

(** What [localStorage.setItem(key, v)] stores for a value: its string. *)
Definition text_of (v : value) : stored :=
  match v with
  | None => Text "undefined"
  | Some j => Text (js_String j)
  end.

(** [saveAuth(token, user)]. *)
Definition saveAuth (token user : value) (ls : Storage) : Storage :=
  setItem "sharthi_user" (UserJson user)
    (setItem "sharthi_token" (text_of token)
       (setItem "jwt" (text_of token) ls)).

(** The result of [handleSignIn]: either the dialog reports an error and
    nothing else changes, or the token is saved and [onLogin(email, role)]
    is called. *)
Inductive signin_result :=
| SignInFailed (t : toast)
| SignedIn (ls : Storage) (email : string) (role : Role.t).

Definition handleSignIn (signinEmail signinPassword : string)
    (net : fetched) (ls : Storage) : signin_result :=
  if String.eqb signinEmail "" || String.eqb signinPassword "" then
    SignInFailed ToastError
  else
    match jsonFetch net with
    | None => SignInFailed ToastError
    | Some JNull =>
        (* [data.token] on [null] throws, the [catch] reports it *)
        SignInFailed ToastError
    | Some data =>
        let user := prop data "user" in
        let ls' := saveAuth (prop data "token") user ls in
        let uiRole := toUiRole (opt_prop user "role") in
        let email := js_String (or_else (opt_prop user "email") (JStr signinEmail)) in
        SignedIn ls' email uiRole
    end.

(** The role sent with a registration: the public form registers
    creators and organizers only. *)
Definition apiRole (role : Role.t) : string :=
  if bool_decide (role = Role.organizer) then "ORGANIZER" else "CREATOR".

(** [handleSignUp], with the role picked in the form. *)
Definition handleSignUp (name signupEmail signupPassword : string)
    (role : Role.t) (net : fetched) (ls : Storage) : signin_result :=
  if String.eqb name "" || String.eqb signupEmail ""
     || String.eqb signupPassword "" then
    SignInFailed ToastError
  else
    match jsonFetch net with
    | None => SignInFailed ToastError
    | Some JNull => SignInFailed ToastError
    | Some data =>
        let user := prop data "user" in
        let ls' := saveAuth (prop data "token") user ls in
        let uiRole :=
          toUiRole (Some (or_else (opt_prop user "role") (JStr (apiRole role)))) in
        let email := js_String (or_else (opt_prop user "email") (JStr signupEmail)) in
        SignedIn ls' email uiRole
    end.

End Auth.

(** ** App: session state and the screen router *)

Module App.

Record State := mkState {
  currentPage : Page.t;
  userRole : Role.t;
  selectedEventId : option string;
  isAuthenticated : bool;
  showAuth : bool;
  userEmail : string
}.

(** The initial values of the [useState] cells. *)
Definition initial : State :=
  {| currentPage := Page.home; userRole := Role.creator;
     selectedEventId := None; isAuthenticated := false;
     showAuth := false; userEmail := "" |}.

Definition setCurrentPage (p : Page.t) (st : State) : State :=
  {| currentPage := p; userRole := userRole st;
     selectedEventId := selectedEventId st;
     isAuthenticated := isAuthenticated st;
     showAuth := showAuth st; userEmail := userEmail st |}.

Definition setUserRole (r : Role.t) (st : State) : State :=
  {| currentPage := currentPage st; userRole := r;
     selectedEventId := selectedEventId st;
     isAuthenticated := isAuthenticated st;
     showAuth := showAuth st; userEmail := userEmail st |}.

Definition setSelectedEventId (e : option string) (st : State) : State :=
  {| currentPage := currentPage st; userRole := userRole st;
     selectedEventId := e;
     isAuthenticated := isAuthenticated st;
     showAuth := showAuth st; userEmail := userEmail st |}.

Definition setIsAuthenticated (b : bool) (st : State) : State :=
  {| currentPage := currentPage st; userRole := userRole st;
     selectedEventId := selectedEventId st;
     isAuthenticated := b;
     showAuth := showAuth st; userEmail := userEmail st |}.

Definition setShowAuth (b : bool) (st : State) : State :=
  {| currentPage := currentPage st; userRole := userRole st;
     selectedEventId := selectedEventId st;
     isAuthenticated := isAuthenticated st;
     showAuth := b; userEmail := userEmail st |}.

Definition setUserEmail (e : string) (st : State) : State :=
  {| currentPage := currentPage st; userRole := userRole st;
     selectedEventId := selectedEventId st;
     isAuthenticated := isAuthenticated st;
     showAuth := showAuth st; userEmail := e |}.

(** The role computed by [meFromToken] from the parsed user [u]. *)
Definition roleFromUser (u : json) : Role.t :=
  let rawRole :=
    toUpperCase (js_String (or_else (prop u "role") (JStr "CREATOR"))) in
  if String.eqb rawRole "ORGANIZER" then Role.organizer
  else if String.eqb rawRole "ADMIN" then Role.admin
  else Role.creator.

(** [meFromToken()]: the identity behind the stored token, [None] for
    [null]. *)
Definition meFromToken (ls : Storage) (net : fetched)
  : option (Role.t * string) :=
  match getToken ls with
  | None => None
  | Some _ =>
      match net with
      | Rejected => None
      | Response ok body =>
          if negb ok then None
          else
            match body with
            | None => None             (* [res.json()] rejects *)
            | Some JNull => None       (* [u.role] throws on [null] *)
            | Some u =>
                Some (roleFromUser u,
                      js_String (or_else (prop u "email") (JStr "")))
            end
      end
  end.

(** The auto-login effect of [App]: only the user cells are set, the page
    stays. *)
Definition restoreSession (ls : Storage) (net : fetched) (st : State) : State :=
  match meFromToken ls net with
  | None => st
  | Some (role, email) =>
      setUserRole role (setUserEmail email (setIsAuthenticated true st))
  end.

(** The pages that require a session. *)
Definition requiresAuth : gset Page.t :=
  list_to_set
    [Page.booking; Page.organizer; Page.admin; Page.my_bookings; Page.profile].

Definition navigate (page : Page.t) (st : State) : State :=
  if bool_decide (page ∈ requiresAuth) && negb (isAuthenticated st) then
    setShowAuth true st
  else setCurrentPage page st.

Definition navigateToEvent (eventId : string) (st : State) : State :=
  setCurrentPage Page.event_detail (setSelectedEventId (Some eventId) st).

Definition navigateToBooking (st : State) : State :=
  if negb (isAuthenticated st) then setShowAuth true st
  else setCurrentPage Page.booking st.

Definition handleLogin (email : string) (role : Role.t) (st : State) : State :=
  let st := setIsAuthenticated true (setUserRole role (setUserEmail email st)) in
  match role with
  | Role.organizer => setCurrentPage Page.organizer st
  | Role.admin => setCurrentPage Page.admin st
  | Role.creator => setCurrentPage Page.profile st
  end.

(** The storage keys cleared on logout: the token under its current and
    its older name, the cached user and the sign-up intents. *)
Definition identity_keys : list string :=
  ["jwt"; "sharthi_token"; "sharthi_user"; "sharthi_role_intent";
   "sharthi_name_intent"; "sharthi_phone_intent"].

Definition handleLogout (st : State) (ls : Storage) : State * Storage :=
  let st := setUserRole Role.creator (setUserEmail "" (setIsAuthenticated false st)) in
  let ls :=
    removeItem "sharthi_phone_intent"
      (removeItem "sharthi_name_intent"
         (removeItem "sharthi_role_intent"
            (removeItem "sharthi_user"
               (removeItem "sharthi_token"
                  (removeItem "jwt" ls))))) in
  (setCurrentPage Page.home st, ls).

(** The landing page by role, as the spec lists it. *)
Definition landing (role : Role.t) : Page.t :=
  match role with
  | Role.organizer => Page.organizer
  | Role.admin => Page.admin
  | Role.creator => Page.profile
  end.

(** A submitted sign-in form: [Auth.handleSignIn], then on success the
    [onLogin] and [onOpenChange(false)] callbacks that [App] passes to the
    dialog. *)
Definition signIn (email password : string) (net : fetched)
    (st : State) (ls : Storage) : State * Storage * list toast :=
  match Auth.handleSignIn email password net ls with
  | Auth.SignInFailed t => (st, ls, [t])
  | Auth.SignedIn ls' e role =>
      (setShowAuth false (handleLogin e role st), ls',
       [ToastSuccess])
  end.

End App.

(** ** Header: the profile menu and the bottom navigation *)

Module Header.

(** The name next to the avatar. *)
Definition username (userEmail : string) : string :=
  if Str.includes userEmail "@" then hd "" (Str.split "@" userEmail)
  else if String.eqb userEmail "" then "User" else userEmail.

(** The pages behind the buttons of the profile menu, which a signed-in
    user can open. *)
Definition menu (userRole : Role.t) : list Page.t :=
  ((if bool_decide (userRole ≠ Role.admin) then [Page.profile] else [])
   ++ (if bool_decide (userRole = Role.creator) then [Page.my_bookings] else [])
   ++ (if bool_decide (userRole = Role.organizer) then [Page.organizer] else [])
   ++ (if bool_decide (userRole = Role.admin) then [Page.admin] else []))%list.

(** The pages behind the buttons of the bottom navigation. *)
Definition bottomNav (userRole : Role.t) : list Page.t :=
  if bool_decide (userRole = Role.admin) then [Page.admin]
  else
    [Page.home; Page.search;
     if bool_decide (userRole = Role.organizer) then Page.organizer
     else Page.my_bookings;
     Page.profile].

(** Every page the header can pass to [onNavigate]. *)
Definition targets (userRole : Role.t) (isAuthenticated : bool) : list Page.t :=
  ((if isAuthenticated then menu userRole else []) ++ bottomNav userRole)%list.

End Header.

(** ** The handlers of [App] as the screens reach them *)

(** One interaction with the application: which handler of [App] each
    screen is given in [renderPage] and in the element tree of [App], and
    from which page it can be called. ([Header] is also given
    [setUserRole] as [onRoleChange], and never calls it.) *)
Module Session.
Import App.

Inductive ui_step : State → State → Prop :=
| click_header st page :
    page ∈ Header.targets (userRole st) (isAuthenticated st) →
    ui_step st (navigate page st)
    (* [onNavigate] of [Header] *)
| open_event st eventId :
    currentPage st ∈ [Page.home; Page.chatbot; Page.search] →
    ui_step st (navigateToEvent eventId st)
    (* [onNavigateToEvent] of [Home], [ChatbotInterface], [SearchPage] *)
| book_stall st :
    currentPage st = Page.event_detail →
    ui_step st (navigateToBooking st)
    (* [onBookStall] of [EventDetail] *)
| event_back st :
    currentPage st = Page.event_detail →
    ui_step st (setCurrentPage Page.home st)
    (* [onBack] of [EventDetail] *)
| booking_back st :
    currentPage st = Page.booking →
    ui_step st (setCurrentPage Page.event_detail st)
    (* [onBack] of [BookingFlow] *)
| booking_success st :
    currentPage st = Page.booking →
    ui_step st (setCurrentPage Page.my_bookings st)
    (* [onSuccess] of [BookingFlow] *)
| show_auth st open :
    ui_step st (setShowAuth open st)
    (* [onShowAuth] of [Header] and [ChatbotPopup], [onOpenChange] of [Auth] *)
| login st email role :
    ui_step st (handleLogin email role st)
    (* [onLogin] of [Auth] *)
| logout st ls :
    ui_step st (handleLogout st ls).1.
    (* [onLogout] of [Header] *)

(** An interaction, or the auto-login effect coming back. *)
Inductive step : State → State → Prop :=
| step_ui st st' : ui_step st st' → step st st'
| step_restore st ls net : step st (restoreSession ls net st).

End Session.

(** ** Numbers of the rate computations *)

(** A JavaScript number is an IEEE 754 binary64 value. The rates are
    computed on the binary64 numbers of [SpecFloat], with its division and
    multiplication (both round to nearest, ties to even). *)
Module Num.

Abbreviation t := spec_float.

Definition prec : Z := 53.
Definition emax : Z := 1024.

(** The number that holds the integer [z] (exactly, below [2 ^ 53]). *)
Definition of_Z (z : Z) : t := binary_normalize prec emax z 0 false.

Definition div : t → t → t := SFdiv prec emax.
Definition mul : t → t → t := SFmul prec emax.

(** [Math.round]: the nearest integer, a tie goes up. A finite number with
    a negative exponent [-k] is [m / 2 ^ k]; the others are integers, the
    infinities or [NaN] already. The sign of a zero result is not kept. *)
Definition round (x : t) : t :=
  match x with
  | S754_finite s m (Zneg k) =>
      of_Z ((2 * (if s then Zneg m else Zpos m) + 2 ^ Zpos k) / 2 ^ (Zpos k + 1))
  | _ => x
  end.

(** [Math.max(a, b)]. *)
Definition max (a b : t) : t :=
  match SFcompare a b with
  | Some Lt => b
  | Some _ => a
  | None => S754_nan
  end.

Definition is_nan (a : t) : bool :=
  match a with S754_nan => true | _ => false end.

Definition is_infinite (a : t) : bool :=
  match a with S754_infinity _ => true | _ => false end.

(** A number that is not negative: a zero, a positive number or
    [Infinity]. *)
Definition not_negative (x : t) : bool :=
  match x with
  | S754_zero _ | S754_infinity false | S754_finite false _ _ => true
  | _ => false
  end.

Definition add : t → t → t := SFadd prec emax.

(** [x || 0] on a number: the two zeros and [NaN] are falsy. *)
Definition or_zero (x : t) : t :=
  match x with
  | S754_zero _ | S754_nan => of_Z 0
  | _ => x
  end.

(** [x > 0]. *)
Definition gt_zero (x : t) : bool :=
  match SFcompare x (of_Z 0) with
  | Some Gt => true
  | _ => false
  end.

End Num.

(** ** Records mirrored from the backend *)

Record Stall := mkStall {
  stall_id : string;
  stall_name : string;
  stall_tier : string;
  stall_price : Z;
  stall_qtyTotal : Z;
  stall_qtyLeft : Z
}.

Record EventMeta := mkEventMeta {
  event_id : string;
  event_title : string;
  event_cityId : string;
  event_startAt : string;
  event_endAt : string
}.

(** [n || d] on numbers. *)
Definition num_or (n d : Z) : Z := if (n =? 0)%Z then d else n.

(** The sum of a field over a list of stalls, as the spec words it. *)
Definition sum_of (f : Stall → Z) (l : list Stall) : Z :=
  foldr (fun s t => (f s + t)%Z) 0%Z l.

(** ** EventDetail: resolving the event, tier cards, tier selection *)

Module EventDetail.

Definition is_alnum (c : ascii) : bool :=
  let n := nat_of_ascii c in
  ((48 <=? n)%nat && (n <=? 57)%nat)
  || ((65 <=? n)%nat && (n <=? 90)%nat)
  || ((97 <=? n)%nat && (n <=? 122)%nat).

Fixpoint all_alnum (s : string) : bool :=
  match s with
  | EmptyString => true
  | String c rest => is_alnum c && all_alnum rest
  end.

(** [/^[a-z0-9]+$/i.test(s)]. *)
Definition alnum_test (s : string) : bool :=
  negb (String.eqb s "") && all_alnum s.

Definition isRealId (id : option string) : bool :=
  match id with
  | None => false
  | Some s =>
      negb (String.eqb s "") && (24 <=? String.length s)%nat && alnum_test s
  end.

(** What the first effect does once [/events] has settled to [list]. *)
Inductive resolution :=
| Resolved (eid : string) (meta : option EventMeta)
    (* [setEid(resolved); setEventMeta(meta)] *)
| NoEvents.
    (* [toast.error("No events found..."); onBack()] *)

Definition find_event (eid : string) (list : list EventMeta) : option EventMeta :=
  List.find (fun e => String.eqb (event_id e) eid) list.

Definition resolveEvent (eventId : option string) (list : list EventMeta)
  : resolution :=
  let fallback :=
    match list with
    | e :: _ => Resolved (event_id e) (find_event (event_id e) list)
    | [] => NoEvents
    end in
  match eventId with
  | Some s =>
      if isRealId eventId && existsb (fun e => String.eqb (event_id e) s) list
      then Resolved s (find_event s list)
      else fallback
  | None => fallback
  end.

(** The key a stall is grouped under. *)
Definition tierKey (s : Stall) : string :=
  toUpperCase (if String.eqb (stall_tier s) "" then "SILVER" else stall_tier s).

(** The [byTier] map built by the loop of [tierCards]. *)
Definition byTier (stalls : list Stall) : gmap string (list Stall) :=
  foldl (fun (m : gmap string (list Stall)) s =>
           let key := tierKey s in
           let arr := default [] (m !! key) in
           <[key := (arr ++ [s])%list]> m)
        ∅ stalls.

Record TierCard := mkTierCard {
  card_id : string;
  card_name : string;
  card_price : Z;
  card_size : string;
  card_features : list string;
  card_available : Z;
  card_total : Z;
  card_popular : bool;
  card_sampleStallId : option string
}.

Definition sum_by (f : Stall → Z) (arr : list Stall) : Z :=
  foldl (fun t s => (t + num_or (f s) 0)%Z) 0%Z arr.

(** [Math.round(sum / n)] on an integer sum and a positive length, as an
    integer (the quotient of two integers below [2 ^ 52] is not rounded
    across a tie). The prices of this model are whole numbers; a price
    with a fraction, which the form of the organizer accepts, is outside
    it. *)
Definition round_div (sum : Z) (n : nat) : Z :=
  Qfloor (inject_Z sum / inject_Z (Z.of_nat n) + (1 # 2)).

Definition mkCard (groups : gmap string (list Stall))
    (key label : string) (features : list string) (popular : bool) : TierCard :=
  let arr := default [] (groups !! key) in
  let total := sum_by stall_qtyTotal arr in
  let left := sum_by stall_qtyLeft arr in
  let price :=
    match arr with
    | _ :: _ => round_div (sum_by stall_price arr) (length arr)
    | [] =>
        if String.eqb key "GOLD" then 12000%Z
        else if String.eqb key "SILVER" then 8000%Z
        else 5000%Z
    end in
  {| card_id := toLowerCase key;
     card_name := label;
     card_price := price;
     card_size :=
       if String.eqb key "GOLD" then "15x15 ft"
       else if String.eqb key "SILVER" then "12x12 ft"
       else "10x10 ft";
     card_features := features;
     card_available := left;
     card_total := total;
     card_popular := popular;
     card_sampleStallId :=
       match arr with
       | s :: _ => if String.eqb (stall_id s) "" then None else Some (stall_id s)
       | [] => None
       end |}.

Definition tierCards (stalls : list Stall) : list TierCard :=
  let groups := byTier stalls in
  [ mkCard groups "BRONZE" "Basic"
      ["Basic Setup"; "Electricity"; "Table & Chairs"] false;
    mkCard groups "SILVER" "Premium"
      ["Premium Setup"; "Electricity"; "Furniture"; "Branding Space"] true;
    mkCard groups "GOLD" "VIP"
      ["VIP Setup"; "Premium Electricity"; "Full Furniture"; "Prime Location";
       "Dedicated Support"] false ].

(** The [disabled] attribute and the label of the button of a card. *)
Definition disabled (c : TierCard) : bool :=
  (0 <? card_total c)%Z && (card_available c <=? 0)%Z.

Definition buttonLabel (c : TierCard) : string :=
  if (0 <? card_total c)%Z && (card_available c <=? 0)%Z
  then "Sold Out" else "Select Tier".

(** The two quantities of a stall as the numbers (binary64) they are in
    the browser. The answer of the backend is JSON, and [JSON.parse] reads
    a number too large for a double, such as [1e999], as [Infinity]. (The
    cards above carry the sums as integers, which is what they are for
    whole quantities.) *)
Record Quantities := mkQuantities {
  qtyTotal : Num.t;
  qtyLeft : Num.t
}.

(** What the normalisation of the stalls keeps of the two numbers of a
    stall of the answer: [Number(...) || 0]. *)
Definition normalized (total left : Num.t) : Quantities :=
  {| qtyTotal := Num.or_zero total; qtyLeft := Num.or_zero left |}.

(** [total] and [left] of [mkCard], over the stalls [arr] of one tier:
    [arr.reduce((t, s) => t + (s.qtyTotal || 0), 0)], and the same with
    [qtyLeft]. *)
Definition totalOf (arr : list Quantities) : Num.t :=
  foldl (fun t s => Num.add t (Num.or_zero (qtyTotal s))) (Num.of_Z 0) arr.

Definition availableOf (arr : list Quantities) : Num.t :=
  foldl (fun t s => Num.add t (Num.or_zero (qtyLeft s))) (Num.of_Z 0) arr.

(** The width of the availability bar of a card, in percent, from the
    [available] and the [total] of the card. *)
Definition barWidth (available total : Num.t) : Num.t :=
  if Num.gt_zero total then
    Num.max (Num.of_Z 2)
      (Num.mul (Num.div available total) (Num.of_Z 100))
  else Num.of_Z 100.

(** Two stalls of one tier, five places each, whose numbers of places
    left are [1e999] and [-1e999] in the answer of the backend. *)
Definition infinite_left : list Quantities :=
  [ normalized (Num.of_Z 5) (S754_infinity false);
    normalized (Num.of_Z 5) (S754_infinity true) ].

(** [onSelectTier(tierCard)] with the resolved event id [eid]: the
    storage afterwards, the notices raised, and whether [onBookStall()]
    was called. *)
Definition onSelectTier (eid : option string) (c : TierCard) (ls : Storage)
  : Storage * list toast * bool :=
  match eid with
  | None => (ls, [], false)
  | Some e =>
      match card_sampleStallId c with
      | None => (ls, [ToastInfo], false)
      | Some sid =>
          if (0 <? card_total c)%Z && (card_available c <=? 0)%Z then
            (ls, [ToastInfo], false)
          else
            (setItem "sharthi_booking_draft"
               (DraftJson {| draft_eventId := e; draft_stallId := sid;
                             draft_tier := card_name c;
                             draft_price := card_price c |}) ls,
             [], true)
      end
  end.

(** The stalls of the example of the spec. *)
Definition gold_example : list Stall :=
  [mkStall "S1" "G-1" "GOLD" 10000 5 2].

(** A tier whose only stall carries no quantities. *)
Definition unquantified : list Stall :=
  [mkStall "S1" "G-1" "GOLD" 10000 0 0].

End EventDetail.

(** ** AdminDashboard: booking analytics *)

Module AdminDashboard.

Record Booking := mkBooking {
  booking_status : string;
  booking_amount : Z
}.

Record Counts := mkCounts {
  paidCount : Z;
  pendingCount : Z;
  cancelledCount : Z;
  paidAmount : Z
}.

(** One turn of the loop over [bookings]. *)
Definition count (c : Counts) (b : Booking) : Counts :=
  if String.eqb (booking_status b) "paid" then
    {| paidCount := paidCount c + 1; pendingCount := pendingCount c;
       cancelledCount := cancelledCount c;
       paidAmount := paidAmount c + num_or (booking_amount b) 0 |}
  else if String.eqb (booking_status b) "pending" then
    {| paidCount := paidCount c; pendingCount := pendingCount c + 1;
       cancelledCount := cancelledCount c; paidAmount := paidAmount c |}
  else if String.eqb (booking_status b) "cancelled" then
    {| paidCount := paidCount c; pendingCount := pendingCount c;
       cancelledCount := cancelledCount c + 1; paidAmount := paidAmount c |}
  else c.

Definition counts (bookings : list Booking) : Counts :=
  foldl count {| paidCount := 0; pendingCount := 0;
                 cancelledCount := 0; paidAmount := 0 |} bookings.

Definition totalBookings (bookings : list Booking) : Z :=
  Z.of_nat (length bookings).

Definition successRate (bookings : list Booking) : Num.t :=
  if (0 <? totalBookings bookings)%Z then
    Num.round
      (Num.mul
         (Num.div (Num.of_Z (paidCount (counts bookings)))
                  (Num.of_Z (totalBookings bookings)))
         (Num.of_Z 100))
  else Num.of_Z 0.

(** 29 paid bookings out of 200. *)
Definition tie_bookings : list Booking :=
  replicate 29 (mkBooking "paid" 8000) ++ replicate 171 (mkBooking "pending" 8000).

(** The percentage as the spec words it: [round(100 * numerator /
    denominator)], and 0 for a denominator of 0. *)
Definition percent (numerator denominator : Z) : Z :=
  if (denominator =? 0)%Z then 0%Z
  else Qfloor (inject_Z 100 * inject_Z numerator / inject_Z denominator
               + (1 # 2)).

(** [jsonFetch(url, init)] of this file: [None] when it throws, the
    parsed body otherwise, [null] for a body that is not JSON. *)
Definition jsonFetch (net : fetched) : option json :=
  match net with
  | Rejected => None
  | Response ok body =>
      let data := match body with Some j => j | None => JNull end in
      if ok then Some data else None
  end.

(** The rows of the moderation queues all carry an [id]. *)
Class HasId (A : Type) := id_of : A → string.

Record AdminEvent := mkAdminEvent {
  ae_id : string;
  ae_title : string;
  ae_cityId : option string;
  ae_startAt : option string;
  ae_endAt : option string;
  ae_status : option string;
  ae_organizer : value
}.

Record AdminBookingRow := mkAdminBookingRow {
  abr_id : string;
  abr_rawStatus : string;
  abr_status : string;
  abr_amount : Z;
  abr_paymentRef : option string;
  abr_createdAt : string;
  abr_creatorName : string;
  abr_creatorEmail : string;
  abr_eventTitle : string;
  abr_eventCity : option string;
  abr_stallName : string;
  abr_stallTier : string
}.

Record AdminKycRow := mkAdminKycRow {
  kyc_id : string;
  kyc_statusRaw : string;
  kyc_status : string;
  kyc_type : string;
  kyc_submittedAt : string;
  kyc_userName : string;
  kyc_userEmail : string;
  kyc_userRole : string
}.

Record AdminDisputeRow := mkAdminDisputeRow {
  dispute_id : string;
  dispute_bookingId : string;
  dispute_issue : string;
  dispute_statusRaw : string;
  dispute_status : string;
  dispute_priorityRaw : string;
  dispute_priority : string
}.

#[global] Instance event_has_id : HasId AdminEvent := ae_id.
#[global] Instance booking_has_id : HasId AdminBookingRow := abr_id.
#[global] Instance kyc_has_id : HasId AdminKycRow := kyc_id.
#[global] Instance dispute_has_id : HasId AdminDisputeRow := dispute_id.

(** What the analytics loop reads of a row. *)
Definition row_booking (b : AdminBookingRow) : Booking :=
  {| booking_status := abr_status b; booking_amount := abr_amount b |}.

Inductive ReviewAction := APPROVE | REJECT.
Inductive DisputeAction := RESOLVE | ESCALATE.
Inductive BookingStatus := PENDING | PAID | CANCELLED.

Definition status_text (s : BookingStatus) : string :=
  match s with
  | PENDING => "PENDING"
  | PAID => "PAID"
  | CANCELLED => "CANCELLED"
  end.

(** What a handler of a queue leaves behind: the rows, the notices
    raised, and whether the request was sent. *)
Record Handled (A : Type) := mkHandled {
  rows_after : list A;
  notices : list toast;
  sent : bool
}.
Arguments mkHandled {A} _ _ _.
Arguments rows_after {A} _.
Arguments notices {A} _.
Arguments sent {A} _.

(** [rows.filter(r => r.id !== id)]. *)
Definition without {A} `{HasId A} (id : string) (rows : list A) : list A :=
  filter (fun r => id_of r ≠ id) rows.

(** [handleReviewEvent(id, action)], given what the PATCH settles to. *)
Definition handleReviewEvent (id : string) (action : ReviewAction)
    (net : fetched) (ls : Storage) (pendingEvents : list AdminEvent)
  : Handled AdminEvent :=
  match getToken ls with
  | None => mkHandled pendingEvents [ToastError] false
  | Some _ =>
      match jsonFetch net with
      | None => mkHandled pendingEvents [ToastError] true
      | Some _ => mkHandled (without id pendingEvents) [ToastSuccess] true
      end
  end.

(** [handleKycAction(id, action)]; the [kycActionId] cell is set for the
    time of the request and cleared by the [finally]. *)
Definition handleKycAction (id : string) (action : ReviewAction)
    (net : fetched) (ls : Storage) (kycItems : list AdminKycRow)
  : Handled AdminKycRow :=
  match getToken ls with
  | None => mkHandled kycItems [ToastError] false
  | Some _ =>
      match jsonFetch net with
      | None => mkHandled kycItems [ToastError] true
      | Some _ => mkHandled (without id kycItems) [ToastSuccess] true
      end
  end.

(** [handleDisputeAction(id, action)]. *)
Definition handleDisputeAction (id : string) (action : DisputeAction)
    (net : fetched) (ls : Storage) (disputes : list AdminDisputeRow)
  : Handled AdminDisputeRow :=
  match getToken ls with
  | None => mkHandled disputes [ToastError] false
  | Some _ =>
      match jsonFetch net with
      | None => mkHandled disputes [ToastError] true
      | Some _ =>
          mkHandled (without id disputes)
            [match action with RESOLVE => ToastSuccess | ESCALATE => ToastInfo end]
            true
      end
  end.

(** The row with its status replaced. *)
Definition with_status (b : AdminBookingRow) (newStatus : BookingStatus)
  : AdminBookingRow :=
  {| abr_id := abr_id b;
     abr_rawStatus := status_text newStatus;
     abr_status := toLowerCase (status_text newStatus);
     abr_amount := abr_amount b;
     abr_paymentRef := abr_paymentRef b;
     abr_createdAt := abr_createdAt b;
     abr_creatorName := abr_creatorName b;
     abr_creatorEmail := abr_creatorEmail b;
     abr_eventTitle := abr_eventTitle b;
     abr_eventCity := abr_eventCity b;
     abr_stallName := abr_stallName b;
     abr_stallTier := abr_stallTier b |}.

(** [updateBookingStatus(id, newStatus)]; the [updatingBookingId] cell is
    set for the time of the request and cleared by the [finally]. *)
Definition updateBookingStatus (id : string) (newStatus : BookingStatus)
    (net : fetched) (ls : Storage) (bookings : list AdminBookingRow)
  : Handled AdminBookingRow :=
  match getToken ls with
  | None => mkHandled bookings [ToastError] false
  | Some _ =>
      match jsonFetch net with
      | None => mkHandled bookings [ToastError] true
      | Some _ =>
          mkHandled
            (List.map (fun b => if String.eqb (abr_id b) id
                                then with_status b newStatus else b)
                      bookings)
            [ToastSuccess] true
      end
  end.

(** The category chart. *)
Record CategoryInsight := mkCategoryInsight {
  ci_key : string;
  ci_label : string;
  ci_gmv : Z;
  ci_bookings : Z
}.

(** A slice of the chart; no colour is [undefined]. *)
Record Slice := mkSlice {
  slice_name : string;
  slice_value : Z;
  slice_color : option string
}.

Definition CATEGORY_COLORS : list string :=
  ["#F05A28"; "#6C63FF"; "#2EC4B6"; "#F59E0B"; "#6B7280"].

Definition fallbackCategoryMixData : list Slice :=
  [ mkSlice "Crafts" 35 (Some "#F05A28");
    mkSlice "Beauty" 25 (Some "#6C63FF");
    mkSlice "Art" 20 (Some "#2EC4B6");
    mkSlice "Food" 12 (Some "#F59E0B");
    mkSlice "Other" 8 (Some "#6B7280") ].

Definition categoryChartData (categoryInsights : list CategoryInsight)
  : list Slice :=
  if (0 <? length categoryInsights)%nat then
    imap (fun index c =>
            {| slice_name := ci_label c;
               slice_value := ci_gmv c;
               slice_color :=
                 CATEGORY_COLORS !! (index mod length CATEGORY_COLORS)%nat |})
         categoryInsights
  else fallbackCategoryMixData.

End AdminDashboard.

(** ** BookingFlow: review, payment, success *)

Module BookingFlow.

Inductive Step := review | payment | success.

Record State := mkState {
  step : Step;
  draft : option Draft;
  event : option EventMeta;
  stall : option Stall;
  loading : bool
}.

Definition setStep (s : Step) (st : State) : State :=
  {| step := s; draft := draft st; event := event st;
     stall := stall st; loading := loading st |}.

(** The synchronous part of the mount effect. *)
Inductive mount_result :=
| NoStall            (* [toast.error("No stall selected."); onBack()] *)
| NotADraft          (* the stored text is not the JSON of a draft *)
| Mounted (st : State).

Definition mount (ls : Storage) : mount_result :=
  match getItem "sharthi_booking_draft" ls with
  | None => NoStall
  | Some (Text s) => if String.eqb s "" then NoStall else NotADraft
  | Some (DraftJson d) =>
      Mounted {| step := review; draft := Some d; event := None;
                 stall := None; loading := true |}
  | Some _ => NotADraft
  end.

Record Totals := mkTotals {
  base : Z;
  platform : Z;
  gst : Z;
  total : Z
}.

Definition totals (st : State) : Totals :=
  let base := match draft st with Some d => draft_price d | None => 0%Z end in
  let platform := 0%Z in
  let gst := 0%Z in
  {| base := base; platform := platform; gst := gst;
     total := (base + platform + gst)%Z |}.

(** [api(path, init)]: [None] when it throws (the request rejects, the
    status is not a success, or the body is not JSON). *)
Definition api (net : fetched) : option json :=
  match net with
  | Rejected => None
  | Response ok body => if ok then body else None
  end.

Inductive request :=
| PaymentMock
| CreateBooking (eventId stallId : string) (amount : Z) (paymentRef : value).

(** A request that was sent, and whether [api] returned for it. *)
Record call := mkCall {
  call_request : request;
  call_ok : bool
}.

Record Outcome := mkOutcome {
  out_state : State;
  out_storage : Storage;
  out_toasts : list toast;
  out_calls : list call
}.

Definition title_or (e : option EventMeta) : string :=
  match e with
  | Some m => if String.eqb (event_title m) "" then "Event" else event_title m
  | None => "Event"
  end.

(** The row put in front of the local mirror of "my bookings". *)
Definition localEcho (st : State) : LocalBooking :=
  {| lb_event := title_or (event st);
     lb_location := match event st with Some m => event_cityId m | None => "" end;
     lb_tier := match draft st with Some d => draft_tier d | None => "" end;
     lb_stallNumber := match stall st with Some s => stall_name s | None => "" end;
     lb_amount := num_or (total (totals st)) 0;
     lb_status := "confirmed" |}.

(** The inner [try] after a successful payment; a stored value that is
    not a list of rows makes it throw, and the [catch] ignores that. *)
Definition mirror (st : State) (ls : Storage) : Storage :=
  match getItem "sharthi_my_bookings" ls with
  | None => setItem "sharthi_my_bookings" (BookingsJson [localEcho st]) ls
  | Some (Text s) =>
      if String.eqb s "" then
        setItem "sharthi_my_bookings" (BookingsJson [localEcho st]) ls
      else ls
  | Some (BookingsJson mine) =>
      setItem "sharthi_my_bookings" (BookingsJson (localEcho st :: mine)) ls
  | Some _ => ls
  end.

(** [handlePayment()], given what the two requests settle to when they
    are sent. *)
Definition handlePayment (payNet bookNet : fetched) (st : State) (ls : Storage)
  : Outcome :=
  match draft st with
  | None => mkOutcome st ls [] []
  | Some d =>
      match getToken ls with
      | None => mkOutcome st ls [ToastError] []
      | Some _ =>
          match api payNet with
          | None =>
              mkOutcome st ls [ToastLoading; ToastError]
                [mkCall PaymentMock false]
          | Some JNull =>
              (* [const { paymentRef } = null] throws *)
              mkOutcome st ls [ToastLoading; ToastError]
                [mkCall PaymentMock true]
          | Some body =>
              let req :=
                CreateBooking (draft_eventId d) (draft_stallId d)
                  (total (totals st)) (prop body "paymentRef") in
              match api bookNet with
              | None =>
                  mkOutcome st ls [ToastLoading; ToastError]
                    [mkCall PaymentMock true; mkCall req false]
              | Some _ =>
                  mkOutcome (setStep success st)
                    (mirror st (removeItem "sharthi_booking_draft" ls))
                    [ToastLoading; ToastSuccess]
                    [mkCall PaymentMock true; mkCall req true]
              end
          end
      end
  end.

(** Both requests were sent and both returned. *)
Definition both_succeeded (calls : list call) : bool :=
  match calls with
  | [c1; c2] =>
      match call_request c1, call_request c2 with
      | PaymentMock, CreateBooking _ _ _ _ => call_ok c1 && call_ok c2
      | _, _ => false
      end
  | _ => false
  end.

Definition booking_amounts (calls : list call) : list Z :=
  omap (fun c => match call_request c with
                 | CreateBooking _ _ amount _ => Some amount
                 | PaymentMock => None
                 end) calls.

End BookingFlow.

(** ** Load effects and their cleanup *)

(** The asynchronous body of a [useEffect] as a tree: what it does before
    the next [await], and how it goes on from what the awaited request
    settled to. The requests of a [Promise.all] are taken in list order.
    An action records that the effect made the call: React itself drops the
    state update of a component that is gone, a notice and a callback of
    the parent take effect all the same. *)
Module Effects.

Inductive action :=
| SetState (cell : string)      (* a state setter of the component *)
| Notify (t : toast)
| CallParent (callback : string).

(** What an awaited [fetch] gives its continuation. *)
Inductive settled :=
| Aborted                       (* it rejects with an [AbortError] *)
| Settled (f : fetched).

Inductive proc :=
| Done
| Act (a : action) (k : proc)
| Fetch (url : string) (signal : bool) (k : settled → proc)
    (* [await fetch(url, { signal })], [signal] tells whether the
       controller of the effect is attached *)
| Cancel (k : bool → proc).
    (* a read of the [cancel] flag of the closure *)

(** The variables the cleanup function writes. *)
Record env := mkEnv {
  cancel : bool;
  aborted : bool
}.

Definition fresh : env := {| cancel := false; aborted := false |}.

Inductive event :=
| Did (a : action)
| Requested (url : string) (signal : bool)
| Unmounted.

Definition settle (e : env) (signal : bool) (f : fetched) : settled :=
  if signal && aborted e then Aborted else Settled f.

(** Run an effect against a network that answers each url. [alive] counts
    the requests that settle while the component is mounted; the
    component unmounts, and [cleanup] runs, while the next one is in
    flight. [None]: the component stays (or is already gone). *)
Fixpoint run (cleanup : env → env) (net : string → fetched)
    (alive : option nat) (e : env) (p : proc) : list event :=
  match p with
  | Done => []
  | Act a k => Did a :: run cleanup net alive e k
  | Cancel k => run cleanup net alive e (k (cancel e))
  | Fetch url signal k =>
      match alive with
      | Some 0 =>
          let e' := cleanup e in
          Requested url signal :: Unmounted ::
            run cleanup net None e' (k (settle e' signal (net url)))
      | Some (S n) =>
          Requested url signal ::
            run cleanup net (Some n) e (k (settle e signal (net url)))
      | None =>
          Requested url signal ::
            run cleanup net None e (k (settle e signal (net url)))
      end
  end.

(** The events from the unmount on, the request in flight included. *)
Fixpoint since_unmount (tr : list event) : list event :=
  match tr with
  | [] => []
  | Requested url signal :: Unmounted :: rest =>
      Requested url signal :: rest
  | _ :: rest => since_unmount rest
  end.

Definition is_did (ev : event) : bool :=
  match ev with Did _ => true | _ => false end.

(** A request that the cleanup does not abort: no signal is attached, or
    the cleanup leaves the controller alone. *)
Definition uncancelled (cleanup : env → env) (ev : event) : bool :=
  match ev with
  | Requested _ signal => negb (signal && aborted (cleanup fresh))
  | _ => false
  end.

(** What the spec allows from the unmount on: cancelled requests, and
    nothing done with what they settle to. *)
Definition allowed (cleanup : env → env) (ev : event) : bool :=
  negb (is_did ev) && negb (uncancelled cleanup ev).

(** [p], resumed in the environment [e], only does what is allowed. *)
Definition quiet (cleanup : env → env) (e : env) (p : proc) : Prop :=
  ∀ net, Forall (fun ev => allowed cleanup ev = true) (run cleanup net None e p).

(** A sufficient condition on the tree of an effect: every request
    carries the signal, and wherever the component unmounts the rest of
    the effect is quiet. *)
Fixpoint safe (cleanup : env → env) (p : proc) : Prop :=
  match p with
  | Done => True
  | Act _ k => safe cleanup k
  | Cancel k => safe cleanup (k false)
  | Fetch url signal k =>
      signal && aborted (cleanup fresh) = true
      ∧ (∀ f, quiet cleanup (cleanup fresh) (k (settle (cleanup fresh) signal f)))
      ∧ (∀ f, safe cleanup (k (Settled f)))
  end.

(** The ids of the items of a JSON array, [None] when the value is not an
    array. *)
Definition item_id (j : json) : string :=
  match prop j "id" with
  | Some v => js_String v
  | None => "undefined"
  end.

Definition ids_of (j : json) : option (list string) :=
  match j with
  | JArr items => Some (List.map item_id items)
  | _ => None
  end.

(** *** SearchPage *)
Module SearchPage.

(** [finally { if (!cancel) setLoading(false) }] *)
Definition finally : proc :=
  Cancel (fun c => if c then Done else Act (SetState "loading") Done).

(** [catch (e)] for an error that is not an [AbortError]. *)
Definition catch_other : proc :=
  Cancel (fun c => if c then finally else Act (Notify ToastError) finally).

(** [if (!cancel) { setEvents(evCards); setCreators(crCards) }] *)
Definition commit : proc :=
  Cancel (fun c =>
    if c then finally
    else Act (SetState "events") (Act (SetState "creators") finally)).

(** The creators block; its own [catch] turns every failure into an
    empty list. *)
Definition creators : proc :=
  Fetch "/creators/search" true (fun r =>
    match r with
    | Settled (Response false _) =>
        Fetch "/creators" true (fun _ => commit)
    | _ => commit
    end).

(** [Promise.all(evList.map(...))]: one stalls request per event, each
    in its own [try], a failure gives the default entry. *)
Fixpoint hydrate (ids : list string) (k : proc) : proc :=
  match ids with
  | [] => k
  | id :: rest =>
      Fetch ("/events/" ++ id ++ "/stalls") true (fun _ => hydrate rest k)
  end.

Definition load : proc :=
  Act (SetState "loading")
    (Fetch "/events" true (fun r =>
       match r with
       | Aborted => finally
       | Settled Rejected => catch_other
       | Settled (Response false _) => hydrate [] creators
       | Settled (Response true None) => catch_other
       | Settled (Response true (Some body)) =>
           match ids_of body with
           | Some ids => hydrate ids creators
           | None => catch_other
           end
       end)).

(** [return () => { cancel = true; controller.abort(); }] *)
Definition cleanup (e : env) : env :=
  {| cancel := true; aborted := true |}.

End SearchPage.

(** *** OrganizerDashboard *)
Module OrganizerDashboard.

(** "Load events", with or without a stored token. *)
Definition loadEvents (ls : Storage) : proc :=
  if item_truthy (getItem "jwt" ls) then
    Fetch "/organizers/me/events?page=1&limit=50" false (fun r =>
      match r with
      | Settled (Response true _) =>
          Act (SetState "myEvents") (Act (SetState "loading") Done)
      | _ =>
          Act (Notify ToastError) (Act (SetState "loading") Done)
      end)
  else Act (SetState "loading") (Act (SetState "loading") Done).

(** "Load bookings". *)
Definition loadBookings (ls : Storage) : proc :=
  if item_truthy (getItem "jwt" ls) then
    Fetch "/organizers/me/bookings?page=1&limit=50" false (fun r =>
      match r with
      | Settled (Response true _) =>
          Act (SetState "orgBookings") (Act (SetState "bookingsLoading") Done)
      | _ =>
          Act (Notify ToastError) (Act (SetState "bookingsLoading") Done)
      end)
  else Act (SetState "bookingsLoading") (Act (SetState "bookingsLoading") Done).

(** The effects return no cleanup function. *)
Definition cleanup (e : env) : env := e.

End OrganizerDashboard.

(** *** EventDetail *)
Module EventDetail.

(** The first effect: [/events], then the resolution of the id. The
    [catch(() => [])] on the request turns every failure, an abort
    included, into the empty list. *)
Definition resolve (eventId : option string)
    (decode : json → list EventMeta) : proc :=
  Fetch "/events" true (fun r =>
    let list :=
      match r with
      | Settled (Response _ (Some body)) => decode body
      | _ => []
      end in
    match EventDetail.resolveEvent eventId list with
    | EventDetail.Resolved _ _ =>
        Act (SetState "eid") (Act (SetState "eventMeta") Done)
    | EventDetail.NoEvents =>
        Act (Notify ToastError) (Act (CallParent "onBack") Done)
    end).

(** [return () => ac.abort()] *)
Definition cleanup (e : env) : env :=
  {| cancel := cancel e; aborted := true |}.

End EventDetail.

(** *** AdminDashboard *)
Module AdminDashboard.

(** [finally { if (!cancel) setAuthChecked(true) }] *)
Definition finally : proc :=
  Cancel (fun c => if c then Done else Act (SetState "authChecked") Done).

(** [catch (e) { if (!cancel) toast.error(...) }] *)
Definition catch : proc :=
  Cancel (fun c => if c then finally else Act (Notify ToastError) finally).

(** [String(res.role || '').toUpperCase()] *)
Definition rawRole (res : json) : string :=
  toUpperCase (js_String (or_else (prop res "role") (JStr ""))).

(** The admin role check that runs when the dashboard mounts. *)
Definition roleCheck (ls : Storage) : proc :=
  match getToken ls with
  | None => Act (Notify ToastError) finally
  | Some _ =>
      Fetch "/auth/me" false (fun r =>
        match r with
        | Aborted => catch
        | Settled f =>
            match AdminDashboard.jsonFetch f with
            | None => catch
            | Some JNull => catch          (* [res.role] throws on [null] *)
            | Some res =>
                if String.eqb (rawRole res) "ADMIN" then
                  Cancel (fun c =>
                    if c then finally else Act (SetState "isAdmin") finally)
                else Act (Notify ToastError) finally
            end
        end)
  end.

(** [return () => { cancel = true; }] *)
Definition cleanup (e : env) : env :=
  {| cancel := true; aborted := aborted e |}.

End AdminDashboard.

End Effects.

(** ** OrganizerDashboard: event cards, stall aggregates, roster export *)

Module OrganizerDashboard.

(** [jsonFetch(url, init)] of this file: [None] when it throws, the
    parsed body otherwise, [null] for a body that is not JSON. *)
Definition jsonFetch (net : fetched) : option json :=
  match net with
  | Rejected => None
  | Response ok body =>
      let data := match body with Some j => j | None => JNull end in
      if ok then Some data else None
  end.

Inductive EventStatus := live | upcoming | ended.

Record EventCard := mkEventCard {
  ec_id : string;
  ec_name : string;
  ec_date : string;
  ec_location : string;
  ec_status : EventStatus;
  ec_stallsSold : Z;
  ec_stallsTotal : Z;
  ec_revenue : Z;
  ec_views : Z
}.

(** What [jsonFetch<StallRow[]>] of the stalls of an event settles to:
    it throws, or it resolves to [null] (a body that is not JSON) or to
    the rows. *)
Inductive stalls_result :=
| StallsFailed
| StallsNull
| StallsRows (data : list Stall).

(** [Math.max(0, (s.qtyTotal || 0) - (s.qtyLeft || 0))] *)
Definition soldOf (s : Stall) : Z :=
  Z.max 0 (num_or (stall_qtyTotal s) 0 - num_or (stall_qtyLeft s) 0).

(** The three [reduce] calls of [refreshStalls]. *)
Definition total (data : list Stall) : Z :=
  foldl (fun sum s => (sum + num_or (stall_qtyTotal s) 0)%Z) 0%Z data.

Definition sold (data : list Stall) : Z :=
  foldl (fun sum s => (sum + soldOf s)%Z) 0%Z data.

Definition revenue (data : list Stall) : Z :=
  foldl (fun sum s => (sum + num_or (stall_price s) 0 * soldOf s)%Z) 0%Z data.

(** [{ ...ev, stallsTotal, stallsSold, revenue }] *)
Definition with_stalls (ev : EventCard) (data : list Stall) : EventCard :=
  {| ec_id := ec_id ev; ec_name := ec_name ev; ec_date := ec_date ev;
     ec_location := ec_location ev; ec_status := ec_status ev;
     ec_stallsSold := sold data;
     ec_stallsTotal := total data;
     ec_revenue := revenue data;
     ec_views := ec_views ev |}.

Record Refreshed := mkRefreshed {
  myEvents_after : list EventCard;
  stalls_after : list Stall;
  refresh_notices : list toast
}.

(** [refreshStalls(eventId)]: [data.reduce] throws on [null], after
    [setStalls(data || [])] has run. (The [stallsLoading] flag is set
    for the time of the request.) *)
Definition refreshStalls (eventId : string) (res : stalls_result)
    (myEvents : list EventCard) (stalls : list Stall) : Refreshed :=
  match res with
  | StallsFailed => mkRefreshed myEvents stalls [ToastError]
  | StallsNull => mkRefreshed myEvents [] [ToastError]
  | StallsRows data =>
      mkRefreshed
        (List.map (fun ev => if String.eqb (ec_id ev) eventId
                             then with_stalls ev data else ev)
                  myEvents)
        data []
  end.

(** The fill rate of a card:
    [Math.round((stallsSold / Math.max(1, stallsTotal)) * 100)]. *)
Definition fillRate (ev : EventCard) : Num.t :=
  Num.round
    (Num.mul
       (Num.div (Num.of_Z (ec_stallsSold ev))
                (Num.max (Num.of_Z 1) (Num.of_Z (ec_stallsTotal ev))))
       (Num.of_Z 100)).

(** *** The roster as CSV *)

(** The double quote. *)
Definition dquote : ascii := ascii_of_nat 34.

(** The line feed. *)
Definition newline : ascii := ascii_of_nat 10.

(** The [replace] of [exportRoster]: every double quote of the value is
    doubled. *)
Fixpoint escape (val : string) : string :=
  match val with
  | EmptyString => EmptyString
  | String c rest =>
      if Ascii.eqb c dquote then String dquote (String dquote (escape rest))
      else String c (escape rest)
  end.

(** [String(row[h] ?? '')] on a row that is not [null]. *)
Definition cellText (row : json) (h : string) : string :=
  match prop row h with
  | None | Some JNull => ""
  | Some v => js_String v
  end.

(** The quoted cell. *)
Definition cell (row : json) (h : string) : string :=
  String dquote (escape (cellText row h) ++ String dquote EmptyString).

Definition headers : list string :=
  ["bookingId"; "status"; "amount"; "createdAt"; "stallName"; "stallTier";
   "creatorId"; "creatorName"; "creatorEmail"].

Definition csvLine (row : json) : string :=
  Str.join "," (List.map (cell row) headers).

Definition csvOf (rows : list json) : string :=
  Str.join (String newline EmptyString)
    (Str.join "," headers :: List.map csvLine rows).

Definition is_null (j : json) : bool :=
  match j with JNull => true | _ => false end.

(** [resp?.rows ?? []] *)
Definition rosterRows (resp : json) : value :=
  match opt_prop (Some resp) "rows" with
  | None | Some JNull => Some (JArr [])
  | Some rows => Some rows
  end.

(** [exportRoster(eventId, eventName)]: the text of the file that is
    downloaded, if one is, and the notice raised. [row[h]] throws on a
    row that is [null]; [rows.map] throws on a string and on an object
    with a truthy [length]; any other value that is not an array has no
    [length] and counts as empty. *)
Definition exportRoster (net : fetched) : option string * list toast :=
  match jsonFetch net with
  | None => (None, [ToastError])
  | Some resp =>
      match rosterRows resp with
      | Some (JArr []) => (None, [ToastInfo])
      | Some (JArr rows) =>
          if existsb is_null rows then (None, [ToastError])
          else (Some (csvOf rows), [ToastSuccess])
      | Some (JStr s) =>
          if String.eqb s "" then (None, [ToastInfo])
          else (None, [ToastError])
      | Some (JObj fields) =>
          if truthy (assoc "length" fields) then (None, [ToastError])
          else (None, [ToastInfo])
      | _ => (None, [ToastInfo])
      end
  end.

(** *** Reading a CSV text back (RFC 4180) *)

(** The reader is in front of a field, inside a bare field, inside a
    quoted field, or behind a double quote met inside a quoted field. *)
Inductive mode := FieldStart | Bare | Quoted | Closing.

Definition snoc_char (field : string) (c : ascii) : string :=
  field ++ String c EmptyString.

(** The records of a CSV text: a comma ends a field, a line feed ends a
    record, a quoted field runs to its closing quote, and inside it two
    double quotes stand for one. [None]: the text is not well formed. *)
Fixpoint csvRead (m : mode) (field : string) (record : list string)
    (text : string) : option (list (list string)) :=
  match text with
  | EmptyString =>
      match m with
      | Quoted => None
      | _ => Some [(record ++ [field])%list]
      end
  | String c rest =>
      match m with
      | Quoted =>
          if Ascii.eqb c dquote then csvRead Closing field record rest
          else csvRead Quoted (snoc_char field c) record rest
      | _ =>
          if Ascii.eqb c "," then
            csvRead FieldStart EmptyString (record ++ [field])%list rest
          else if Ascii.eqb c newline then
            option_map (cons (record ++ [field])%list)
              (csvRead FieldStart EmptyString [] rest)
          else
            match m with
            | FieldStart =>
                if Ascii.eqb c dquote then csvRead Quoted EmptyString record rest
                else csvRead Bare (snoc_char field c) record rest
            | Bare =>
                if Ascii.eqb c dquote then None
                else csvRead Bare (snoc_char field c) record rest
            | _ =>
                if Ascii.eqb c dquote then
                  csvRead Quoted (snoc_char field dquote) record rest
                else None
            end
      end
  end.

Definition csvParse (text : string) : option (list (list string)) :=
  csvRead FieldStart EmptyString [] text.

End OrganizerDashboard.

(** ** SearchPage: cards and the client-side filter *)

Module SearchPage.

(** [guessCategory(csv)] (the same function is in Home). *)
Definition firstTag (csv : option string) : string :=
  hd "" (Str.tags (default "" csv)).

Definition guessCategory (csv : option string) : string :=
  let tag := firstTag csv in
  let t := toLowerCase tag in
  if Str.includes t "craft" then "Crafts"
  else if Str.includes t "beauty" || Str.includes t "makeup" then "Beauty"
  else if Str.includes t "art" || Str.includes t "paint" then "Art"
  else if Str.includes t "decor" || Str.includes t "candle" then "Home Decor"
  else if Str.includes t "food" then "Food"
  else if Str.includes t "fashion" then "Fashion"
  else if String.eqb tag "" then "General" else tag.

Record CardEvent := mkCardEvent {
  ce_id : string;
  ce_title : string;
  ce_image : string;
  ce_date : string;
  ce_location : string;
  ce_category : string;
  ce_stallsAvailable : Z;
  ce_priceFrom : Z;
  ce_attendees : Z
}.

(** [Math.min(...prices)] of a list that is not empty. *)
Definition min_of (first : Z) (others : list Z) : Z :=
  foldl Z.min first others.

(** [stalls.length ? Math.min(...stalls.map(s => Number(s.price || 0))) : 0] *)
Definition priceFrom (stalls : list Stall) : Z :=
  match List.map (fun s => num_or (stall_price s) 0) stalls with
  | [] => 0%Z
  | p :: prices => min_of p prices
  end.

(** [stalls.reduce((sum, s) => sum + Number(s.qtyLeft || 0), 0)] *)
Definition stallsAvailable (stalls : list Stall) : Z :=
  foldl (fun sum s => (sum + num_or (stall_qtyLeft s) 0)%Z) 0%Z stalls.

(** The test of [filteredEvents] on one card, for the trimmed and
    lower-cased query [q]. *)
Definition matches (q : string) (priceRange : Z * Z) (e : CardEvent) : bool :=
  let matchesQ :=
    String.eqb q ""
    || Str.includes (toLowerCase (ce_title e)) q
    || Str.includes (toLowerCase (ce_category e)) q
    || Str.includes (toLowerCase (ce_location e)) q in
  let matchesPrice :=
    (priceRange.1 <=? ce_priceFrom e)%Z && (ce_priceFrom e <=? priceRange.2)%Z in
  matchesQ && matchesPrice.

Definition filteredEvents (searchQuery : string) (priceRange : Z * Z)
    (events : list CardEvent) : list CardEvent :=
  let q := toLowerCase (Str.trim searchQuery) in
  List.filter (matches q priceRange) events.

End SearchPage.

(** ** CreatorProfile: completeness and skills *)

Module CreatorProfile.

(** The cells of the form; a price is a number or the empty string
    ([None]). *)
Record Form := mkForm {
  name : string;
  phone : string;
  bio : string;
  city : string;
  minPrice : option Z;
  maxPrice : option Z;
  skills : list string;
  newSkill : string
}.

Definition filled (s : string) : Z := if String.eqb s "" then 0 else 1.

(** [typeof p === "number" && p > 0] *)
Definition priced (p : option Z) : Z :=
  match p with
  | Some n => if (0 <? n)%Z then 1 else 0
  | None => 0
  end.

(** The counter [done] of [profileComplete]. *)
Definition done (f : Form) : Z :=
  filled (name f) + filled (phone f) + filled (bio f) + filled (city f)
  + priced (minPrice f) + priced (maxPrice f)
  + (if (0 <? length (skills f))%nat then 1 else 0).

(** [Math.round((done / 7) * 100)] *)
Definition profileComplete (f : Form) : Num.t :=
  Num.round (Num.mul (Num.div (Num.of_Z (done f)) (Num.of_Z 7)) (Num.of_Z 100)).

(** [onAddSkill()]: the skills and the input afterwards, and the notice
    raised. *)
Definition onAddSkill (newSkill : string) (skills : list string)
  : list string * string * list toast :=
  let s := Str.trim newSkill in
  if String.eqb s "" then (skills, newSkill, [])
  else if bool_decide (s ∈ skills) then (skills, newSkill, [ToastInfo])
  else (take 20 (skills ++ [s])%list, "", []).

(** [onRemoveSkill(s)] *)
Definition onRemoveSkill (s : string) (skills : list string) : list string :=
  filter (fun x => x ≠ s) skills.

End CreatorProfile.

(** * Properties *)

(** ** Screen router and session gate *)

Section Router.
Import App.

Lemma requiresAuth_spec (page : Page.t) :
  page ∈ requiresAuth ↔
  page = Page.booking ∨ page = Page.organizer ∨ page = Page.admin
  ∨ page = Page.my_bookings ∨ page = Page.profile.
Proof.
  unfold requiresAuth. rewrite elem_of_list_to_set.
  repeat rewrite elem_of_cons. rewrite elem_of_nil. tauto.
Qed.

(** C1. While the session is unauthenticated, [navigate] to a page of the
    guarded set (booking, organizer, admin, my-bookings, profile) leaves
    the current page as it is and raises the sign-in flag; [navigate] to
    any other page makes it the current page. *)
Theorem navigate_unauthenticated (page : Page.t) (st : State) :
  isAuthenticated st = false →
  (page = Page.booking ∨ page = Page.organizer ∨ page = Page.admin
   ∨ page = Page.my_bookings ∨ page = Page.profile →
     currentPage (navigate page st) = currentPage st
     ∧ showAuth (navigate page st) = true)
  ∧ (¬ (page = Page.booking ∨ page = Page.organizer ∨ page = Page.admin
        ∨ page = Page.my_bookings ∨ page = Page.profile) →
     currentPage (navigate page st) = page).
Proof.
  intros Hanon. unfold navigate. rewrite Hanon. simpl negb.
  rewrite andb_true_r. split; intros Hg.
  - apply requiresAuth_spec in Hg.
    rewrite bool_decide_eq_true_2 by exact Hg. split; reflexivity.
  - rewrite bool_decide_eq_false_2; [reflexivity |].
    intros Hin. apply Hg, requiresAuth_spec, Hin.
Qed.

Lemma navigate_unauthenticated_witness :
  (currentPage (navigate Page.admin initial) = Page.home
   ∧ showAuth (navigate Page.admin initial) = true)
  ∧ currentPage (navigate Page.search initial) = Page.search.
Proof.
  split.
  - apply (navigate_unauthenticated Page.admin initial); [reflexivity |].
    right; right; left; reflexivity.
  - apply (navigate_unauthenticated Page.search initial); [reflexivity |].
    intros [H | [H | [H | [H | H]]]]; discriminate H.
Defined.

(** C3. A successful login lands by role: [handleLogin] sets the page to
    the organizer dashboard for an organizer, to the admin dashboard for
    an admin and to the profile for a creator, whatever the state before;
    a submitted sign-in form either fails and leaves the state alone or
    ends in that landing page with the session authenticated. *)
Theorem login_landing (email password : string) (role : Role.t)
    (net : fetched) (st : State) (ls : Storage) :
  currentPage (handleLogin email Role.organizer st) = Page.organizer
  ∧ currentPage (handleLogin email Role.admin st) = Page.admin
  ∧ currentPage (handleLogin email Role.creator st) = Page.profile
  ∧ isAuthenticated (handleLogin email role st) = true
  ∧ userRole (handleLogin email role st) = role
  ∧ userEmail (handleLogin email role st) = email
  ∧ match Auth.handleSignIn email password net ls with
    | Auth.SignedIn ls' e r =>
        currentPage (signIn email password net st ls).1.1 = landing r
        ∧ isAuthenticated (signIn email password net st ls).1.1 = true
        ∧ userRole (signIn email password net st ls).1.1 = r
    | Auth.SignInFailed _ =>
        (signIn email password net st ls).1.1 = st
        ∧ (signIn email password net st ls).1.2 = ls
    end.
Proof.
  repeat split; try (destruct role; reflexivity).
  unfold signIn.
  destruct (Auth.handleSignIn email password net ls) as [t | ls' e r]; simpl.
  - split; reflexivity.
  - destruct r; repeat split; reflexivity.
Qed.

(** C4. [handleLogout], from any state and any storage, ends with the
    session unauthenticated, the role creator, the email empty and the
    page home, and with no value left under the token key, its older
    name, the cached user and the sign-up intents; the other keys keep
    what they held. *)
Theorem logout_resets (st : State) (ls : Storage) :
  let '(st', ls') := handleLogout st ls in
  isAuthenticated st' = false
  ∧ userRole st' = Role.creator
  ∧ userEmail st' = ""
  ∧ currentPage st' = Page.home
  ∧ getItem "jwt" ls' = None
  ∧ getItem "sharthi_token" ls' = None
  ∧ getItem "sharthi_user" ls' = None
  ∧ (∀ k, k ∈ identity_keys → getItem k ls' = None)
  ∧ (∀ k, k ∉ identity_keys → getItem k ls' = getItem k ls).
Proof.
  assert (Hgone : ∀ k, k ∈ identity_keys → (handleLogout st ls).2 !! k = None).
  { unfold handleLogout, removeItem, identity_keys. simpl. intros k Hk.
    repeat (apply elem_of_cons in Hk as [-> | Hk]; [by simplify_map_eq |]).
    by apply elem_of_nil in Hk. }
  unfold handleLogout, getItem, removeItem in *. simpl in *.
  repeat split; try (apply Hgone; unfold identity_keys; set_solver).
  unfold identity_keys. intros k Hk.
  repeat (rewrite lookup_delete_ne;
          [| intros <-; apply Hk; repeat constructor]).
  reflexivity.
Qed.

End Router.

(** ** Role mapping *)

Section Roles.

Lemma forall_ascii (P : ascii → bool) :
  forallb P all_ascii = true → ∀ c, P c = true.
Proof.
  intros H c. rewrite forallb_forall in H. apply H.
  unfold all_ascii. rewrite <- (ascii_nat_embedding c).
  apply in_map, in_seq. pose proof (nat_ascii_bounded c). lia.
Qed.

Lemma upper_ascii_eqb (c u : ascii) :
  is_upper_letter u = true →
  Ascii.eqb (upper_ascii c) u = Ascii.eqb c u || Ascii.eqb c (lower_ascii u).
Proof.
  set (law := fun u c =>
    implb (is_upper_letter u)
      (Bool.eqb (Ascii.eqb (upper_ascii c) u)
                (Ascii.eqb c u || Ascii.eqb c (lower_ascii u)))).
  assert (Hall : ∀ u, forallb (law u) all_ascii = true).
  { apply (forall_ascii (fun u => forallb (law u) all_ascii)).
    vm_compute. reflexivity. }
  intros Hu.
  pose proof (forall_ascii (law u) (Hall u) c) as H.
  unfold law in H. rewrite Hu in H. simpl in H.
  apply Bool.eqb_prop in H. exact H.
Qed.

Lemma toUpperCase_eqb (s word : string) :
  all_upper word = true →
  String.eqb (toUpperCase s) word = casing_of s word.
Proof.
  revert word. induction s as [| c s IH]; intros [| u word] Hw; simpl;
    try reflexivity.
  simpl in Hw. apply andb_true_iff in Hw as [Hu Hw].
  rewrite upper_ascii_eqb by exact Hu.
  destruct (Ascii.eqb c u || Ascii.eqb c (lower_ascii u)); simpl.
  - apply IH, Hw.
  - reflexivity.
Qed.

Lemma casing_of_nonempty (s word : string) :
  casing_of s word = true → word ≠ "" → String.eqb s "" = false.
Proof. destruct s, word; simpl; congruence. Qed.

(** The role of a string of code units below 256, and of what is not a
    string. *)
Lemma toUiRole_bytes (s : string) (u : json) :
  Auth.toUiRole (Some (JStr s)) =
    (if casing_of s "ORGANIZER" then Role.organizer
     else if casing_of s "ADMIN" then Role.admin
     else Role.creator)
  ∧ Auth.toUiRole None = Role.creator
  ∧ Auth.toUiRole (Some JNull) = Role.creator
  ∧ App.roleFromUser u = Auth.toUiRole (prop u "role").
Proof.
  split; [| repeat split].
  unfold Auth.toUiRole, or_else, truthy.
  destruct (String.eqb s "") eqn:Hs; simpl negb; cbv iota.
  - apply String.eqb_eq in Hs. subst s. reflexivity.
  - cbn [js_String].
    rewrite !toUpperCase_eqb by reflexivity. reflexivity.
Qed.

End Roles.

(** ** Role strings of any characters *)

Section UnicodeRoles.
Import Unicode.
Local Open Scope N_scope.

Example upper_point_examples :
  upper_point 97 = [65] ∧ upper_point 65 = [65] ∧ upper_point 48 = [48]
  ∧ upper_point 233 = [201] ∧ upper_point 223 = [83; 83]
  ∧ upper_point 305 = [73] ∧ upper_point 383 = [83]
  ∧ upper_point 64257 = [70; 73] ∧ upper_point 66600 = [66560]
  ∧ upper_point 55357 = [55357].
Proof. repeat split; vm_compute; reflexivity. Qed.

Lemma in_role_letters (u : N) :
  u ∈ role_letters →
  u = 65 ∨ u = 68 ∨ u = 69 ∨ u = 71 ∨ u = 73 ∨ u = 77 ∨ u = 78 ∨ u = 79
  ∨ u = 82 ∨ u = 90.
Proof.
  unfold role_letters. intros H.
  repeat (apply elem_of_cons in H as [-> | H]; [tauto |]).
  apply elem_of_nil in H. contradiction.
Qed.

(** No upper-case form of several code points is made of the letters of
    the two role names only. *)
Lemma special_upper_not_letters :
  forallb (fun e => existsb (fun d => negb (is_role_letter d)) (snd e))
    special_upper = true.
Proof. vm_compute. reflexivity. Qed.

Lemma simple_upper_ok : forallb simple_ok simple_upper = true.
Proof. vm_compute. reflexivity. Qed.

Lemma upper_point_letters (c : N) :
  Forall (fun d => d ∈ role_letters) (upper_point c) →
  ∃ u, upper_point c = [u] ∧ cased_dotless c u = true.
Proof.
  unfold upper_point.
  destruct (List.find (fun e => fst e =? c) special_upper) as [[c' l] |] eqn:Es.
  - intros Hall. exfalso.
    apply find_some in Es as [Hin _].
    pose proof special_upper_not_letters as Hno.
    rewrite forallb_forall in Hno. specialize (Hno _ Hin). simpl in Hno.
    apply existsb_exists in Hno as (d & Hd & Hneg).
    rewrite Forall_forall in Hall.
    apply list_elem_of_In in Hd. specialize (Hall d Hd).
    unfold is_role_letter in Hneg. rewrite bool_decide_eq_true_2 in Hneg by exact Hall.
    discriminate Hneg.
  - destruct (List.find (covers c) simple_upper)
      as [[[[first last] step] target] |] eqn:E.
    + intros Hall. apply Forall_cons in Hall as [Hu _].
      eexists. split; [reflexivity |].
      apply find_some in E as [Hin Hc].
      pose proof simple_upper_ok as Hok. rewrite forallb_forall in Hok.
      specialize (Hok _ Hin). unfold simple_ok in Hok. unfold covers in Hc.
      apply andb_true_iff in Hc as [Hc _]. apply andb_true_iff in Hc as [H1 H2].
      apply N.leb_le in H1, H2.
      apply in_role_letters in Hu.
      unfold cased_dotless, cased.
      repeat (apply orb_true_iff in Hok as [Hok | Hok]).
      * apply N.ltb_lt in Hok. lia.
      * apply andb_true_iff in Hok as [Hok H5]. apply andb_true_iff in Hok as [H3 H4].
        apply N.eqb_eq in H3, H4, H5. subst first last target.
        replace (65 + (c - 97) + 32) with c by lia.
        rewrite N.eqb_refl. rewrite orb_true_r. reflexivity.
      * apply andb_true_iff in Hok as [Hok H5]. apply andb_true_iff in Hok as [H3 H4].
        apply N.eqb_eq in H3, H4, H5. subst first last target.
        assert (c = 305) as -> by lia. reflexivity.
      * apply andb_true_iff in Hok as [Hok H5]. apply andb_true_iff in Hok as [H3 H4].
        apply N.eqb_eq in H3, H4, H5. subst first last target. lia.
    + intros _. exists c. split; [reflexivity |].
      unfold cased_dotless, cased. rewrite N.eqb_refl. reflexivity.
Qed.

Lemma cased_upper_point (c u : N) :
  u ∈ role_letters → cased_dotless c u = true → upper_point c = [u].
Proof.
  intros Hu Hc. apply in_role_letters in Hu.
  unfold cased_dotless, cased in Hc.
  apply orb_true_iff in Hc as [Hc | Hc];
    [apply orb_true_iff in Hc as [Hc | Hc]; apply N.eqb_eq in Hc; subst c
    | apply andb_true_iff in Hc as [H1 H2]; apply N.eqb_eq in H1, H2; subst c u];
    try reflexivity;
    repeat (destruct Hu as [-> | Hu]; [vm_compute; reflexivity |]);
    subst u; vm_compute; reflexivity.
Qed.

Lemma toUpperCase_letters (s w : text) :
  Forall (fun d => d ∈ role_letters) w →
  toUpperCase s = w ↔ casing_of_dotless s w = true.
Proof.
  revert w. induction s as [| c s IH]; intros w Hw.
  - destruct w; simpl; split; intros H; try reflexivity; discriminate H.
  - change (toUpperCase (c :: s)) with (upper_point c ++ toUpperCase s)%list.
    split.
    + intros H. rewrite <- H in Hw. apply Forall_app in Hw as [Hc Hs].
      destruct (upper_point_letters c Hc) as (u & Eu & Hcu).
      rewrite Eu in H. subst w. simpl. rewrite Hcu. simpl.
      apply IH; [exact Hs | reflexivity].
    + destruct w as [| u w]; [discriminate |]. simpl. intros H.
      apply andb_true_iff in H as [Hcu Hs].
      apply Forall_cons in Hw as [Hu Hw].
      rewrite (cased_upper_point c u Hu Hcu). simpl. f_equal.
      apply IH; assumption.
Qed.

Lemma upper_eq_casing (s w : text) :
  Forall (fun d => d ∈ role_letters) w →
  bool_decide (toUpperCase s = w) = casing_of_dotless s w.
Proof.
  intros Hw. pose proof (toUpperCase_letters s w Hw) as H.
  destruct (casing_of_dotless s w).
  - apply bool_decide_eq_true_2, H. reflexivity.
  - apply bool_decide_eq_false_2. intros E. apply H in E. discriminate E.
Qed.

Lemma organizer_letters :
  Forall (fun d => d ∈ role_letters) (of_string "ORGANIZER").
Proof. apply (bool_decide_unpack _). vm_compute. exact I. Qed.

Lemma admin_letters :
  Forall (fun d => d ∈ role_letters) (of_string "ADMIN").
Proof. apply (bool_decide_unpack _). vm_compute. exact I. Qed.

Lemma toUiRole_casing (raw : option text) :
  toUiRole raw =
    match raw with
    | Some s =>
        if casing_of_dotless s (of_string "ORGANIZER") then Role.organizer
        else if casing_of_dotless s (of_string "ADMIN") then Role.admin
        else Role.creator
    | None => Role.creator
    end.
Proof.
  destruct raw as [[| c s] |]; try reflexivity.
  unfold toUiRole, upperRole.
  rewrite (upper_eq_casing _ _ organizer_letters),
    (upper_eq_casing _ _ admin_letters). reflexivity.
Qed.

Lemma casing_without_dotless (s w : text) :
  305 ∉ s → casing_of_dotless s w = casing_of s w.
Proof.
  revert w. induction s as [| c s IH]; intros [| u w] H; try reflexivity.
  apply not_elem_of_cons in H as [Hc Hs]. simpl. rewrite (IH w Hs).
  unfold cased_dotless. apply N.eqb_neq in Hc.
  rewrite N.eqb_sym in Hc. rewrite Hc. simpl. rewrite orb_false_r. reflexivity.
Qed.

Lemma cased_ascii (c u : ascii) :
  is_upper_letter u = true →
  cased_dotless (N_of_ascii c) (N_of_ascii u)
  = Ascii.eqb c u || Ascii.eqb c (lower_ascii u).
Proof.
  set (law := fun u c =>
    implb (is_upper_letter u)
      (Bool.eqb (cased_dotless (N_of_ascii c) (N_of_ascii u))
                (Ascii.eqb c u || Ascii.eqb c (lower_ascii u)))).
  assert (Hall : ∀ u, forallb (law u) all_ascii = true).
  { apply (forall_ascii (fun u => forallb (law u) all_ascii)).
    vm_compute. reflexivity. }
  intros Hu.
  pose proof (forall_ascii (law u) (Hall u) c) as H.
  unfold law in H. rewrite Hu in H. simpl in H.
  apply Bool.eqb_prop in H. exact H.
Qed.

Lemma casing_of_string (s word : string) :
  all_upper word = true →
  casing_of_dotless (of_string s) (of_string word) = JS.casing_of s word.
Proof.
  revert word. induction s as [| c s IH]; intros [| u word] Hw;
    try reflexivity.
  simpl in Hw. apply andb_true_iff in Hw as [Hu Hw]. simpl.
  rewrite (cased_ascii c u Hu), (IH word Hw). reflexivity.
Qed.


Example unicode_role_examples :
  toUiRole (Some (of_string "Organizer")) = Role.organizer
  ∧ toUiRole (Some (of_string "aDmIn")) = Role.admin
  ∧ toUiRole (Some (of_string "moderator")) = Role.creator
  ∧ toUiRole (Some [1072; 1076; 1084; 1080; 1085]) = Role.creator
  ∧ toUiRole (Some [97; 100; 109; 304; 110]) = Role.creator
  ∧ toUiRole (Some []) = Role.creator
  ∧ toUiRole None = Role.creator.
Proof. repeat split; vm_compute; reflexivity. Qed.

(** C8, the claim as stated fails: the string a, d, m, dotless i
    (U+0131), n is a casing neither of ADMIN nor of ORGANIZER, and both
    mappings give admin for it, since the upper-case form of the dotless
    i is I. *)
Lemma role_mapping_dotless_i :
  casing_of dotless_admin (of_string "ADMIN") = false
  ∧ casing_of dotless_admin (of_string "ORGANIZER") = false
  ∧ toUpperCase dotless_admin = of_string "ADMIN"
  ∧ toUiRole (Some dotless_admin) = Role.admin
  ∧ meRole (Some dotless_admin) = Role.admin.
Proof. repeat split; vm_compute; reflexivity. Qed.

(** C8, amended. A role string of the backend, of any characters, is
    mapped onto creator, organizer or admin by comparing its upper-case
    form with ORGANIZER and ADMIN. A string that spells ORGANIZER in any
    casing gives organizer and one that spells ADMIN in any casing gives
    admin, where a dotless small i (U+0131) also counts as a casing of
    the I; every other string gives creator, and so does a missing role.
    A string without a dotless i is mapped by its plain casing alone. The
    auto-login maps the role of the user in the same way. On the strings
    of code units below 256 and on what is not a string, [toUiRole] and
    the mapping of [meFromToken] as the rest of this development has them
    give the same role. *)
Theorem role_mapping (raw : option text) (s : string) (u : json) :
  toUiRole raw =
    match raw with
    | Some t =>
        if casing_of_dotless t (of_string "ORGANIZER") then Role.organizer
        else if casing_of_dotless t (of_string "ADMIN") then Role.admin
        else Role.creator
    | None => Role.creator
    end
  ∧ meRole raw = toUiRole raw
  ∧ (∀ t, raw = Some t → 305 ∉ t →
       toUiRole raw =
         (if casing_of t (of_string "ORGANIZER") then Role.organizer
          else if casing_of t (of_string "ADMIN") then Role.admin
          else Role.creator))
  ∧ Auth.toUiRole (Some (JStr s)) = toUiRole (Some (of_string s))
  ∧ Auth.toUiRole None = toUiRole None
  ∧ Auth.toUiRole (Some JNull) = Role.creator
  ∧ App.roleFromUser u = Auth.toUiRole (prop u "role").
Proof.
  split; [apply toUiRole_casing |]. split; [reflexivity |].
  split; [| split; [| repeat split]].
  - intros t -> Ht. rewrite toUiRole_casing.
    rewrite !casing_without_dotless by exact Ht. reflexivity.
  - rewrite toUiRole_casing, !casing_of_string by reflexivity.
    apply (toUiRole_bytes s u).
Qed.

End UnicodeRoles.

(** ** Restoring the session *)

Section Restore.
Import App.

Example role_examples :
  Auth.toUiRole (Some (JStr "Organizer")) = Role.organizer
  ∧ Auth.toUiRole (Some (JStr "aDmIn")) = Role.admin
  ∧ Auth.toUiRole (Some (JStr "CREATOR")) = Role.creator
  ∧ Auth.toUiRole (Some (JStr "moderator")) = Role.creator
  ∧ Auth.toUiRole (Some (JStr "ADMINS")) = Role.creator.
Proof. repeat split; reflexivity. Qed.

Lemma getToken_None (ls : Storage) :
  getToken ls = None ↔
  item_truthy (getItem "jwt" ls) = false
  ∧ item_truthy (getItem "sharthi_token" ls) = false.
Proof.
  unfold getToken.
  destruct (item_truthy (getItem "jwt" ls)) eqn:H1.
  - split; [| intros [? _]; discriminate].
    intros H. rewrite H in H1. discriminate.
  - destruct (item_truthy (getItem "sharthi_token" ls)) eqn:H2.
    + split; [| intros [_ ?]; discriminate].
      intros H. rewrite H in H2. discriminate.
    + tauto.
Qed.

Lemma meFromToken_Some (ls : Storage) (net : fetched) :
  is_Some (meFromToken ls net) ↔
  getToken ls ≠ None ∧ ∃ u, u ≠ JNull ∧ net = Response true (Some u).
Proof.
  unfold meFromToken. destruct (getToken ls) as [tok |].
  - destruct net as [| [] [[] |]]; simpl;
      (split; [intros [x Hx]; try discriminate Hx | intros [_ (u & Hu & E)]]);
      try (inversion E; subst; congruence);
      try (split; [congruence | eexists; split; [| reflexivity]; congruence]);
      eauto.
  - split; [intros [x Hx]; discriminate | intros [H _]; congruence].
Qed.

(** C7. The auto-login never opens a session on a failure. From an
    anonymous state, when no token is stored under either key, when the
    identity request rejects, when its status is not a success, or when
    its body is not JSON (or is [null]), the state is left as it was:
    unauthenticated, role creator. The session becomes authenticated
    exactly when a token is stored and the request answers with a success
    status and a parsed body. *)
Theorem restoreSession_fails_closed (ls : Storage) (net : fetched) (st : State) :
  isAuthenticated st = false →
  userRole st = Role.creator →
  ((item_truthy (getItem "jwt" ls) = false
    ∧ item_truthy (getItem "sharthi_token" ls) = false)
   ∨ net = Rejected
   ∨ (∃ body, net = Response false body)
   ∨ (∃ ok, net = Response ok None)
   ∨ (∃ ok, net = Response ok (Some JNull)) →
     restoreSession ls net st = st
     ∧ isAuthenticated (restoreSession ls net st) = false
     ∧ userRole (restoreSession ls net st) = Role.creator)
  ∧ (isAuthenticated (restoreSession ls net st) = true ↔
     getToken ls ≠ None ∧ ∃ u, u ≠ JNull ∧ net = Response true (Some u)).
Proof.
  intros Hanon Hrole.
  assert (Hiff : isAuthenticated (restoreSession ls net st) = true ↔
                 is_Some (meFromToken ls net)).
  { unfold restoreSession. destruct (meFromToken ls net) as [[r e] |]; simpl.
    - split; eauto.
    - rewrite Hanon. split; [discriminate | intros [x Hx]; discriminate]. }
  split.
  - intros Hfail.
    assert (Hnone : meFromToken ls net = None).
    { destruct (meFromToken ls net) as [p |] eqn:E; [| reflexivity].
      exfalso.
      assert (Hs : is_Some (meFromToken ls net)) by (rewrite E; eauto).
      apply meFromToken_Some in Hs as [Htok (u & Hu & Hnet)].
      destruct Hfail as [Hno | [-> | [[b ->] | [[ok ->] | [ok ->]]]]];
        try discriminate Hnet.
      - apply Htok, getToken_None, Hno.
      - inversion Hnet; congruence. }
    unfold restoreSession. rewrite Hnone. auto.
  - rewrite Hiff. apply meFromToken_Some.
Qed.

Lemma restoreSession_fails_closed_witness :
  restoreSession ∅ (Response true (Some (JObj [("role", JStr "ADMIN")]))) initial
    = initial
  ∧ isAuthenticated
      (restoreSession ∅ (Response true (Some (JObj [("role", JStr "ADMIN")])))
         initial) = false
  ∧ userRole
      (restoreSession ∅ (Response true (Some (JObj [("role", JStr "ADMIN")])))
         initial) = Role.creator.
Proof.
  apply (restoreSession_fails_closed ∅
           (Response true (Some (JObj [("role", JStr "ADMIN")]))) initial);
    [reflexivity | reflexivity |].
  left. split; reflexivity.
Defined.

Example restoreSession_success :
  restoreSession {[ "jwt" := Text "t0k" ]}
    (Response true
       (Some (JObj [("role", JStr "ORGANIZER"); ("email", JStr "o@x.in")])))
    initial
  = {| currentPage := Page.home; userRole := Role.organizer;
       selectedEventId := None; isAuthenticated := true;
       showAuth := false; userEmail := "o@x.in" |}.
Proof. reflexivity. Qed.

End Restore.

(** ** EventDetail *)

Section Event.
Import EventDetail.

Lemma existsb_no_match (s : string) (list : list EventMeta) :
  (∀ e, e ∈ list → event_id e ≠ s) →
  existsb (fun e => String.eqb (event_id e) s) list = false.
Proof.
  induction list as [| e l IH]; intros H; simpl; [reflexivity |].
  rewrite IH by (intros e' He'; apply H; right; exact He').
  destruct (String.eqb_spec (event_id e) s) as [E | _]; [| reflexivity].
  exfalso. apply (H e); [left | exact E].
Qed.

Lemma isRealId_spec (s : string) :
  isRealId (Some s) = true ↔
  (24 ≤ String.length s)%nat ∧ all_alnum s = true.
Proof.
  unfold isRealId, alnum_test.
  rewrite !andb_true_iff, !negb_true_iff, Nat.leb_le. split.
  - tauto.
  - intros [Hlen Hal].
    assert (String.eqb s "" = false) by (destruct s; [simpl in Hlen; lia | reflexivity]).
    tauto.
Qed.

(** C10. When the id handed to EventDetail does not look like a real id
    (it is missing, shorter than 24 characters or not alphanumeric) or is
    the id of no event of the fetched list, the effect resolves to the
    first event of the list, with its id and its record, and reports
    nothing; it reports an error and goes back exactly when the fetched
    list is empty. *)
Theorem resolveEvent_falls_back (eventId : option string) (list : list EventMeta) :
  (isRealId eventId = false
   ∨ (∀ s, eventId = Some s → ∀ e, e ∈ list → event_id e ≠ s) →
     resolveEvent eventId list =
       match list with
       | e :: _ => Resolved (event_id e) (Some e)
       | [] => NoEvents
       end)
  ∧ (resolveEvent eventId list = NoEvents ↔ list = [])
  ∧ isRealId None = false
  ∧ (∀ s, (String.length s < 24)%nat ∨ all_alnum s = false →
          isRealId (Some s) = false).
Proof.
  assert (Hhead : ∀ e l, find_event (event_id e) (e :: l) = Some e).
  { intros e l. unfold find_event. simpl. rewrite String.eqb_refl. reflexivity. }
  repeat split.
  - intros Hbad. unfold resolveEvent.
    assert (Hfb : match eventId with
                  | Some s =>
                      isRealId eventId
                      && existsb (fun e => String.eqb (event_id e) s) list
                  | None => false
                  end = false).
    { destruct eventId as [s |]; [| reflexivity].
      destruct Hbad as [-> | Hno]; [reflexivity |].
      rewrite (existsb_no_match s list) by (apply Hno; reflexivity).
      apply andb_false_r. }
    destruct eventId as [s |].
    + rewrite Hfb. destruct list as [| e l]; [reflexivity |].
      rewrite Hhead. reflexivity.
    + destruct list as [| e l]; [reflexivity |]. rewrite Hhead. reflexivity.
  - unfold resolveEvent. intros H. destruct list as [| e l]; [reflexivity |].
    destruct eventId as [s |]; [| discriminate H].
    destruct (isRealId (Some s) && existsb _ (e :: l)); discriminate H.
  - intros ->. unfold resolveEvent. destruct eventId as [s |]; [| reflexivity].
    simpl. rewrite andb_false_r. reflexivity.
  - intros s Hs. destruct (isRealId (Some s)) eqn:E; [| reflexivity].
    apply isRealId_spec in E as [Hlen Hal].
    destruct Hs as [Hs | Hs]; [lia | congruence].
Qed.

Lemma resolveEvent_falls_back_witness :
  resolveEvent (Some "1")
    [mkEventMeta "clx0000000000000000000001" "Diwali Mela" "Delhi" "" "";
     mkEventMeta "clx0000000000000000000002" "Craft Bazaar" "Mumbai" "" ""]
  = Resolved "clx0000000000000000000001"
      (Some (mkEventMeta "clx0000000000000000000001" "Diwali Mela" "Delhi" "" "")).
Proof.
  apply (resolveEvent_falls_back (Some "1")
           [mkEventMeta "clx0000000000000000000001" "Diwali Mela" "Delhi" "" "";
            mkEventMeta "clx0000000000000000000002" "Craft Bazaar" "Mumbai" "" ""]).
  left. reflexivity.
Defined.

Example resolveEvent_known_id :
  resolveEvent (Some "clx0000000000000000000002")
    [mkEventMeta "clx0000000000000000000001" "Diwali Mela" "Delhi" "" "";
     mkEventMeta "clx0000000000000000000002" "Craft Bazaar" "Mumbai" "" ""]
  = Resolved "clx0000000000000000000002"
      (Some (mkEventMeta "clx0000000000000000000002" "Craft Bazaar" "Mumbai" "" "")).
Proof. reflexivity. Qed.

End Event.

(** ** Tier cards *)

Section Tiers.
Import EventDetail.

Lemma byTier_snoc (stalls : list Stall) (s : Stall) :
  byTier (stalls ++ [s]) =
    <[tierKey s := (default [] (byTier stalls !! tierKey s) ++ [s])%list]>
      (byTier stalls).
Proof. unfold byTier. rewrite foldl_app. reflexivity. Qed.

(** The group of a key holds the stalls of that key, in their order. *)
Lemma byTier_group (stalls : list Stall) (key : string) :
  default [] (byTier stalls !! key) = filter (fun s => tierKey s = key) stalls.
Proof.
  induction stalls as [| s stalls IH] using rev_ind; [reflexivity |].
  rewrite byTier_snoc, filter_app.
  destruct (decide (tierKey s = key)) as [E | NE].
  - rewrite E, lookup_insert_eq. simpl. rewrite IH.
    rewrite filter_cons_True by exact E. reflexivity.
  - rewrite lookup_insert_ne by exact NE. rewrite IH.
    rewrite filter_cons_False by exact NE. rewrite filter_nil, app_nil_r.
    reflexivity.
Qed.

Lemma byTier_nil : byTier [] = ∅.
Proof. reflexivity. Qed.

Lemma sum_by_acc (f : Stall → Z) (arr : list Stall) (t : Z) :
  foldl (fun t s => (t + num_or (f s) 0)%Z) t arr = (t + sum_of f arr)%Z.
Proof.
  revert t. induction arr as [| s arr IH]; intros t; simpl; [lia |].
  rewrite IH. unfold num_or. destruct (Z.eqb_spec (f s) 0); lia.
Qed.

Lemma sum_by_sum_of (f : Stall → Z) (arr : list Stall) :
  sum_by f arr = sum_of f arr.
Proof. unfold sum_by. rewrite sum_by_acc. lia. Qed.

Lemma mkCard_sums (stalls : list Stall) (key label : string)
    (features : list string) (popular : bool) :
  let c := mkCard (byTier stalls) key label features popular in
  card_available c =
    sum_of stall_qtyLeft (filter (fun s => tierKey s = key) stalls)
  ∧ card_total c =
    sum_of stall_qtyTotal (filter (fun s => tierKey s = key) stalls)
  ∧ card_sampleStallId c =
    match filter (fun s => tierKey s = key) stalls with
    | s :: _ => if String.eqb (stall_id s) "" then None else Some (stall_id s)
    | [] => None
    end.
Proof.
  simpl. rewrite !sum_by_sum_of, byTier_group. repeat split; reflexivity.
Qed.

Lemma disabled_spec (c : TierCard) :
  disabled c = true ↔ (0 < card_total c)%Z ∧ (card_available c <= 0)%Z.
Proof. unfold disabled. rewrite andb_true_iff, Z.ltb_lt, Z.leb_le. tauto. Qed.

(** C5, the claim as stated fails: the GOLD card built from a stall with
    [qtyTotal = 0] and [qtyLeft = 0] reports nothing left, yet selecting
    it stores a draft and raises no notice. *)
Lemma select_unquantified_tier :
  ∃ c : TierCard,
    c ∈ tierCards unquantified
    ∧ card_available c = 0%Z
    ∧ getItem "sharthi_booking_draft" ∅ = None
    ∧ getItem "sharthi_booking_draft" (onSelectTier (Some "E1") c ∅).1.1
      = Some (DraftJson (mkDraft "E1" "S1" "VIP" 10000))
    ∧ ToastInfo ∉ (onSelectTier (Some "E1") c ∅).1.2.
Proof.
  exists (mkCard (byTier unquantified) "GOLD" "VIP"
            ["VIP Setup"; "Premium Electricity"; "Full Furniture";
             "Prime Location"; "Dedicated Support"] false).
  split; [| repeat split].
  - unfold tierCards. apply list_elem_of_lookup. exists 2%nat. reflexivity.
  - intros H. vm_compute in H. inversion H.
Qed.

Example select_unquantified_result :
  ∃ gold, tierCards unquantified !! 2%nat = Some gold
    ∧ card_available gold = 0%Z ∧ card_total gold = 0%Z
    ∧ disabled gold = false
    ∧ getItem "sharthi_booking_draft" (onSelectTier (Some "E1") gold ∅).1.1
      = Some (DraftJson (mkDraft "E1" "S1" "VIP" 10000))
    ∧ (onSelectTier (Some "E1") gold ∅).1.2 = []
    ∧ (onSelectTier (Some "E1") gold ∅).2 = true.
Proof. eexists. split; [reflexivity |]. repeat split; reflexivity. Qed.

(** C5, amended. Each of the three cards reports as available the sum of
    [qtyLeft] and as total the sum of [qtyTotal] over the stalls grouped
    under its tier; the button is disabled, and labelled sold out,
    exactly when total > 0 and available <= 0; with the event resolved,
    selecting a card that is sold out or has no stall to book (its tier
    is empty, or the first stall of the tier has no id) leaves the storage
    as it is and raises an info notice, and selecting any other card
    stores the draft and opens the booking; for the stalls of the example
    the GOLD card reports 2 of 5 and is not disabled. *)
Theorem tier_cards_selection (stalls : list Stall) (c : TierCard)
    (eid : string) (ls : Storage) :
  Forall2
    (fun key card =>
       card_available card =
         sum_of stall_qtyLeft (filter (fun s => tierKey s = key) stalls)
       ∧ card_total card =
         sum_of stall_qtyTotal (filter (fun s => tierKey s = key) stalls)
       ∧ card_sampleStallId card =
         match filter (fun s => tierKey s = key) stalls with
         | s :: _ =>
             if String.eqb (stall_id s) "" then None else Some (stall_id s)
         | [] => None
         end)
    ["BRONZE"; "SILVER"; "GOLD"] (tierCards stalls)
  ∧ (disabled c = true ↔ (0 < card_total c)%Z ∧ (card_available c <= 0)%Z)
  ∧ (buttonLabel c = "Sold Out" ↔ disabled c = true)
  ∧ onSelectTier (Some eid) c ls =
      (if disabled c || bool_decide (card_sampleStallId c = None)
       then (ls, [ToastInfo], false)
       else
         (setItem "sharthi_booking_draft"
            (DraftJson
               {| draft_eventId := eid;
                  draft_stallId := default "" (card_sampleStallId c);
                  draft_tier := card_name c;
                  draft_price := card_price c |}) ls,
          [], true))
  ∧ (∃ gold, tierCards gold_example !! 2%nat = Some gold
             ∧ card_name gold = "VIP"
             ∧ card_available gold = 2%Z
             ∧ card_total gold = 5%Z
             ∧ disabled gold = false).
Proof.
  split; [| split; [| split; [| split]]].
  - unfold tierCards. repeat constructor; apply mkCard_sums.
  - apply disabled_spec.
  - unfold buttonLabel, disabled.
    destruct ((0 <? card_total c)%Z && (card_available c <=? 0)%Z);
      split; intros H; try reflexivity; discriminate H.
  - unfold onSelectTier, disabled.
    destruct (card_sampleStallId c) as [sid |]; simpl.
    + rewrite orb_false_r.
      destruct ((0 <? card_total c)%Z && (card_available c <=? 0)%Z);
        reflexivity.
    + rewrite orb_true_r. reflexivity.
  - eexists. split; [reflexivity |]. repeat split; reflexivity.
Qed.

End Tiers.

(** ** Rates *)

Section Binary64.
Import Num.
Local Open Scope Z_scope.

Lemma shr_1_nonneg mrs : 0 <= shr_m mrs → 0 <= shr_m (shr_1 mrs).
Proof.
  destruct mrs as [m r s]. simpl. destruct m as [| [p | p |] | p]; simpl; lia.
Qed.

Lemma iter_pos_nonneg (p : positive) mrs :
  0 <= shr_m mrs → 0 <= shr_m (SpecFloat.iter_pos shr_1 p mrs).
Proof.
  revert mrs. induction p as [p IH | p IH |]; intros mrs H; simpl.
  - apply IH, IH, shr_1_nonneg, H.
  - apply IH, IH, H.
  - apply shr_1_nonneg, H.
Qed.

Lemma shr_fexp_nonneg m e l :
  0 <= m → 0 <= shr_m (shr_fexp prec emax m e l).1.
Proof.
  intros H. unfold shr_fexp, shr.
  assert (H0 : 0 <= shr_m (shr_record_of_loc m l))
    by (destruct l as [| []]; exact H).
  destruct (fexp prec emax (Zdigits2 m + e) - e); simpl;
    [exact H0 | apply iter_pos_nonneg, H0 | exact H0].
Qed.

Lemma round_nearest_even_nonneg m l : 0 <= m → 0 <= round_nearest_even m l.
Proof.
  intros H. unfold round_nearest_even.
  destruct l as [| []]; try destruct (Z.even m); lia.
Qed.

(** Rounding a mantissa that is not negative never gives [NaN]. *)
Lemma binary_round_aux_not_nan s m e l :
  0 <= m → is_nan (binary_round_aux prec emax s m e l) = false.
Proof.
  intros H. unfold binary_round_aux.
  pose proof (shr_fexp_nonneg m e l H) as H1.
  destruct (shr_fexp prec emax m e l) as [mrs' e']. simpl in H1.
  pose proof (shr_fexp_nonneg _ e' loc_Exact
                (round_nearest_even_nonneg _ (loc_of_shr_record mrs') H1)) as H2.
  destruct (shr_fexp prec emax _ e' loc_Exact) as [mrs'' e'']. simpl in H2.
  destruct (shr_m mrs'') as [| q | q]; [reflexivity | | lia].
  destruct (e'' <=? emax - prec); reflexivity.
Qed.

Lemma binary_round_aux_sign (sx : bool) (m e : Z) (l : location) :
  0 <= m →
  match binary_round_aux Num.prec Num.emax sx m e l with
  | S754_zero s' | S754_infinity s' | S754_finite s' _ _ => s' = sx
  | S754_nan => False
  end.
Proof.
  intros H. unfold binary_round_aux.
  pose proof (shr_fexp_nonneg m e l H) as H1.
  destruct (shr_fexp Num.prec Num.emax m e l) as [mrs' e']. simpl in H1.
  pose proof (shr_fexp_nonneg _ e' loc_Exact
                (round_nearest_even_nonneg _ (loc_of_shr_record mrs') H1)) as H2.
  destruct (shr_fexp Num.prec Num.emax _ e' loc_Exact) as [mrs'' e''].
  simpl in H2.
  destruct (shr_m mrs'') as [| q | q]; [reflexivity | | lia].
  destruct (e'' <=? Num.emax - Num.prec); reflexivity.
Qed.

Lemma of_Z_not_nan z : is_nan (of_Z z) = false.
Proof.
  unfold of_Z, binary_normalize, binary_round.
  destruct z as [| p | p]; [reflexivity | |];
    destruct (shl_align _ _ _) as [mz ez]; apply binary_round_aux_not_nan; lia.
Qed.

Lemma digits2_pos_iter (p k : positive) :
  digits2_pos (Pos.iter xO p k) = (digits2_pos p + k)%positive.
Proof.
  induction k as [| k IH] using Pos.peano_ind.
  - simpl. lia.
  - rewrite Pos.iter_succ. simpl. rewrite IH. lia.
Qed.

Lemma digits2_pos_size (p : positive) : digits2_pos p = Pos.size p.
Proof. induction p; simpl; congruence. Qed.

Lemma digits2_pos_bound (p : positive) :
  Zpos p < 2 ^ 53 → Zpos (digits2_pos p) <= 53.
Proof.
  intros H. rewrite digits2_pos_size.
  pose proof (Pos.size_le p) as Hs.
  assert (Hz : 2 ^ Zpos (Pos.size p) <= 2 * Zpos p).
  { rewrite <- Pos2Z.inj_pow. change (2 * Zpos p) with (Zpos p~0). lia. }
  destruct (Z.le_gt_cases (Zpos (Pos.size p)) 53) as [Hle | Hgt]; [exact Hle |].
  exfalso.
  assert (2 ^ 54 <= 2 ^ Zpos (Pos.size p)) by (apply Z.pow_le_mono_r; lia).
  change (2 ^ 54) with (2 * 2 ^ 53) in *. lia.
Qed.

(** A mantissa of 53 bits with an exponent in range is kept as it is. *)
Lemma binary_round_aux_canonical s (m : positive) e :
  Zpos (digits2_pos m) = 53 → -1074 <= e <= 971 →
  binary_round_aux prec emax s (Zpos m) e loc_Exact = S754_finite s m e.
Proof.
  intros Hd He.
  assert (Hshift : shr_fexp prec emax (Zpos m) e loc_Exact
                   = ({| shr_m := Zpos m; shr_r := false; shr_s := false |}, e)).
  { unfold shr_fexp, fexp, SpecFloat.emin, prec, emax. cbn [Zdigits2].
    rewrite Hd.
    replace (Z.max (53 + e - 53) (3 - 1024 - 53) - e) with 0 by lia.
    reflexivity. }
  unfold binary_round_aux. rewrite Hshift.
  cbn [shr_m loc_of_shr_record round_nearest_even].
  rewrite Hshift. cbn [shr_m].
  unfold emax, prec. destruct (Z.leb_spec e (1024 - 53)); [reflexivity | lia].
Qed.

(** A positive integer below [2 ^ 53] is a finite, nonzero number. *)
Lemma of_Z_positive (z : Z) :
  0 < z < 2 ^ 53 → ∃ m e, of_Z z = S754_finite false m e.
Proof.
  intros [Hpos Hlt]. destruct z as [| p | p]; try lia.
  pose proof (digits2_pos_bound p Hlt) as Hd.
  unfold of_Z, binary_normalize, binary_round, shl_align, fexp,
    SpecFloat.emin, prec, emax.
  replace (Z.max (Zpos (digits2_pos p) + 0 - 53) (3 - 1024 - 53))
    with (Zpos (digits2_pos p) - 53) by lia.
  destruct (Zpos (digits2_pos p) - 53 - 0) as [| k | k] eqn:Ek; try lia.
  - eexists _, _. apply binary_round_aux_canonical; lia.
  - eexists _, _. apply binary_round_aux_canonical.
    + rewrite digits2_pos_iter. lia.
    + lia.
Qed.

Lemma div_core_nonneg (m1 m2 : positive) e1 e2 :
  0 <= (SFdiv_core_binary prec emax (Zpos m1) e1 (Zpos m2) e2).1.1.
Proof.
  unfold SFdiv_core_binary.
  set (sh := e1 - e2 - _).
  set (m' := match sh with
             | Z0 => Zpos m1
             | Zpos _ => Z.shiftl (Zpos m1) sh
             | Zneg _ => 0
             end).
  assert (Hm : 0 <= m').
  { subst m'. destruct sh; try lia. apply Z.shiftl_nonneg. lia. }
  pose proof (Z.div_pos m' (Zpos m2) Hm ltac:(lia)) as Hq.
  unfold Z.div in Hq. destruct (Z.div_eucl m' (Zpos m2)) as [q r]. exact Hq.
Qed.

Lemma div_not_nan (x : t) s m e :
  is_nan x = false → is_nan (div x (S754_finite s m e)) = false.
Proof.
  intros Hx. unfold div, SFdiv. destruct x as [sx | sx | | sx mx ex];
    try reflexivity; try discriminate Hx.
  pose proof (div_core_nonneg mx m ex e) as Hq.
  destruct (SFdiv_core_binary prec emax (Zpos mx) ex (Zpos m) e) as [[mz ez] lz].
  apply binary_round_aux_not_nan. exact Hq.
Qed.

Lemma mul_not_nan (x : t) s m e :
  is_nan x = false → is_nan (mul x (S754_finite s m e)) = false.
Proof.
  intros Hx. unfold mul, SFmul. destruct x as [sx | sx | | sx mx ex];
    try reflexivity; try discriminate Hx.
  apply binary_round_aux_not_nan. lia.
Qed.

Lemma round_not_nan (x : t) : is_nan x = false → is_nan (round x) = false.
Proof.
  intros Hx. unfold round. destruct x as [sx | sx | | sx mx [| k | k]];
    try exact Hx. apply of_Z_not_nan.
Qed.

Lemma max_not_nan (a b : t) :
  is_nan a = false → is_nan b = false → is_nan (max a b) = false.
Proof.
  intros Ha Hb. unfold max.
  destruct (SFcompare a b) as [[] |] eqn:E; try assumption.
  destruct a, b; simpl in *; try discriminate; destruct s; try discriminate;
    try destruct s0; discriminate.
Qed.

(** The quotient of two integers by a positive one below [2 ^ 53], times
    100, is never [NaN]. *)
Lemma ratio_not_nan (n d : Z) :
  0 < d < 2 ^ 53 →
  is_nan (mul (div (of_Z n) (of_Z d)) (of_Z 100)) = false.
Proof.
  intros Hd. destruct (of_Z_positive d Hd) as (m & e & ->).
  change (of_Z 100) with (S754_finite false 7036874417766400 (-46)).
  apply mul_not_nan, div_not_nan, of_Z_not_nan.
Qed.

(** The model computes what the primitive binary64 numbers of the kernel
    compute. *)
Example binary64_agrees :
  Prim2SF (29 / 200 * 100)%float
  = mul (div (of_Z 29) (of_Z 200)) (of_Z 100)
  ∧ Prim2SF (100 * 29 / 200)%float
    = div (mul (of_Z 100) (of_Z 29)) (of_Z 200)
  ∧ Prim2SF 14%float = of_Z 14
  ∧ Prim2SF 15%float = of_Z 15.
Proof. repeat split; vm_compute; reflexivity. Qed.

End Binary64.

Section Rates.
Import AdminDashboard.

Lemma count_paid_step (c : Counts) (b : Booking) :
  (paidCount c <= paidCount (count c b) <= paidCount c + 1)%Z.
Proof.
  unfold count.
  destruct (String.eqb (booking_status b) "paid"); simpl; [lia |].
  destruct (String.eqb (booking_status b) "pending"); simpl; [lia |].
  destruct (String.eqb (booking_status b) "cancelled"); simpl; lia.
Qed.

Lemma counts_paid_bounds (bookings : list Booking) :
  (0 <= paidCount (counts bookings) <= totalBookings bookings)%Z.
Proof.
  unfold totalBookings.
  induction bookings as [| b l IH] using rev_ind; [simpl; lia |].
  unfold counts in *. rewrite foldl_app, length_app. simpl.
  pose proof (count_paid_step
                (foldl count {| paidCount := 0; pendingCount := 0;
                                cancelledCount := 0; paidAmount := 0 |} l) b).
  lia.
Qed.

Lemma percent_range (n d : Z) :
  (0 <= n <= d)%Z → (0 <= percent n d <= 100)%Z.
Proof.
  intros [Hn Hd]. unfold percent.
  destruct (Z.eqb_spec d 0) as [_ | Hnz]; [lia |].
  assert (Hdq : (0 < inject_Z d)%Q).
  { change (inject_Z 0 < inject_Z d)%Q. rewrite <- Zlt_Qlt. lia. }
  assert (Hlo : (0 <= inject_Z 100 * inject_Z n / inject_Z d)%Q).
  { apply Qle_shift_div_l; [exact Hdq |]. rewrite Qmult_0_l.
    rewrite <- inject_Z_mult. change 0%Q with (inject_Z 0).
    rewrite <- Zle_Qle. lia. }
  assert (Hhi : (inject_Z 100 * inject_Z n / inject_Z d <= inject_Z 100)%Q).
  { apply Qle_shift_div_r; [exact Hdq |].
    rewrite <- !inject_Z_mult. rewrite <- Zle_Qle. nia. }
  split.
  - change 0%Z with (Qfloor (inject_Z 0)). apply Qfloor_resp_le.
    apply (Qle_trans _ (0 + 0)%Q); [discriminate |].
    apply Qplus_le_compat; [exact Hlo | discriminate].
  - change 100%Z with (Qfloor (inject_Z 100 + (1 # 2))).
    apply Qfloor_resp_le. apply Qplus_le_compat; [exact Hhi | apply Qle_refl].
Qed.

Lemma successRate_not_nan (bookings : list Booking) :
  (totalBookings bookings < 2 ^ 53)%Z →
  Num.is_nan (successRate bookings) = false.
Proof.
  intros Hlen. unfold successRate.
  destruct (Z.ltb_spec 0 (totalBookings bookings)) as [Hpos | _];
    [| reflexivity].
  apply round_not_nan, ratio_not_nan. lia.
Qed.

Lemma compare_finite_some (a : Num.t) s m e :
  Num.is_nan a = false → SFcompare a (S754_finite s m e) ≠ None.
Proof.
  intros Ha. destruct a as [sa | sa | | sa ma ea]; try discriminate Ha; simpl.
  - destruct s; discriminate.
  - destruct sa; discriminate.
  - destruct sa, s; try discriminate;
      destruct (ea ?= e)%Z; try discriminate;
      destruct (Pos.compare_cont _ _ _); discriminate.
Qed.

Lemma max_two_nan (x : Num.t) :
  Num.is_nan (Num.max (Num.of_Z 2) x) = Num.is_nan x.
Proof.
  destruct x as [s | s | | s m e]; try reflexivity.
  - destruct s; reflexivity.
  - unfold Num.max.
    pose proof (compare_finite_some (Num.of_Z 2) s m e eq_refl) as Hc.
    destruct (SFcompare (Num.of_Z 2) (S754_finite s m e)) as [[] |];
      try reflexivity. contradiction.
Qed.

Lemma mul_hundred_nan (x : Num.t) :
  Num.is_nan (Num.mul x (Num.of_Z 100)) = Num.is_nan x.
Proof.
  change (Num.of_Z 100) with (S754_finite false 7036874417766400 (-46)).
  destruct x as [s | s | | s m e]; try reflexivity.
  apply mul_not_nan. reflexivity.
Qed.

Lemma div_nan (a b : Num.t) :
  Num.gt_zero b = true →
  Num.is_nan (Num.div a b)
  = Num.is_nan a || (Num.is_infinite a && Num.is_infinite b).
Proof.
  intros Hb. destruct b as [sb | sb | | sb mb eb];
    try (vm_compute in Hb; discriminate Hb).
  - destruct sb; [vm_compute in Hb; discriminate Hb |].
    destruct a as [sa | sa | | sa ma ea]; reflexivity.
  - destruct a as [sa | sa | | sa ma ea]; try reflexivity.
    apply (div_not_nan (S754_finite sa ma ea)). reflexivity.
Qed.

(** When the width of the bar is [NaN]: the total is above 0 and either
    the availability is [NaN] or both are infinite. *)
Lemma barWidth_nan (available total : Num.t) :
  Num.is_nan (EventDetail.barWidth available total)
  = Num.gt_zero total
    && (Num.is_nan available
        || (Num.is_infinite available && Num.is_infinite total)).
Proof.
  unfold EventDetail.barWidth.
  destruct (Num.gt_zero total) eqn:Ht; [| reflexivity].
  rewrite max_two_nan, mul_hundred_nan, div_nan by exact Ht. reflexivity.
Qed.

Lemma gt_zero_of_Z (z : Z) :
  (z < 2 ^ 53)%Z → Num.gt_zero (Num.of_Z z) = (0 <? z)%Z.
Proof.
  intros Hlt. destruct (Z.ltb_spec 0 z) as [Hpos | Hle].
  - destruct (of_Z_positive z ltac:(lia)) as (m & e & ->). reflexivity.
  - destruct z as [| p | p]; [reflexivity | lia |].
    unfold Num.gt_zero, Num.of_Z at 1, binary_normalize, binary_round.
    destruct (shl_align _ _ _) as [mz ez].
    pose proof (binary_round_aux_sign true (Zpos mz) ez loc_Exact ltac:(lia))
      as Hs.
    destruct (binary_round_aux _ _ _ _ _ _) as [s' | s' | | s' m' e'];
      try contradiction; subst s'; reflexivity.
Qed.

(** A card whose two quantities are whole numbers, the total below
    [2 ^ 53], has a width that is a number. *)
Lemma barWidth_not_nan (available total : Z) :
  (total < 2 ^ 53)%Z →
  Num.is_nan (EventDetail.barWidth (Num.of_Z available) (Num.of_Z total))
  = false.
Proof.
  intros Hlt. rewrite barWidth_nan, of_Z_not_nan. simpl.
  destruct (Z.ltb_spec 0 total) as [Hpos | Hle].
  - destruct (of_Z_positive total ltac:(lia)) as (m & e & ->).
    rewrite andb_false_r. apply andb_false_r.
  - rewrite gt_zero_of_Z by exact Hlt.
    destruct (Z.ltb_spec 0 total); [lia | reflexivity].
Qed.

Lemma or_zero_not_negative (x : Num.t) :
  Num.not_negative x = true → Num.not_negative (Num.or_zero x) = true.
Proof. destruct x as [s | s | | s m e]; intros H; try exact H; reflexivity. Qed.

Lemma add_not_negative (x y : Num.t) :
  Num.not_negative x = true → Num.not_negative y = true →
  Num.not_negative (Num.add x y) = true.
Proof.
  destruct x as [sx | [] | | [] mx ex]; try discriminate; intros _;
    destruct y as [sy | [] | | [] my ey]; try discriminate; intros _;
    try reflexivity.
  - destruct sx, sy; reflexivity.
  - unfold Num.add, SFadd. cbn [cond_Zopp].
    set (a := fst (shl_align mx ex (Z.min ex ey))).
    set (b := fst (shl_align my ey (Z.min ex ey))).
    change (Zpos a + Zpos b)%Z with (Zpos (a + b)).
    unfold binary_normalize, binary_round.
    destruct (shl_align _ _ _) as [mz ez] in |- *.
    pose proof (binary_round_aux_sign false (Zpos mz) ez loc_Exact ltac:(lia))
      as Hs.
    destruct (binary_round_aux _ _ _ _ _ _) as [s' | s' | | s' m' e'];
      try contradiction; subst s'; reflexivity.
Qed.

Lemma availableOf_not_negative (arr : list EventDetail.Quantities) :
  Forall (fun s => Num.not_negative (EventDetail.qtyLeft s) = true) arr →
  Num.not_negative (EventDetail.availableOf arr) = true.
Proof.
  unfold EventDetail.availableOf.
  induction arr as [| s arr IH] using rev_ind; intros H; [reflexivity |].
  apply Forall_app in H as [H1 H2]. apply Forall_cons in H2 as [Hs _].
  rewrite foldl_app. simpl.
  apply add_not_negative; [apply IH, H1 | apply or_zero_not_negative, Hs].
Qed.

(** With no negative number of places left, the width of the bar of a
    tier is [NaN] only when the availability and the total are both
    infinite. *)
Lemma barWidth_of_left_not_negative (arr : list EventDetail.Quantities) :
  Forall (fun s => Num.not_negative (EventDetail.qtyLeft s) = true) arr →
  Num.is_nan (EventDetail.barWidth (EventDetail.availableOf arr)
                (EventDetail.totalOf arr))
  = Num.is_infinite (EventDetail.availableOf arr)
    && Num.is_infinite (EventDetail.totalOf arr)
    && Num.gt_zero (EventDetail.totalOf arr).
Proof.
  intros H. apply availableOf_not_negative in H. rewrite barWidth_nan.
  destruct (EventDetail.availableOf arr) as [s | s | | s m e];
    try discriminate H; simpl;
    destruct (Num.gt_zero (EventDetail.totalOf arr)),
      (Num.is_infinite (EventDetail.totalOf arr)); reflexivity.
Qed.
(** With 29 paid bookings out of 200 the quotient 29 / 200 is rounded
    before it is multiplied by 100, the product is 14.499999999999998 and
    the rate is 14, while [round(100 * 29 / 200)] is the round of 14.5,
    which is 15. *)
Lemma successRate_tie_rounds_down :
  paidCount (counts tie_bookings) = 29%Z
  ∧ totalBookings tie_bookings = 200%Z
  ∧ successRate tie_bookings = Num.of_Z 14
  ∧ percent 29 200 = 15%Z
  ∧ Num.round (Num.div (Num.mul (Num.of_Z 100) (Num.of_Z 29)) (Num.of_Z 200))
    = Num.of_Z 15.
Proof. repeat split; vm_compute; reflexivity. Qed.

(** What holds of the rates. On an empty list the grouping is the empty
    map, every counter is 0 and the success rate is 0. The success rate
    is [Math.round((paid / total) * 100)] in binary64 arithmetic when there
    is a booking, and 0 when there is none; for fewer than [2 ^ 53]
    bookings it is not [NaN]. The availability bar of a card whose total
    is not above 0 is at 100 percent. *)
Lemma rates_defined (bookings : list Booking) (available total : Num.t) :
  (EventDetail.byTier [] = ∅
   ∧ Forall (fun card => EventDetail.card_available card = 0%Z
                         ∧ EventDetail.card_total card = 0%Z)
       (EventDetail.tierCards [])
   ∧ EventDetail.totalOf [] = Num.of_Z 0
   ∧ EventDetail.availableOf [] = Num.of_Z 0
   ∧ counts [] = mkCounts 0 0 0 0
   ∧ successRate [] = Num.of_Z 0)
  ∧ successRate bookings =
      (if (totalBookings bookings =? 0)%Z then Num.of_Z 0
       else Num.round
              (Num.mul
                 (Num.div (Num.of_Z (paidCount (counts bookings)))
                          (Num.of_Z (totalBookings bookings)))
                 (Num.of_Z 100)))
  ∧ (0 <= paidCount (counts bookings) <= totalBookings bookings)%Z
  ∧ ((totalBookings bookings < 2 ^ 53)%Z →
     Num.is_nan (successRate bookings) = false)
  ∧ (Num.gt_zero total = false →
     EventDetail.barWidth available total = Num.of_Z 100).
Proof.
  split; [| split; [| split; [| split]]].
  - repeat split. repeat constructor.
  - unfold successRate.
    assert (0 <= totalBookings bookings)%Z by (unfold totalBookings; lia).
    destruct (Z.ltb_spec 0 (totalBookings bookings));
      destruct (Z.eqb_spec (totalBookings bookings) 0); try lia; reflexivity.
  - apply counts_paid_bounds.
  - apply successRate_not_nan.
  - intros E. unfold EventDetail.barWidth. rewrite E. reflexivity.
Qed.

(** C6. The rates are not always as the claim has them. The code computes
    the success rate as [Math.round((paid / total) * 100)] and guards the
    width of the bar with [total > 0], and each quantity with [|| 0],
    which removes a [NaN]; two inputs get past that.
    - 29 paid bookings out of 200: the rate is 14, and
      [round(100 * 29 / 200)] is 15.
    - Two stalls of one tier with five places each, of which [1e999] and
      [-1e999] are left: the total of the card is 10, its availability is
      [Infinity + -Infinity], which is [NaN], and so is the width of the
      bar. *)
Theorem rates_diverge :
  (successRate tie_bookings = Num.of_Z 14
   ∧ paidCount (counts tie_bookings) = 29%Z
   ∧ totalBookings tie_bookings = 200%Z
   ∧ percent 29 200 = 15%Z)
  ∧ (EventDetail.totalOf EventDetail.infinite_left = Num.of_Z 10
     ∧ Num.is_nan (EventDetail.availableOf EventDetail.infinite_left) = true
     ∧ Num.is_nan
         (EventDetail.barWidth
            (EventDetail.availableOf EventDetail.infinite_left)
            (EventDetail.totalOf EventDetail.infinite_left)) = true).
Proof. repeat split; vm_compute; reflexivity. Qed.

Example successRate_three_of_four :
  successRate [mkBooking "paid" 8000; mkBooking "paid" 5000;
               mkBooking "cancelled" 5000; mkBooking "paid" 12000]
  = Num.of_Z 75.
Proof. vm_compute. reflexivity. Qed.

Example barWidth_two_of_five :
  EventDetail.barWidth (Num.of_Z 2) (Num.of_Z 5) = Num.of_Z 40.
Proof. vm_compute. reflexivity. Qed.

Example barWidth_floor :
  EventDetail.barWidth (Num.of_Z 0) (Num.of_Z 5) = Num.of_Z 2.
Proof. vm_compute. reflexivity. Qed.

End Rates.

(** ** Checkout *)

Section Checkout.
Import BookingFlow.

Lemma mirror_keeps_draft_key (st : State) (ls : Storage) :
  getItem "sharthi_booking_draft" (mirror st ls)
  = getItem "sharthi_booking_draft" ls.
Proof.
  unfold mirror, getItem, setItem.
  destruct (ls !! "sharthi_my_bookings") as [[s | d | u | rows] |];
    try reflexivity; try (destruct (String.eqb s ""); try reflexivity);
    by rewrite lookup_insert_ne.
Qed.

Lemma mount_loads_draft (d : Draft) (ls : Storage) :
  getItem "sharthi_booking_draft" ls = Some (DraftJson d) →
  ∃ st, mount ls = Mounted st ∧ draft st = Some d ∧ step st = review
        ∧ draft (setStep payment st) = Some d
        ∧ step (setStep payment st) = payment.
Proof.
  intros H. unfold mount. rewrite H. eexists. repeat split; reflexivity.
Qed.

(** C2. In the payment step, with the draft [d] of the storage loaded into
    the component, [handlePayment] is run on what its two requests settle
    to. A request succeeds when [api] returns for it; the payment reference
    is read off the answer of the first one, which fails on a JSON [null]
    (the booking request is then never sent), and nothing is sent without
    a token.
    - When both requests succeed, both are sent, in this order, the
      booking request with the ids and the price of the draft and the
      payment reference of the first answer; the draft is gone from the
      storage and the step is success.
    - When one of them fails (or there is no token), storage and state are
      exactly as before, draft and payment step included, so the payment
      can be tried again, and no booking request has returned.
    - Every booking request that is sent carries the price of the draft as
      its amount.
    - The draft is gone and the step is success if and only if both
      requests succeed. *)
Theorem payment_commits_or_keeps (d : Draft) (payNet bookNet : fetched)
    (st : State) (ls : Storage) :
  getItem "sharthi_booking_draft" ls = Some (DraftJson d) →
  draft st = Some d →
  step st = payment →
  let out := handlePayment payNet bookNet st ls in
  (∀ tok body r,
     getToken ls = Some tok →
     api payNet = Some body → body ≠ JNull → api bookNet = Some r →
     out_calls out
     = [mkCall PaymentMock true;
        mkCall (CreateBooking (draft_eventId d) (draft_stallId d)
                  (draft_price d) (prop body "paymentRef")) true]
     ∧ getItem "sharthi_booking_draft" (out_storage out) = None
     ∧ step (out_state out) = success)
  ∧ (getToken ls = None
     ∨ api payNet = None ∨ api payNet = Some JNull ∨ api bookNet = None →
     out_storage out = ls ∧ out_state out = st
     ∧ getItem "sharthi_booking_draft" (out_storage out) = Some (DraftJson d)
     ∧ step (out_state out) = payment
     ∧ Forall (fun c => call_request c ≠ PaymentMock → call_ok c = false)
         (out_calls out))
  ∧ Forall (fun amount => amount = draft_price d)
      (booking_amounts (out_calls out))
  ∧ (getItem "sharthi_booking_draft" (out_storage out) = None
     ∧ step (out_state out) = success
     ↔ getToken ls ≠ None
       ∧ ∃ body r, api payNet = Some body ∧ body ≠ JNull
                   ∧ api bookNet = Some r).
Proof.
  intros Hls Hd Hstep. unfold handlePayment, totals. rewrite Hd.
  assert (Hgone : getItem "sharthi_booking_draft"
                    (mirror st (removeItem "sharthi_booking_draft" ls)) = None).
  { rewrite mirror_keeps_draft_key. apply lookup_delete_eq. }
  assert (Hprice : (draft_price d + 0 + 0 = draft_price d)%Z) by lia.
  destruct (getToken ls) as [tok |];
    [destruct (api payNet) as [body |];
     [destruct (api bookNet) as [r |]; destruct body |] |];
    cbn -[getItem mirror removeItem Z.add];
    rewrite ?Hgone, ?Hls, ?Hstep, ?Hprice;
    (split; [intros tok' body' r' Ht Hb Hnn Hr;
             try discriminate Ht; try discriminate Hb; try discriminate Hr;
             try (injection Hb as <-); try contradiction;
             repeat split; reflexivity |]);
    (split; [intros [H | [H | [H | H]]];
             try discriminate H;
             repeat split;
             repeat constructor; intros Hreq; try reflexivity;
             try (exfalso; apply Hreq; reflexivity) |]);
    (split; [repeat constructor |]);
    (split; [intros [H1 H2]; try discriminate H1; try discriminate H2;
             (split; [discriminate |]); eexists _, _;
             (split; [reflexivity |]); (split; [discriminate | reflexivity])
            | intros [Ht (body' & r' & Hb & Hnn & Hr)];
              try contradiction; try discriminate Hb; try discriminate Hr;
              try (injection Hb as <-); try contradiction;
              split; reflexivity]).
Qed.

(** The draft and the requests of the example of the spec: both requests
    succeed. *)
Lemma payment_commits_or_keeps_witness :
  let st := mkState payment (Some (mkDraft "E1" "S1" "Premium" 8000))
              None None false in
  let ls : Storage :=
    {[ "jwt" := Text "t0k";
       "sharthi_booking_draft" := DraftJson (mkDraft "E1" "S1" "Premium" 8000) ]} in
  let out :=
    handlePayment (Response true (Some (JObj [("paymentRef", JStr "PAY-1")])))
      (Response true (Some (JObj [("id", JStr "B1")]))) st ls in
  out_calls out
  = [mkCall PaymentMock true;
     mkCall (CreateBooking "E1" "S1" 8000 (Some (JStr "PAY-1"))) true]
  ∧ getItem "sharthi_booking_draft" (out_storage out) = None
  ∧ step (out_state out) = success.
Proof.
  refine (proj1 (payment_commits_or_keeps (mkDraft "E1" "S1" "Premium" 8000)
                   (Response true (Some (JObj [("paymentRef", JStr "PAY-1")])))
                   (Response true (Some (JObj [("id", JStr "B1")])))
                   (mkState payment (Some (mkDraft "E1" "S1" "Premium" 8000))
                      None None false)
                   {[ "jwt" := Text "t0k";
                      "sharthi_booking_draft" :=
                        DraftJson (mkDraft "E1" "S1" "Premium" 8000) ]}
                   eq_refl eq_refl eq_refl)
            (Text "t0k") (JObj [("paymentRef", JStr "PAY-1")])
            (JObj [("id", JStr "B1")]) eq_refl eq_refl _ eq_refl).
  discriminate.
Defined.

Example payment_happy_path :
  let st := mkState payment (Some (mkDraft "E1" "S1" "Premium" 8000))
              None None false in
  let ls : Storage :=
    {[ "jwt" := Text "t0k";
       "sharthi_booking_draft" := DraftJson (mkDraft "E1" "S1" "Premium" 8000) ]} in
  let out :=
    handlePayment (Response true (Some (JObj [("paymentRef", JStr "PAY-1")])))
      (Response true (Some (JObj [("id", JStr "B1")]))) st ls in
  out_calls out =
    [mkCall PaymentMock true;
     mkCall (CreateBooking "E1" "S1" 8000 (Some (JStr "PAY-1"))) true]
  ∧ getItem "sharthi_booking_draft" (out_storage out) = None
  ∧ step (out_state out) = success.
Proof. repeat split; reflexivity. Qed.

Example payment_retry_after_failure :
  let st := mkState payment (Some (mkDraft "E1" "S1" "Premium" 8000))
              None None false in
  let ls : Storage :=
    {[ "jwt" := Text "t0k";
       "sharthi_booking_draft" := DraftJson (mkDraft "E1" "S1" "Premium" 8000) ]} in
  let failed := handlePayment Rejected Rejected st ls in
  let retried :=
    handlePayment (Response true (Some (JObj [("paymentRef", JStr "PAY-2")])))
      (Response true (Some (JObj []))) (out_state failed) (out_storage failed) in
  out_calls failed = [mkCall PaymentMock false]
  ∧ getItem "sharthi_booking_draft" (out_storage failed)
    = Some (DraftJson (mkDraft "E1" "S1" "Premium" 8000))
  ∧ step (out_state failed) = payment
  ∧ step (out_state retried) = success
  ∧ booking_amounts (out_calls retried) = [8000%Z].
Proof. repeat split; reflexivity. Qed.

End Checkout.

(** ** Unmounting while requests are in flight *)

Section Unmount.
Import Effects.

Lemma run_not_unmounted cleanup net alive e p rest :
  run cleanup net alive e p ≠ Unmounted :: rest.
Proof.
  revert alive e. induction p as [| a k IH | url signal k IH | k IH];
    intros alive e; simpl; try discriminate.
  - destruct alive as [[| n] |]; discriminate.
  - apply IH.
Qed.

Lemma since_unmount_skip cleanup net alive e p ev :
  since_unmount (ev :: run cleanup net alive e p)
  = since_unmount (run cleanup net alive e p).
Proof.
  destruct ev as [a | url signal |]; try reflexivity.
  destruct (run cleanup net alive e p) as [| ev' rest] eqn:E; [reflexivity |].
  destruct ev'; try reflexivity.
  exfalso. exact (run_not_unmounted _ _ _ _ _ _ E).
Qed.

(** A safe effect does nothing but cancelled requests from the unmount
    on, wherever the unmount falls. *)
Lemma safe_sound cleanup (p : proc) :
  safe cleanup p →
  ∀ net n,
    Forall (fun ev => allowed cleanup ev = true)
      (since_unmount (run cleanup net (Some n) fresh p)).
Proof.
  induction p as [| a k IH | url signal k IH | k IH]; intros Hsafe net n.
  - constructor.
  - cbn [run]. rewrite since_unmount_skip. apply IH, Hsafe.
  - destruct Hsafe as (Hsig & Hquiet & Hsafe). cbn [run].
    destruct n as [| n].
    + cbn [since_unmount]. constructor.
      * unfold allowed, uncancelled. simpl. rewrite Hsig. reflexivity.
      * apply Hquiet.
    + rewrite since_unmount_skip.
      assert (Hlive : settle fresh signal (net url) = Settled (net url)).
      { unfold settle. simpl. rewrite andb_false_r. reflexivity. }
      rewrite Hlive. apply IH. apply Hsafe.
  - cbn [run]. apply IH, Hsafe.
Qed.

Lemma searchpage_quiet_finally :
  quiet SearchPage.cleanup (SearchPage.cleanup fresh) SearchPage.finally.
Proof. intros net. constructor. Qed.

Lemma searchpage_quiet_commit :
  quiet SearchPage.cleanup (SearchPage.cleanup fresh) SearchPage.commit.
Proof. intros net. constructor. Qed.

Lemma searchpage_quiet_catch :
  quiet SearchPage.cleanup (SearchPage.cleanup fresh) SearchPage.catch_other.
Proof. intros net. constructor. Qed.

Lemma searchpage_quiet_creators :
  quiet SearchPage.cleanup (SearchPage.cleanup fresh) SearchPage.creators.
Proof. intros net. repeat constructor. Qed.

Lemma searchpage_quiet_hydrate (ids : list string) :
  quiet SearchPage.cleanup (SearchPage.cleanup fresh)
    (SearchPage.hydrate ids SearchPage.creators).
Proof.
  induction ids as [| id ids IH]; [apply searchpage_quiet_creators |].
  intros net. cbn [SearchPage.hydrate run]. constructor; [reflexivity |].
  apply IH.
Qed.

Lemma searchpage_safe_creators :
  safe SearchPage.cleanup SearchPage.creators.
Proof.
  cbn [SearchPage.creators safe]. split; [reflexivity |]. split.
  - intros f. apply searchpage_quiet_commit.
  - intros [| [] body]; cbn; try exact I.
    split; [reflexivity |]. split; [| intros; exact I].
    intros f. apply searchpage_quiet_commit.
Qed.

Lemma searchpage_safe_hydrate (ids : list string) :
  safe SearchPage.cleanup (SearchPage.hydrate ids SearchPage.creators).
Proof.
  induction ids as [| id ids IH]; [apply searchpage_safe_creators |].
  cbn [SearchPage.hydrate safe]. split; [reflexivity |]. split.
  - intros f. apply searchpage_quiet_hydrate.
  - intros f. exact IH.
Qed.

(** The load effect of SearchPage keeps the rule: whenever the page
    unmounts, the request in flight and every later one are aborted, and
    no setter and no notice follows. *)
Lemma searchpage_load_cancelled (net : string → fetched) (n : nat) :
  Forall (fun ev => allowed SearchPage.cleanup ev = true)
    (since_unmount (run SearchPage.cleanup net (Some n) fresh SearchPage.load)).
Proof.
  apply safe_sound. cbn [SearchPage.load safe].
  split; [reflexivity |]. split.
  - intros f. apply searchpage_quiet_finally.
  - intros [| [] [body |]]; try exact I.
    + destruct (ids_of body) as [ids |]; [apply searchpage_safe_hydrate | exact I].
    + apply searchpage_safe_creators.
    + apply searchpage_safe_creators.
Qed.

(** C9, the failing run. OrganizerDashboard is mounted with a token in
    the storage and unmounts while its events request is in flight: the
    request carries no signal and no cleanup runs, and when the answer
    arrives the effect still calls [setMyEvents] and [setLoading]. *)
Theorem organizer_load_outlives_unmount :
  let ls : Storage := {[ "jwt" := Text "t0k" ]} in
  let net := fun _ : string => Response true (Some (JArr [])) in
  run OrganizerDashboard.cleanup net (Some 0%nat) fresh
    (OrganizerDashboard.loadEvents ls)
  = [Requested "/organizers/me/events?page=1&limit=50" false; Unmounted;
     Did (SetState "myEvents"); Did (SetState "loading")]
  ∧ Exists (fun ev => allowed OrganizerDashboard.cleanup ev = false)
      (since_unmount
         (run OrganizerDashboard.cleanup net (Some 0%nat) fresh
            (OrganizerDashboard.loadEvents ls)))
  ∧ ¬ safe OrganizerDashboard.cleanup (OrganizerDashboard.loadEvents ls).
Proof.
  split; [reflexivity |]. split.
  - left. reflexivity.
  - intros [H _]. discriminate H.
Qed.

(** The bookings effect of OrganizerDashboard behaves in the same way, and
    a failed answer raises a notice on a page the user has left. *)
Example organizer_bookings_outlive_unmount :
  let ls : Storage := {[ "jwt" := Text "t0k" ]} in
  run OrganizerDashboard.cleanup (fun _ => Rejected) (Some 0%nat) fresh
    (OrganizerDashboard.loadBookings ls)
  = [Requested "/organizers/me/bookings?page=1&limit=50" false; Unmounted;
     Did (Notify ToastError); Did (SetState "bookingsLoading")].
Proof. reflexivity. Qed.

(** EventDetail aborts its request, but the [catch] on the request turns
    the abort into an empty list: the effect then reports "no events" and
    calls [onBack()], whatever the id and whatever the network holds. *)
Lemma eventdetail_abort_goes_back (eventId : option string)
    (decode : json → list EventMeta) (net : string → fetched) :
  run EventDetail.cleanup net (Some 0%nat) fresh
    (EventDetail.resolve eventId decode)
  = [Requested "/events" true; Unmounted;
     Did (Notify ToastError); Did (CallParent "onBack")].
Proof.
  cbn. destruct eventId as [s |]; [| reflexivity].
  simpl. rewrite andb_false_r. reflexivity.
Qed.

End Unmount.

(** ** Sessions over whole interactions *)

Section Reachability.
Import App Session.

Lemma navigate_cases (page : Page.t) (st : State) :
  navigate page st = setCurrentPage page st
  ∧ (page ∈ requiresAuth → isAuthenticated st = true)
  ∨ navigate page st = setShowAuth true st.
Proof.
  unfold navigate.
  destruct (bool_decide (page ∈ requiresAuth)) eqn:Hp;
    destruct (isAuthenticated st) eqn:Ha; simpl; auto.
  left. split; [reflexivity |]. intros Hin.
  apply bool_decide_eq_false_1 in Hp. contradiction.
Qed.

Lemma ui_step_keeps_gate (st st' : State) :
  ui_step st st' →
  (currentPage st ∈ requiresAuth → isAuthenticated st = true) →
  currentPage st' ∈ requiresAuth → isAuthenticated st' = true.
Proof.
  intros Hstep Hinv.
  destruct Hstep as [st page _ | st eventId _ | st Hp | st Hp | st Hp | st Hp
                    | st open | st email role | st ls].
  - destruct (navigate_cases page st) as [[-> Hok] | ->]; simpl; auto.
  - simpl. intros H. apply requiresAuth_spec in H.
    destruct H as [H | [H | [H | [H | H]]]]; discriminate H.
  - unfold navigateToBooking.
    destruct (isAuthenticated st) eqn:Ha; simpl; auto.
    rewrite Ha. auto.
  - simpl. intros H. apply requiresAuth_spec in H.
    destruct H as [H | [H | [H | [H | H]]]]; discriminate H.
  - simpl. intros H. apply requiresAuth_spec in H.
    destruct H as [H | [H | [H | [H | H]]]]; discriminate H.
  - simpl. intros _. apply Hinv. rewrite Hp.
    apply requiresAuth_spec. left. reflexivity.
  - simpl. exact Hinv.
  - intros _. unfold handleLogin. destruct role; reflexivity.
  - simpl. intros H. apply requiresAuth_spec in H.
    destruct H as [H | [H | [H | [H | H]]]]; discriminate H.
Qed.

Lemma step_keeps_gate (st st' : State) :
  step st st' →
  (currentPage st ∈ requiresAuth → isAuthenticated st = true) →
  currentPage st' ∈ requiresAuth → isAuthenticated st' = true.
Proof.
  intros [st1 st2 Hui | st1 ls net] Hinv.
  - exact (ui_step_keeps_gate _ _ Hui Hinv).
  - unfold restoreSession. destruct (meFromToken ls net) as [[role email] |].
    + intros _. reflexivity.
    + exact Hinv.
Qed.

(** X1. No run of the application shows a protected page without a
    session: from the initial state, after any sequence of header clicks,
    event openings, bookings, back and success callbacks, dialog openings,
    logins, logouts and returns of the auto-login effect, a current page
    in the guarded set implies that the session is authenticated. *)
Theorem protected_page_needs_session (st : State) :
  rtc step initial st →
  currentPage st ∈ requiresAuth → isAuthenticated st = true.
Proof.
  intros Hreach.
  assert (Hgen : ∀ st0, rtc step st0 st →
            (currentPage st0 ∈ requiresAuth → isAuthenticated st0 = true) →
            currentPage st ∈ requiresAuth → isAuthenticated st = true).
  { clear. intros st0 Hrtc. induction Hrtc as [st0 | st0 st1 st2 H01 _ IH].
    - auto.
    - intros Hinv. apply IH. exact (step_keeps_gate _ _ H01 Hinv). }
  apply (Hgen initial Hreach). simpl. intros H.
  apply requiresAuth_spec in H.
  destruct H as [H | [H | [H | [H | H]]]]; discriminate H.
Qed.

Lemma protected_page_needs_session_witness :
  isAuthenticated
    (setCurrentPage Page.my_bookings
       (navigateToBooking
          (navigateToEvent "E1"
             (navigate Page.home
                (handleLogin "asha@example.com" Role.creator initial)))))
  = true.
Proof.
  apply protected_page_needs_session.
  - eapply rtc_l; [apply step_ui, (login initial "asha@example.com" Role.creator) |].
    eapply rtc_l; [apply step_ui, (click_header _ Page.home) |].
    { apply list_elem_of_lookup. exists 2%nat. reflexivity. }
    eapply rtc_l; [apply step_ui, (open_event _ "E1") |].
    { apply list_elem_of_lookup. exists 0%nat. reflexivity. }
    eapply rtc_l; [apply step_ui, book_stall; reflexivity |].
    apply rtc_once, step_ui, booking_success. reflexivity.
  - apply requiresAuth_spec. right; right; right; left. reflexivity.
Defined.

Lemma targets_role (role : Role.t) (auth : bool) (page : Page.t) :
  page ∈ Header.targets role auth →
  (page = Page.admin → role = Role.admin)
  ∧ (page = Page.organizer → role = Role.organizer).
Proof.
  intros Hin. destruct role, auth; vm_compute in Hin;
    repeat (apply elem_of_cons in Hin as [-> | Hin]);
    try (apply elem_of_nil in Hin; contradiction);
    split; intros H; try discriminate H; reflexivity.
Qed.

Lemma ui_step_keeps_role (st st' : State) :
  ui_step st st' →
  ((currentPage st = Page.admin → userRole st = Role.admin)
   ∧ (currentPage st = Page.organizer → userRole st = Role.organizer)) →
  (currentPage st' = Page.admin → userRole st' = Role.admin)
  ∧ (currentPage st' = Page.organizer → userRole st' = Role.organizer).
Proof.
  intros Hstep Hinv.
  destruct Hstep as [st page Hin | st eventId _ | st Hp | st Hp | st Hp | st Hp
                    | st open | st email role | st ls].
  - destruct (navigate_cases page st) as [[-> _] | ->]; simpl; [| exact Hinv].
    destruct (targets_role _ _ _ Hin) as [H1 H2]. split; assumption.
  - simpl. split; intros H; discriminate H.
  - unfold navigateToBooking.
    destruct (isAuthenticated st); simpl; [| exact Hinv].
    split; intros H; discriminate H.
  - simpl. split; intros H; discriminate H.
  - simpl. split; intros H; discriminate H.
  - simpl. split; intros H; discriminate H.
  - simpl. exact Hinv.
  - unfold handleLogin. destruct role; simpl; split; intros H;
      try discriminate H; reflexivity.
  - simpl. split; intros H; discriminate H.
Qed.

(** X2. The dashboards are only reached by their role: starting from
    the state the auto-login leaves, after any sequence of interactions
    the admin page is current only while the role is admin, and the
    organizer page only while the role is organizer. The header never
    offers either page to another role, and a login lands by role. *)
Theorem dashboards_match_role (ls : Storage) (net : fetched) (st : State) :
  rtc ui_step (restoreSession ls net initial) st →
  (currentPage st = Page.admin → userRole st = Role.admin)
  ∧ (currentPage st = Page.organizer → userRole st = Role.organizer).
Proof.
  intros Hreach.
  assert (Hgen : ∀ st0, rtc ui_step st0 st →
            ((currentPage st0 = Page.admin → userRole st0 = Role.admin)
             ∧ (currentPage st0 = Page.organizer → userRole st0 = Role.organizer)) →
            (currentPage st = Page.admin → userRole st = Role.admin)
            ∧ (currentPage st = Page.organizer → userRole st = Role.organizer)).
  { clear. intros st0 Hrtc. induction Hrtc as [st0 | st0 st1 st2 H01 _ IH].
    - auto.
    - intros Hinv. apply IH. exact (ui_step_keeps_role _ _ H01 Hinv). }
  apply (Hgen _ Hreach). unfold restoreSession.
  destruct (meFromToken ls net) as [[role email] |]; simpl;
    split; intros H; discriminate H.
Qed.

Lemma dashboards_match_role_witness :
  userRole
    (navigate Page.admin
       (handleLogin "root@example.com" Role.admin
          (restoreSession ∅ Rejected initial)))
  = Role.admin.
Proof.
  refine (proj1 (dashboards_match_role ∅ Rejected _ _) _); [| reflexivity].
  eapply rtc_l; [apply (login _ "root@example.com" Role.admin) |].
  apply rtc_once, (click_header _ Page.admin).
  apply list_elem_of_lookup. exists 0%nat. reflexivity.
Defined.

End Reachability.

Section Lifecycle.
Import App.

(** X3. A login opens every page and a logout closes the guarded ones
    again: right after [handleLogin], [navigate] reaches any page and
    leaves the sign-in dialog as it was; after a following [handleLogout],
    [navigate] to a guarded page stays on the home page and opens the
    dialog, while a page outside the guarded set is still reached. *)
Theorem session_lifecycle (email : string) (role : Role.t) (page : Page.t)
    (st : State) (ls : Storage) :
  currentPage (navigate page (handleLogin email role st)) = page
  ∧ showAuth (navigate page (handleLogin email role st)) = showAuth st
  ∧ (page ∈ requiresAuth →
     currentPage (navigate page (handleLogout (handleLogin email role st) ls).1)
     = Page.home
     ∧ showAuth (navigate page (handleLogout (handleLogin email role st) ls).1)
       = true)
  ∧ (page ∉ requiresAuth →
     currentPage (navigate page (handleLogout (handleLogin email role st) ls).1)
     = page).
Proof.
  unfold navigate.
  assert (Hin : isAuthenticated (handleLogin email role st) = true)
    by (destruct role; reflexivity).
  rewrite Hin. simpl negb. rewrite andb_false_r.
  split; [reflexivity |]. split; [destruct role; reflexivity |].
  simpl. rewrite andb_true_r. split; intros Hp.
  - rewrite bool_decide_eq_true_2 by exact Hp. split; reflexivity.
  - rewrite bool_decide_eq_false_2 by exact Hp. reflexivity.
Qed.

(** X4. A logout removes the six identity keys and nothing else: every
    other key of the storage, the booking draft and the local mirror of
    the bookings among them, holds after [handleLogout] what it held
    before. *)
Theorem logout_keeps_other_keys (k : string) (st : State) (ls : Storage) :
  k ∉ identity_keys →
  getItem k (handleLogout st ls).2 = getItem k ls.
Proof.
  intros Hk. unfold handleLogout, identity_keys, removeItem, getItem in *.
  simpl.
  repeat (rewrite lookup_delete_ne;
          [| intros <-; apply Hk; set_solver]).
  reflexivity.
Qed.

Lemma logout_keeps_other_keys_witness :
  getItem "sharthi_my_bookings"
    (handleLogout initial
       {[ "jwt" := Text "t0k";
          "sharthi_my_bookings" :=
            BookingsJson [mkLocalBooking "Crafts Fair" "Delhi" "Premium" "P-1"
                            8000 "confirmed"] ]}).2
  = getItem "sharthi_my_bookings"
      ({[ "jwt" := Text "t0k";
          "sharthi_my_bookings" :=
            BookingsJson [mkLocalBooking "Crafts Fair" "Delhi" "Premium" "P-1"
                            8000 "confirmed"] ]} : Storage).
Proof.
  apply logout_keeps_other_keys.
  unfold identity_keys. intros Hin.
  repeat (apply elem_of_cons in Hin as [Hin | Hin]; [discriminate Hin |]).
  apply elem_of_nil in Hin. exact Hin.
Defined.

(** X5. A page reload keeps the role of the sign-in: when the answer to
    the sign-in carries a user object and a token whose text is not
    empty, [handleSignIn] succeeds with the role of that user, and the
    auto-login that then finds the saved token and gets the same user
    from [/auth/me] computes the same role, and the same e-mail whenever
    the user has one. *)
Theorem restore_agrees_with_sign_in (signinEmail signinPassword : string)
    (data u : json) (ls : Storage) :
  signinEmail ≠ "" → signinPassword ≠ "" →
  prop data "user" = Some u → u ≠ JNull →
  item_truthy (Some (Auth.text_of (prop data "token"))) = true →
  ∃ ls' email,
    Auth.handleSignIn signinEmail signinPassword (Response true (Some data)) ls
    = Auth.SignedIn ls' email (roleFromUser u)
    ∧ ∃ email',
        meFromToken ls' (Response true (Some u)) = Some (roleFromUser u, email')
        ∧ (truthy (prop u "email") = true → email' = email).
Proof.
  intros He Hp Hu Hnull Htok.
  unfold Auth.handleSignIn.
  apply String.eqb_neq in He, Hp. rewrite He, Hp. simpl orb.
  unfold Auth.jsonFetch.
  assert (Hrole : Auth.toUiRole (opt_prop (prop data "user") "role")
                  = roleFromUser u).
  { rewrite Hu. unfold Auth.toUiRole, roleFromUser.
    destruct u; reflexivity. }
  assert (Hemail : opt_prop (prop data "user") "email" = prop u "email").
  { rewrite Hu. destruct u; reflexivity. }
  destruct data as [| b | n | s | items | fields]; try discriminate Hu.
  rewrite Hrole. eexists _, _. split; [reflexivity |].
  unfold meFromToken.
  assert (Hget : getToken (Auth.saveAuth (prop (JObj fields) "token")
                             (prop (JObj fields) "user") ls) ≠ None).
  { unfold getToken, Auth.saveAuth, getItem, setItem.
    rewrite lookup_insert_ne by discriminate.
    rewrite lookup_insert_ne by discriminate.
    rewrite lookup_insert_eq. rewrite Htok. discriminate. }
  destruct (getToken _) as [tok |]; [| contradiction].
  simpl negb. cbv iota.
  destruct u as [| b | n | s | items | ufields]; try contradiction;
    eexists; (split; [reflexivity |]);
    rewrite Hemail; intros Ht; unfold or_else; try rewrite Ht;
    try reflexivity; try discriminate Ht.
  - destruct (prop (JObj ufields) "email"); [reflexivity | discriminate Ht].
Qed.

Lemma restore_agrees_with_sign_in_witness :
  ∃ ls' email,
    Auth.handleSignIn "asha@example.com" "secret"
      (Response true
         (Some (JObj [("token", JStr "t0k");
                      ("user", JObj [("email", JStr "asha@example.com");
                                     ("role", JStr "organizer")])]))) ∅
    = Auth.SignedIn ls' email
        (roleFromUser (JObj [("email", JStr "asha@example.com");
                             ("role", JStr "organizer")]))
    ∧ ∃ email',
        meFromToken ls'
          (Response true
             (Some (JObj [("email", JStr "asha@example.com");
                          ("role", JStr "organizer")])))
        = Some (roleFromUser (JObj [("email", JStr "asha@example.com");
                                    ("role", JStr "organizer")]), email')
        ∧ (truthy (prop (JObj [("email", JStr "asha@example.com");
                               ("role", JStr "organizer")]) "email") = true →
           email' = email).
Proof.
  apply restore_agrees_with_sign_in;
    try discriminate; reflexivity.
Defined.

(** X6. The sign-up form cannot grant the admin role: when the answer
    carries no role for the user, a successful [handleSignUp] logs in with
    the role picked in the form (organizer, or else creator), and it logs
    in as admin only if the answer itself carries a role that spells
    ADMIN. *)
Theorem sign_up_role (name signupEmail signupPassword : string)
    (role : Role.t) (net : fetched) (data : json)
    (ls ls' : Storage) (email : string) (uiRole : Role.t) :
  Auth.jsonFetch net = Some data →
  Auth.handleSignUp name signupEmail signupPassword role net ls
  = Auth.SignedIn ls' email uiRole →
  (truthy (opt_prop (prop data "user") "role") = false →
   uiRole = if bool_decide (role = Role.organizer) then Role.organizer
            else Role.creator)
  ∧ (uiRole = Role.admin →
     ∃ raw, opt_prop (prop data "user") "role" = Some raw
            ∧ toUpperCase (js_String raw) = "ADMIN").
Proof.
  intros Hdata. unfold Auth.handleSignUp. rewrite Hdata.
  destruct (_ || _); [discriminate |].
  assert (Hfall : Auth.toUiRole (Some (JStr (Auth.apiRole role)))
                  = if bool_decide (role = Role.organizer) then Role.organizer
                    else Role.creator)
    by (destruct role; reflexivity).
  assert (Hgen : ∀ r,
    Auth.toUiRole
      (Some (or_else (opt_prop (prop data "user") "role")
               (JStr (Auth.apiRole role)))) = r →
    (truthy (opt_prop (prop data "user") "role") = false →
     r = if bool_decide (role = Role.organizer) then Role.organizer
         else Role.creator)
    ∧ (r = Role.admin →
       ∃ raw, opt_prop (prop data "user") "role" = Some raw
              ∧ toUpperCase (js_String raw) = "ADMIN")).
  { intros r <-. unfold or_else.
    destruct (opt_prop (prop data "user") "role") as [raw |] eqn:Eraw.
    - destruct (truthy (Some raw)) eqn:Et.
      + split; [discriminate |]. intros Hadmin. exists raw.
        split; [reflexivity |].
        unfold Auth.toUiRole, or_else in Hadmin. rewrite Et in Hadmin.
        destruct (String.eqb (toUpperCase (js_String raw)) "ORGANIZER");
          [discriminate |].
        destruct (String.eqb (toUpperCase (js_String raw)) "ADMIN") eqn:E;
          [| discriminate].
        apply String.eqb_eq, E.
      + rewrite Hfall. split; [reflexivity |].
        destruct role; discriminate.
    - rewrite Hfall. split; [reflexivity |]. destruct role; discriminate. }
  destruct data; try discriminate; intros [= _ _ Hr]; apply Hgen, Hr.
Qed.

Lemma sign_up_role_witness :
  (truthy (opt_prop (prop (JObj [("token", JStr "t0k");
                                 ("user", JObj [("email", JStr "org@example.com")])])
                          "user") "role") = false →
   Role.organizer = if bool_decide (Role.organizer = Role.organizer)
                    then Role.organizer else Role.creator)
  ∧ (Role.organizer = Role.admin →
     ∃ raw, opt_prop (prop (JObj [("token", JStr "t0k");
                                  ("user", JObj [("email", JStr "org@example.com")])])
                           "user") "role" = Some raw
            ∧ toUpperCase (js_String raw) = "ADMIN").
Proof.
  apply (sign_up_role "Org" "org@example.com" "secret" Role.organizer
           (Response true
              (Some (JObj [("token", JStr "t0k");
                           ("user", JObj [("email", JStr "org@example.com")])])))
           (JObj [("token", JStr "t0k");
                  ("user", JObj [("email", JStr "org@example.com")])])
           ∅
           (Auth.saveAuth (Some (JStr "t0k"))
              (Some (JObj [("email", JStr "org@example.com")])) ∅)
           "org@example.com");
    reflexivity.
Defined.

End Lifecycle.

(** ** Texts and tags *)

Section Strings.
Import Str.

Lemma num_or_zero (n : Z) : num_or n 0 = n.
Proof. unfold num_or. destruct (Z.eqb_spec n 0); congruence. Qed.


Lemma is_space_lower (c : ascii) : is_space (lower_ascii c) = is_space c.
Proof.
  apply Bool.eqb_prop.
  apply (forall_ascii (fun c => Bool.eqb (is_space (lower_ascii c)) (is_space c))).
  vm_compute. reflexivity.
Qed.

Lemma lower_upper (c : ascii) : lower_ascii (upper_ascii c) = lower_ascii c.
Proof.
  apply Ascii.eqb_eq.
  apply (forall_ascii (fun c => Ascii.eqb (lower_ascii (upper_ascii c)) (lower_ascii c))).
  vm_compute. reflexivity.
Qed.

Lemma lower_lower (c : ascii) : lower_ascii (lower_ascii c) = lower_ascii c.
Proof.
  apply Ascii.eqb_eq.
  apply (forall_ascii (fun c => Ascii.eqb (lower_ascii (lower_ascii c)) (lower_ascii c))).
  vm_compute. reflexivity.
Qed.

Lemma toLowerCase_upper (s : string) :
  toLowerCase (toUpperCase s) = toLowerCase s.
Proof. induction s as [| c s IH]; simpl; [| rewrite lower_upper, IH]; reflexivity. Qed.

Lemma toLowerCase_idem (s : string) :
  toLowerCase (toLowerCase s) = toLowerCase s.
Proof. induction s as [| c s IH]; simpl; [| rewrite lower_lower, IH]; reflexivity. Qed.

Lemma toLowerCase_empty (s : string) :
  String.eqb (toLowerCase s) "" = String.eqb s "".
Proof. destruct s; reflexivity. Qed.

Lemma trimStart_lower (s : string) :
  trimStart (toLowerCase s) = toLowerCase (trimStart s).
Proof.
  induction s as [| c s IH]; simpl; [reflexivity |].
  rewrite is_space_lower. destruct (is_space c); [exact IH | reflexivity].
Qed.

Lemma trimEnd_lower (s : string) :
  trimEnd (toLowerCase s) = toLowerCase (trimEnd s).
Proof.
  induction s as [| c s IH]; simpl; [reflexivity |].
  rewrite is_space_lower, IH, toLowerCase_empty.
  destruct (is_space c && String.eqb (trimEnd s) ""); reflexivity.
Qed.

Lemma trim_lower (s : string) : trim (toLowerCase s) = toLowerCase (trim s).
Proof. unfold trim. rewrite trimStart_lower, trimEnd_lower. reflexivity. Qed.

Lemma includes_cons (a c : ascii) (s : string) :
  includes (String a s) (String c EmptyString)
  = Ascii.eqb c a || includes s (String c EmptyString).
Proof.
  simpl. destruct (Ascii.eqb_spec c a) as [-> | Hne].
  - destruct (ascii_dec a a) as [_ | H]; [| contradiction].
    destruct s; reflexivity.
  - destruct (ascii_dec c a) as [H | _]; [contradiction | reflexivity].
Qed.

Lemma includes_nil (c : ascii) :
  includes EmptyString (String c EmptyString) = false.
Proof. reflexivity. Qed.

Lemma split_not_nil (sep : ascii) (s : string) : split sep s ≠ [].
Proof.
  induction s as [| c s IH]; simpl; [discriminate |].
  destruct (Ascii.eqb c sep); [discriminate |].
  destruct (split sep s); discriminate.
Qed.

Lemma split_pieces (sep : ascii) (s piece : string) :
  piece ∈ split sep s → includes piece (String sep EmptyString) = false.
Proof.
  revert piece. induction s as [| c s IH]; simpl; intros piece Hin.
  - apply list_elem_of_singleton in Hin as ->. reflexivity.
  - destruct (Ascii.eqb_spec c sep) as [-> | Hne].
    + apply elem_of_cons in Hin as [-> | Hin]; [reflexivity | apply IH, Hin].
    + destruct (split sep s) as [| p ps] eqn:Es.
      * apply list_elem_of_singleton in Hin as ->.
        rewrite includes_cons, includes_nil.
        destruct (Ascii.eqb_spec sep c); [congruence | reflexivity].
      * apply elem_of_cons in Hin as [-> | Hin].
        -- rewrite includes_cons, IH by left.
           destruct (Ascii.eqb_spec sep c); [congruence | reflexivity].
        -- apply IH. right. exact Hin.
Qed.

Lemma trimStart_includes (c : ascii) (s : string) :
  includes s (String c EmptyString) = false →
  includes (trimStart s) (String c EmptyString) = false.
Proof.
  induction s as [| a s IH]; [auto |].
  intros H. cbn [trimStart]. destruct (is_space a); [| exact H].
  apply IH. rewrite includes_cons in H. apply orb_false_iff in H. apply H.
Qed.

Lemma trimEnd_includes (c : ascii) (s : string) :
  includes s (String c EmptyString) = false →
  includes (trimEnd s) (String c EmptyString) = false.
Proof.
  induction s as [| a s IH]; [auto |].
  intros H. rewrite includes_cons in H. apply orb_false_iff in H as [Ha Hs].
  cbn [trimEnd]. destruct (is_space a && String.eqb (trimEnd s) "");
    [reflexivity |].
  rewrite includes_cons, Ha. apply IH, Hs.
Qed.

Lemma trimEnd_idem (s : string) : trimEnd (trimEnd s) = trimEnd s.
Proof.
  induction s as [| a s IH]; [reflexivity |].
  cbn [trimEnd].
  destruct (is_space a && String.eqb (trimEnd s) "") eqn:E; [reflexivity |].
  cbn [trimEnd]. rewrite IH, E. reflexivity.
Qed.

Lemma trimStart_trimEnd (s : string) :
  trimStart s = s → trimStart (trimEnd s) = trimEnd s.
Proof.
  destruct s as [| a s]; [reflexivity |].
  cbn [trimStart trimEnd]. destruct (is_space a) eqn:Ea.
  - intros H. exfalso.
    assert (Hlen : ∀ x, String.length (trimStart x) <= String.length x).
    { induction x as [| b x IHx]; simpl; [lia |].
      destruct (is_space b); simpl; lia. }
    pose proof (Hlen s) as Hl. rewrite H in Hl. simpl in Hl. lia.
  - intros _. simpl. rewrite Ea. reflexivity.
Qed.

Lemma trimStart_idem (s : string) : trimStart (trimStart s) = trimStart s.
Proof.
  induction s as [| a s IH]; [reflexivity |].
  cbn [trimStart]. destruct (is_space a) eqn:Ea; [exact IH |].
  cbn [trimStart]. rewrite Ea. reflexivity.
Qed.

Lemma trim_idem (s : string) : trim (trim s) = trim s.
Proof.
  unfold trim.
  rewrite (trimStart_trimEnd (trimStart s)) by apply trimStart_idem.
  apply trimEnd_idem.
Qed.

(** X7. The tags cut out of a comma-separated text (for a new event,
    for the category and for the badge of an event) are clean: none is
    empty, none has white space at either end, none contains a comma. *)
Theorem tags_are_clean (csv t : string) :
  t ∈ tags csv →
  t ≠ "" ∧ trim t = t ∧ includes t "," = false.
Proof.
  unfold tags. intros Hin.
  apply list_elem_of_In, filter_In in Hin as [Hin Hne].
  apply in_map_iff in Hin as (piece & <- & Hp).
  apply list_elem_of_In in Hp.
  split; [| split].
  - intros E. rewrite E in Hne. discriminate Hne.
  - apply trim_idem.
  - unfold trim. apply trimEnd_includes, trimStart_includes.
    exact (split_pieces _ _ _ Hp).
Qed.

Lemma tags_are_clean_witness :
  "candles" ≠ "" ∧ trim "candles" = "candles" ∧ includes "candles" "," = false.
Proof.
  apply (tags_are_clean " home decor ,, candles ,").
  apply list_elem_of_lookup. exists 1%nat. reflexivity.
Defined.

End Strings.

Section HeaderNames.
Import Header.

(** X8. The name the header shows next to the avatar never contains an
    at sign: it is the part of the e-mail in front of the first one, the
    whole e-mail when there is none, and User for an empty e-mail. *)
Theorem username_has_no_at (userEmail : string) :
  Str.includes (username userEmail) "@" = false
  ∧ (Str.includes userEmail "@" = false → userEmail ≠ "" →
     username userEmail = userEmail)
  ∧ username "" = "User"
  ∧ (∀ name domain, Str.includes name "@" = false →
       username (name ++ String "@" domain) = name).
Proof.
  split; [| split; [| split; [reflexivity |]]].
  - unfold username.
    destruct (Str.includes userEmail "@") eqn:E.
    + pose proof (split_not_nil "@" userEmail) as Hne.
      destruct (Str.split "@" userEmail) as [| p ps] eqn:Es; [contradiction |].
      simpl hd. apply (split_pieces "@" userEmail). rewrite Es. left.
    + destruct (String.eqb userEmail ""); [reflexivity | exact E].
  - intros E Hne. unfold username. rewrite E.
    apply String.eqb_neq in Hne. rewrite Hne. reflexivity.
  - intros name domain Hname. unfold username.
    assert (Hin : Str.includes (name ++ String "@" domain) "@" = true).
    { clear Hname. induction name as [| c name IH].
      - change ("" ++ String "@" domain) with (String "@" domain).
        rewrite includes_cons. reflexivity.
      - change (String c name ++ String "@" domain)
          with (String c (name ++ String "@" domain)).
        rewrite includes_cons, IH. apply orb_true_r. }
    rewrite Hin. clear Hin.
    induction name as [| c name IH].
    + reflexivity.
    + change (String c name ++ String "@" domain)
        with (String c (name ++ String "@" domain)).
      rewrite includes_cons in Hname. apply orb_false_iff in Hname as [Hc Hn].
      cbn [Str.split].
      assert (Hc' : Ascii.eqb c "@" = false).
      { rewrite Ascii.eqb_sym. exact Hc. }
      rewrite Hc'.
      specialize (IH Hn).
      pose proof (split_not_nil "@" (name ++ String "@" domain)) as Hne.
      destruct (Str.split "@" (name ++ String "@" domain)) as [| p ps];
        [contradiction |].
      simpl in IH. simpl. rewrite IH. reflexivity.
Qed.

End HeaderNames.

Section Handoff.
Import EventDetail BookingFlow.

(** X9. What is selected is what is reviewed: if [onSelectTier] calls
    [onBookStall] for a card, the card is not disabled and has a stall,
    and the mount of [BookingFlow] on the storage it leaves loads a draft
    with the resolved event, that stall, the name of the card and its
    price, starts at the review step and shows the price of the card as
    the total. *)
Theorem selected_tier_is_reviewed (eid : string) (c : TierCard)
    (ls ls' : Storage) (ts : list toast) :
  onSelectTier (Some eid) c ls = (ls', ts, true) →
  ∃ sid st,
    card_sampleStallId c = Some sid
    ∧ mount ls' = Mounted st
    ∧ draft st = Some (mkDraft eid sid (card_name c) (card_price c))
    ∧ step st = review
    ∧ total (totals st) = card_price c
    ∧ disabled c = false.
Proof.
  unfold onSelectTier, disabled.
  destruct (card_sampleStallId c) as [sid |]; [| intros [= _ _ H]; discriminate H].
  destruct ((0 <? card_total c)%Z && (card_available c <=? 0)%Z);
    [intros [= _ _ H]; discriminate H |].
  intros [= <- _]. exists sid. eexists. split; [reflexivity |].
  unfold mount, getItem, setItem. rewrite lookup_insert_eq.
  split; [reflexivity |]. repeat split. unfold totals. simpl. lia.
Qed.

Lemma selected_tier_is_reviewed_witness :
  ∃ sid st,
    card_sampleStallId (mkCard (byTier gold_example) "GOLD" "VIP" [] false)
    = Some sid
    ∧ mount (<["sharthi_booking_draft" :=
                 DraftJson (mkDraft "E1" "S1" "VIP" 10000)]> ∅) = Mounted st
    ∧ draft st
      = Some (mkDraft "E1" sid
                (card_name (mkCard (byTier gold_example) "GOLD" "VIP" [] false))
                (card_price (mkCard (byTier gold_example) "GOLD" "VIP" [] false)))
    ∧ step st = review
    ∧ total (totals st)
      = card_price (mkCard (byTier gold_example) "GOLD" "VIP" [] false)
    ∧ disabled (mkCard (byTier gold_example) "GOLD" "VIP" [] false) = false.
Proof.
  apply (selected_tier_is_reviewed "E1"
           (mkCard (byTier gold_example) "GOLD" "VIP" [] false) ∅ _ []).
  reflexivity.
Defined.

(** X10. [handlePayment] without a stored token sends no request and
    changes neither the state nor the storage; and once both requests of
    a payment have returned, the mount of [BookingFlow] on the storage
    left behind finds no draft, so a reload of the booking page cannot
    book the same stall again. *)
Theorem payment_needs_token_and_clears_draft (payNet bookNet : fetched)
    (st : State) (ls : Storage) :
  let out := handlePayment payNet bookNet st ls in
  (getToken ls = None →
   out_calls out = [] ∧ out_storage out = ls ∧ out_state out = st)
  ∧ (both_succeeded (out_calls out) = true →
     mount (out_storage out) = NoStall).
Proof.
  unfold handlePayment.
  assert (Hgone : ∀ s, getItem "sharthi_booking_draft"
                    (mirror s (removeItem "sharthi_booking_draft" ls)) = None).
  { intros s. rewrite mirror_keeps_draft_key. apply lookup_delete_eq. }
  destruct (draft st) as [d |]; simpl.
  - destruct (getToken ls) as [tok |]; simpl.
    + split; [discriminate |].
      destruct (api payNet) as [[] |]; simpl; try discriminate;
        destruct (api bookNet) as [r |]; simpl; try discriminate;
        intros _; unfold mount; rewrite Hgone; reflexivity.
    + split; [intros _; repeat split | discriminate].
  - split; [intros _; repeat split | discriminate].
Qed.

End Handoff.

Section Analytics.
Import AdminDashboard.

Lemma counts_tally (bookings : list Booking) (c : Counts) :
  foldl count c bookings
  = {| paidCount :=
         paidCount c
         + Z.of_nat (length (filter (fun b => booking_status b = "paid") bookings));
       pendingCount :=
         pendingCount c
         + Z.of_nat (length (filter (fun b => booking_status b = "pending") bookings));
       cancelledCount :=
         cancelledCount c
         + Z.of_nat (length (filter (fun b => booking_status b = "cancelled") bookings));
       paidAmount :=
         paidAmount c
         + foldr (fun b t =>
                    (if String.eqb (booking_status b) "paid"
                     then num_or (booking_amount b) 0 else 0) + t) 0 bookings |}%Z.
Proof.
  revert c. induction bookings as [| b rest IH]; intros c.
  - simpl. destruct c. simpl. f_equal; lia.
  - simpl foldl. rewrite IH. unfold count.
    rewrite !filter_cons. simpl foldr.
    destruct (String.eqb_spec (booking_status b) "paid") as [E1 | E1].
    { rewrite E1. simpl. f_equal; lia. }
    destruct (String.eqb_spec (booking_status b) "pending") as [E2 | E2].
    { rewrite E2. simpl. f_equal; lia. }
    destruct (String.eqb_spec (booking_status b) "cancelled") as [E3 | E3].
    { rewrite E3. simpl. f_equal; lia. }
    rewrite !decide_False by assumption. f_equal; lia.
Qed.

(** X11. The three counters of the bookings tab count exactly the rows
    whose status is paid, pending and cancelled; together they never
    exceed the number of rows, and they add up to it exactly when every
    row has one of these three statuses. *)
Theorem counts_partition (bookings : list Booking) :
  paidCount (counts bookings)
  = Z.of_nat (length (filter (fun b => booking_status b = "paid") bookings))
  ∧ pendingCount (counts bookings)
    = Z.of_nat (length (filter (fun b => booking_status b = "pending") bookings))
  ∧ cancelledCount (counts bookings)
    = Z.of_nat (length (filter (fun b => booking_status b = "cancelled") bookings))
  ∧ (paidCount (counts bookings) + pendingCount (counts bookings)
     + cancelledCount (counts bookings) <= totalBookings bookings)%Z
  ∧ ((paidCount (counts bookings) + pendingCount (counts bookings)
      + cancelledCount (counts bookings) = totalBookings bookings)%Z
     ↔ Forall (fun b => booking_status b ∈ ["paid"; "pending"; "cancelled"])
         bookings).
Proof.
  unfold counts. rewrite counts_tally. simpl.
  split; [reflexivity |]. split; [reflexivity |]. split; [reflexivity |].
  unfold totalBookings.
  induction bookings as [| b rest [IHle IHeq]].
  - simpl. split; [lia |]. split; [constructor | reflexivity].
  - rewrite !filter_cons, Forall_cons. simpl length.
    rewrite !elem_of_cons, elem_of_nil.
    assert (Hp : ∀ (P : Booking → Prop) `{∀ x, Decision (P x)},
              (0 <= Z.of_nat (length (filter P rest)))%Z) by (intros; lia).
    destruct (decide (booking_status b = "paid")) as [E1 | E1];
      destruct (decide (booking_status b = "pending")) as [E2 | E2];
      destruct (decide (booking_status b = "cancelled")) as [E3 | E3];
      try (rewrite E1 in E2; discriminate E2);
      try (rewrite E1 in E3; discriminate E3);
      try (rewrite E2 in E3; discriminate E3);
      simpl length; (split; [lia |]); rewrite <- IHeq; split;
      try (intros H; split; [tauto | lia]);
      try (intros [_ H]; lia).
    + intros H. exfalso. lia.
    + intros [[H | [H | [H | []]]] _]; contradiction.
Qed.

End Analytics.

Section Moderation.
Import AdminDashboard.

Lemma elem_of_without {A} `{HasId A} (id : string) (rows : list A) (r : A) :
  r ∈ without id rows ↔ r ∈ rows ∧ id_of r ≠ id.
Proof. unfold without. rewrite list_elem_of_filter. tauto. Qed.

Lemma without_sublist {A} `{HasId A} (id : string) (rows : list A) :
  without id rows `sublist_of` rows.
Proof. apply sublist_filter. Qed.

Ltac queue_cases ls net :=
  destruct (getToken ls) as [tok |]; [destruct (jsonFetch net) as [res |] |];
  simpl.

(** X12. The three moderation handlers of the admin dashboard (events,
    KYC, disputes) send no request without a stored token; when there is
    no token or the request fails they leave the queue as it was and raise
    an error notice; when the request succeeds the queue afterwards holds
    exactly the rows of before whose id differs from the one handled, in
    their order. *)
Theorem moderation_removes_only_the_row (id : string) (net : fetched)
    (ls : Storage) :
  (∀ action rows,
     let out := handleReviewEvent id action net ls rows in
     (sent out = false ↔ getToken ls = None)
     ∧ (getToken ls = None ∨ jsonFetch net = None →
        rows_after out = rows ∧ notices out = [ToastError])
     ∧ (getToken ls ≠ None → jsonFetch net ≠ None →
        ∀ r, r ∈ rows_after out ↔ r ∈ rows ∧ ae_id r ≠ id)
     ∧ rows_after out `sublist_of` rows)
  ∧ (∀ action rows,
       let out := handleKycAction id action net ls rows in
       (sent out = false ↔ getToken ls = None)
       ∧ (getToken ls = None ∨ jsonFetch net = None →
          rows_after out = rows ∧ notices out = [ToastError])
       ∧ (getToken ls ≠ None → jsonFetch net ≠ None →
          ∀ r, r ∈ rows_after out ↔ r ∈ rows ∧ kyc_id r ≠ id)
       ∧ rows_after out `sublist_of` rows)
  ∧ (∀ action rows,
       let out := handleDisputeAction id action net ls rows in
       (sent out = false ↔ getToken ls = None)
       ∧ (getToken ls = None ∨ jsonFetch net = None →
          rows_after out = rows ∧ notices out = [ToastError])
       ∧ (getToken ls ≠ None → jsonFetch net ≠ None →
          ∀ r, r ∈ rows_after out ↔ r ∈ rows ∧ dispute_id r ≠ id)
       ∧ rows_after out `sublist_of` rows).
Proof.
  split; [| split]; intros action rows;
    unfold handleReviewEvent, handleKycAction, handleDisputeAction;
    queue_cases ls net;
    (split; [split; intros H; discriminate H || reflexivity |]);
    (split; [intros [H | H]; try discriminate H; split; reflexivity |]);
    (split; [intros H1 H2; try contradiction;
             intros r; apply elem_of_without
            | try reflexivity; apply without_sublist]).
Qed.

Lemma map_with_status_other (id : string) (s : BookingStatus)
    (rows : list AdminBookingRow) :
  id ∉ List.map abr_id rows →
  List.map (fun b => if String.eqb (abr_id b) id then with_status b s else b) rows
  = rows.
Proof.
  induction rows as [| b rest IH]; intros Hid; [reflexivity |].
  simpl in *. rewrite not_elem_of_cons in Hid. destruct Hid as [Hb Hrest].
  destruct (String.eqb_spec (abr_id b) id) as [E | E]; [congruence |].
  rewrite IH by exact Hrest. reflexivity.
Qed.

(** X13. [updateBookingStatus] of the admin dashboard keeps the ids and
    the order of the rows; without a token or when the request fails the
    rows are unchanged; on success each row with the id gets the new
    status in both status fields and every other row is kept; rows whose
    status is the lower-case form of their raw status stay so; and an
    updated row always has one of the three statuses the analytics
    count. *)
Theorem update_booking_status_rows (id : string) (newStatus : BookingStatus)
    (net : fetched) (ls : Storage) (rows : list AdminBookingRow) :
  let out := updateBookingStatus id newStatus net ls rows in
  List.map abr_id (rows_after out) = List.map abr_id rows
  ∧ (getToken ls = None ∨ jsonFetch net = None →
     rows_after out = rows ∧ notices out = [ToastError])
  ∧ (getToken ls ≠ None → jsonFetch net ≠ None →
     ∀ i b, rows !! i = Some b →
       rows_after out !! i
       = Some (if String.eqb (abr_id b) id then with_status b newStatus else b))
  ∧ (Forall (fun b => abr_status b = toLowerCase (abr_rawStatus b)) rows →
     Forall (fun b => abr_status b = toLowerCase (abr_rawStatus b))
       (rows_after out))
  ∧ (getToken ls ≠ None → jsonFetch net ≠ None →
     ∀ b, b ∈ rows_after out → abr_id b = id →
       booking_status (row_booking b) ∈ ["paid"; "pending"; "cancelled"]).
Proof.
  unfold updateBookingStatus. queue_cases ls net.
  - split.
    { rewrite List.map_map. apply List.map_ext. intros b.
      destruct (String.eqb (abr_id b) id); reflexivity. }
    split; [intros [H | H]; discriminate H |].
    split.
    { intros _ _ i b Hi.
      change (List.map ?f rows) with (f <$> rows).
      rewrite list_lookup_fmap, Hi. reflexivity. }
    split.
    { intros Hall. apply Forall_forall. intros b Hb.
      apply list_elem_of_In, List.in_map_iff in Hb as (b0 & <- & Hb0).
      destruct (String.eqb (abr_id b0) id).
      - destruct newStatus; reflexivity.
      - rewrite Forall_forall in Hall. apply Hall, list_elem_of_In, Hb0. }
    intros _ _ b Hb Hid.
    apply list_elem_of_In, List.in_map_iff in Hb as (b0 & <- & Hb0).
    destruct (String.eqb_spec (abr_id b0) id) as [E | E].
    + destruct newStatus; simpl; set_solver.
    + contradiction.
  - split; [reflexivity |]. split; [intros _; split; reflexivity |].
    split; [intros _ H; contradiction |]. split; [auto |].
    intros _ H; contradiction.
  - split; [reflexivity |]. split; [intros _; split; reflexivity |].
    split; [intros H; contradiction |]. split; [auto |].
    intros H; contradiction.
Qed.

(** X14. Marking a booking as paid moves it in the analytics: for rows
    with distinct ids, a successful update of a row that was not paid
    raises the paid count by one and the paid amount by the amount of the
    row, takes the row out of the pending or cancelled count it was in,
    and leaves the number of bookings unchanged. *)
Theorem mark_paid_moves_one_booking (id : string) (net : fetched)
    (ls : Storage) (rows : list AdminBookingRow) (b : AdminBookingRow) :
  NoDup (List.map abr_id rows) →
  b ∈ rows → abr_id b = id → abr_status b ≠ "paid" →
  getToken ls ≠ None → jsonFetch net ≠ None →
  let after :=
    List.map row_booking (rows_after (updateBookingStatus id PAID net ls rows)) in
  let before := List.map row_booking rows in
  paidCount (counts after) = (paidCount (counts before) + 1)%Z
  ∧ paidAmount (counts after)
    = (paidAmount (counts before) + num_or (abr_amount b) 0)%Z
  ∧ totalBookings after = totalBookings before
  ∧ (pendingCount (counts after)
     = pendingCount (counts before)
       - (if String.eqb (abr_status b) "pending" then 1 else 0))%Z
  ∧ (cancelledCount (counts after)
     = cancelledCount (counts before)
       - (if String.eqb (abr_status b) "cancelled" then 1 else 0))%Z.
Proof.
  intros Hnd Hb Hid Hnp Htok Hnet.
  unfold updateBookingStatus.
  destruct (getToken ls) as [tok |]; [| contradiction].
  destruct (jsonFetch net) as [res |]; [| contradiction].
  cbn [rows_after].
  apply list_elem_of_split in Hb as (l1 & l2 & ->).
  rewrite List.map_app in Hnd. simpl in Hnd.
  apply NoDup_app in Hnd as (Hnd1 & Hdisj & Hnd2).
  apply NoDup_cons in Hnd2 as [Hnot2 _].
  assert (Hnot1 : id ∉ List.map abr_id l1).
  { intros Hin. apply (Hdisj _ Hin). rewrite Hid. left. }
  rewrite Hid in Hnot2.
  rewrite List.map_app. simpl List.map.
  rewrite (map_with_status_other id PAID l1 Hnot1).
  rewrite (map_with_status_other id PAID l2 Hnot2).
  rewrite (proj2 (String.eqb_eq _ _) Hid).
  unfold counts, totalBookings. rewrite !counts_tally.
  rewrite !List.map_app. simpl List.map.
  rewrite !filter_app, !filter_cons, !length_app, !foldr_app. simpl.
  apply String.eqb_neq in Hnp. rewrite Hnp.
  assert (Hacc : ∀ (l : list Booking) z,
            foldr (fun b0 t =>
                     ((if String.eqb (booking_status b0) "paid"
                       then num_or (booking_amount b0) 0 else 0) + t)%Z) z l
            = (foldr (fun b0 t =>
                        ((if String.eqb (booking_status b0) "paid"
                          then num_or (booking_amount b0) 0 else 0) + t)%Z) 0%Z l
               + z)%Z).
  { induction l as [| x l IH]; intros z; simpl; [lia |]. rewrite IH. lia. }
  rewrite (Hacc _ (_ + _)%Z). rewrite (Hacc (List.map row_booking l1) (0 + _)%Z).
  apply String.eqb_neq in Hnp.
  destruct (decide (abr_status b = "paid")) as [E | _]; [contradiction |].
  destruct (decide (abr_status b = "pending")) as [E2 | E2];
    destruct (decide (abr_status b = "cancelled")) as [E3 | E3];
    try (rewrite E2 in E3; discriminate E3);
    try rewrite (proj2 (String.eqb_eq _ _) E2);
    try rewrite (proj2 (String.eqb_neq _ _) E2);
    try rewrite (proj2 (String.eqb_eq _ _) E3);
    try rewrite (proj2 (String.eqb_neq _ _) E3);
    simpl length; repeat split; lia.
Qed.

Lemma mark_paid_moves_one_booking_witness :
  let rows :=
    [mkAdminBookingRow "B1" "PENDING" "pending" 8000 None "" "Asha"
       "asha@example.com" "Crafts Fair" None "P-1" "SILVER";
     mkAdminBookingRow "B2" "PAID" "paid" 5000 None "" "Ravi"
       "ravi@example.com" "Crafts Fair" None "B-4" "BRONZE"] in
  let ls : Storage := {[ "jwt" := Text "t0k" ]} in
  let after :=
    List.map row_booking
      (rows_after (updateBookingStatus "B1" PAID (Response true None) ls rows)) in
  let before := List.map row_booking rows in
  paidCount (counts after) = (paidCount (counts before) + 1)%Z
  ∧ paidAmount (counts after) = (paidAmount (counts before) + num_or 8000 0)%Z
  ∧ totalBookings after = totalBookings before
  ∧ (pendingCount (counts after)
     = pendingCount (counts before)
       - (if String.eqb "pending" "pending" then 1 else 0))%Z
  ∧ (cancelledCount (counts after)
     = cancelledCount (counts before)
       - (if String.eqb "pending" "cancelled" then 1 else 0))%Z.
Proof.
  apply (mark_paid_moves_one_booking "B1" (Response true None)
           {[ "jwt" := Text "t0k" ]} _
           (mkAdminBookingRow "B1" "PENDING" "pending" 8000 None "" "Asha"
              "asha@example.com" "Crafts Fair" None "P-1" "SILVER")).
  - apply NoDup_cons. split.
    + intros H. apply list_elem_of_singleton in H. discriminate H.
    + apply NoDup_singleton.
  - left.
  - reflexivity.
  - discriminate.
  - discriminate.
  - discriminate.
Defined.

End Moderation.

Section AdminGate.
Import Effects Effects.AdminDashboard.

(** X15. The admin role check fails closed: whenever the dashboard sets
    [isAdmin], a token is stored and [/auth/me] answered with a body whose
    role spells ADMIN; while the dashboard stays mounted these two
    conditions are also enough, and [authChecked] is set in every case;
    without a stored token no request is sent at all. *)
Theorem role_check_fails_closed (ls : Storage) (net : string → fetched) :
  (∀ alive,
     Did (SetState "isAdmin") ∈ run cleanup net alive fresh (roleCheck ls) →
     getToken ls ≠ None
     ∧ ∃ res, AdminDashboard.jsonFetch (net "/auth/me") = Some res
              ∧ rawRole res = "ADMIN")
  ∧ (getToken ls ≠ None →
     (∃ res, AdminDashboard.jsonFetch (net "/auth/me") = Some res
             ∧ rawRole res = "ADMIN") →
     Did (SetState "isAdmin") ∈ run cleanup net None fresh (roleCheck ls))
  ∧ Did (SetState "authChecked") ∈ run cleanup net None fresh (roleCheck ls)
  ∧ (getToken ls = None →
     ∀ alive, Forall (fun ev => is_did ev = true)
                (run cleanup net alive fresh (roleCheck ls))).
Proof.
  unfold roleCheck.
  destruct (getToken ls) as [tok |].
  - assert (Hnull : ∀ res, rawRole res = "ADMIN" → res ≠ JNull)
      by (intros res H ->; discriminate H).
    split; [| split; [| split]].
    + intros alive Hin. split; [discriminate |].
      destruct alive as [[| n] |]; simpl in Hin;
        unfold settle in Hin; simpl in Hin;
        destruct (AdminDashboard.jsonFetch (net "/auth/me")) as [res |] eqn:Ef;
        try (destruct res);
        try (match type of Hin with
             | context [String.eqb (rawRole ?r) "ADMIN"] =>
                 destruct (String.eqb_spec (rawRole r) "ADMIN") as [E | E]
             end);
        simpl in Hin;
        repeat (apply elem_of_cons in Hin as [Hin | Hin];
                [try discriminate Hin |]);
        try (apply elem_of_nil in Hin; contradiction);
        eexists; (split; [reflexivity | exact E]).
    + intros _ (res & Ef & Hadmin). simpl. unfold settle. simpl.
      rewrite Ef. pose proof (Hnull res Hadmin) as Hn.
      destruct res; try contradiction; rewrite Hadmin; simpl;
        apply list_elem_of_lookup; exists 1%nat; reflexivity.
    + simpl. unfold settle. simpl.
      destruct (AdminDashboard.jsonFetch (net "/auth/me")) as [res |];
        try (destruct res);
        try (match goal with
             | |- context [String.eqb (rawRole ?r) "ADMIN"] =>
                 destruct (String.eqb (rawRole r) "ADMIN")
             end);
        simpl; rewrite !elem_of_cons; tauto.
    + intros H. discriminate H.
  - split; [| split; [| split]].
    + intros alive Hin. simpl in Hin.
      repeat (apply elem_of_cons in Hin as [Hin | Hin];
              [try discriminate Hin |]).
      apply elem_of_nil in Hin. contradiction.
    + intros H. contradiction.
    + simpl. rewrite !elem_of_cons. tauto.
    + intros _ alive. simpl. repeat constructor.
Qed.

(** X16. When the dashboard unmounts while [/auth/me] is in flight, the
    role check sets no state afterwards and [isAdmin] is never set; the
    request itself carries no abort signal, so the cleanup does not cancel
    it. *)
Theorem role_check_quiet_after_unmount (ls : Storage)
    (net : string → fetched) :
  Forall (fun ev => ∀ cell, ev ≠ Did (SetState cell))
    (since_unmount (run cleanup net (Some 0%nat) fresh (roleCheck ls)))
  ∧ (Did (SetState "isAdmin")
     ∉ run cleanup net (Some 0%nat) fresh (roleCheck ls))
  ∧ Forall (fun ev => ∀ url signal, ev = Requested url signal →
                      uncancelled cleanup ev = true)
      (run cleanup net (Some 0%nat) fresh (roleCheck ls)).
Proof.
  unfold roleCheck.
  destruct (getToken ls) as [tok |]; simpl; unfold settle; simpl.
  - destruct (AdminDashboard.jsonFetch (net "/auth/me")) as [res |];
      try (destruct res);
      try (match goal with
           | |- context [String.eqb (rawRole ?r) "ADMIN"] =>
               destruct (String.eqb (rawRole r) "ADMIN")
           end);
      simpl;
      (split; [repeat constructor; intros cell H; discriminate H |]);
      (split; [rewrite !elem_of_cons, elem_of_nil;
               intros H; repeat (destruct H as [H | H]; try discriminate H);
               exact H
              | repeat constructor; intros url signal H;
                try discriminate H; reflexivity]).
  - split; [constructor |].
    split; [rewrite !elem_of_cons, elem_of_nil;
            intros H; repeat (destruct H as [H | H]; try discriminate H);
            exact H
           | repeat constructor; intros url signal H; discriminate H].
Qed.

(** A check that ends after the unmount still raises its notice. *)
Example role_check_notice_after_unmount :
  since_unmount
    (run cleanup
       (fun _ => Response true (Some (JObj [("role", JStr "CREATOR")])))
       (Some 0%nat) fresh
       (roleCheck {[ "jwt" := Text "t0k" ]}))
  = [Requested "/auth/me" false; Did (Notify ToastError)].
Proof. reflexivity. Qed.

End AdminGate.

Section Charts.
Import AdminDashboard.

(** X17. The category chart always has slices and every slice has a
    colour of the palette: with insights the slices carry their labels
    and revenues in order and the five colours repeat with period five;
    without insights the fallback data is shown. *)
Theorem category_chart_is_coloured (categoryInsights : list CategoryInsight) :
  categoryChartData categoryInsights ≠ []
  ∧ Forall (fun s => ∃ colour, slice_color s = Some colour
                               ∧ colour ∈ CATEGORY_COLORS)
      (categoryChartData categoryInsights)
  ∧ (categoryInsights ≠ [] →
     List.map slice_name (categoryChartData categoryInsights)
     = List.map ci_label categoryInsights
     ∧ List.map slice_value (categoryChartData categoryInsights)
       = List.map ci_gmv categoryInsights
     ∧ ∀ i s s', categoryChartData categoryInsights !! i = Some s →
                 categoryChartData categoryInsights !! (i + 5)%nat = Some s' →
                 slice_color s' = slice_color s).
Proof.
  unfold categoryChartData.
  destruct categoryInsights as [| c rest].
  - simpl. split; [discriminate |]. split; [| intros H; contradiction].
    repeat constructor; eexists; (split; [reflexivity |]);
      unfold CATEGORY_COLORS; set_solver.
  - change (0 <? length (c :: rest))%nat with true. cbv iota.
    set (l := c :: rest).
    split; [discriminate |]. split.
    + apply Forall_lookup. intros i s Hs.
      rewrite list_lookup_imap in Hs.
      destruct (l !! i) as [x |]; [| discriminate Hs].
      injection Hs as <-. simpl.
      assert (Hlt : (i mod length CATEGORY_COLORS < length CATEGORY_COLORS)%nat)
        by (apply Nat.mod_upper_bound; discriminate).
      destruct (lookup_lt_is_Some_2 _ _ Hlt) as [colour Hc].
      exists colour. split; [exact Hc |].
      apply list_elem_of_lookup. exists (i mod length CATEGORY_COLORS)%nat.
      exact Hc.
    + intros _. split; [| split].
      * apply list_eq. intros i.
        change (List.map ?f ?x) with (f <$> x).
        rewrite !list_lookup_fmap, list_lookup_imap.
        destruct (l !! i); reflexivity.
      * apply list_eq. intros i.
        change (List.map ?f ?x) with (f <$> x).
        rewrite !list_lookup_fmap, list_lookup_imap.
        destruct (l !! i); reflexivity.
      * intros i s s'. rewrite !list_lookup_imap.
        destruct (l !! i) as [x |]; [| discriminate].
        destruct (l !! (i + 5)%nat) as [y |]; [| discriminate].
        intros [= <-] [= <-]. cbn [slice_color].
        change (CATEGORY_COLORS !! ((i + 1 * 5) mod 5)%nat
                = CATEGORY_COLORS !! (i mod 5)%nat).
        rewrite Nat.Div0.mod_add. reflexivity.
Qed.

End Charts.

Section Search.
Import SearchPage.

Lemma filter_sublist {A} (f : A → bool) (l : list A) :
  List.filter f l `sublist_of` l.
Proof.
  induction l as [| x l IH]; simpl; [constructor |].
  destruct (f x); [apply sublist_skip | apply sublist_cons]; exact IH.
Qed.

(** X18. The client-side filter of the search page only narrows: the
    events shown are a sublist of the loaded ones, each lies within the
    price range and would also be shown for an empty query; a query of
    white space alone shows exactly the events within the price range;
    and an event in range whose title contains the query is shown. *)
Theorem filtered_events_sound (searchQuery : string) (priceRange : Z * Z)
    (events : list CardEvent) :
  filteredEvents searchQuery priceRange events `sublist_of` events
  ∧ (∀ e, e ∈ filteredEvents searchQuery priceRange events →
          (priceRange.1 <= ce_priceFrom e <= priceRange.2)%Z
          ∧ e ∈ filteredEvents "" priceRange events)
  ∧ (Str.trim searchQuery = "" →
     ∀ e, e ∈ filteredEvents searchQuery priceRange events
          ↔ e ∈ events ∧ (priceRange.1 <= ce_priceFrom e <= priceRange.2)%Z)
  ∧ (∀ e, e ∈ events →
          (priceRange.1 <= ce_priceFrom e <= priceRange.2)%Z →
          Str.includes (toLowerCase (ce_title e))
            (toLowerCase (Str.trim searchQuery)) = true →
          e ∈ filteredEvents searchQuery priceRange events).
Proof.
  unfold filteredEvents.
  assert (Hrange : ∀ q e, matches q priceRange e = true →
            (priceRange.1 <= ce_priceFrom e <= priceRange.2)%Z).
  { intros q e H. unfold matches in H.
    apply andb_true_iff in H as [_ H]. apply andb_true_iff in H as [H1 H2].
    lia. }
  assert (Hblank : ∀ e, matches "" priceRange e = true
            ↔ (priceRange.1 <= ce_priceFrom e <= priceRange.2)%Z).
  { intros e. unfold matches. simpl.
    rewrite andb_true_iff, !Z.leb_le. tauto. }
  split; [apply filter_sublist |]. split; [| split].
  - intros e He. apply list_elem_of_In, filter_In in He as [He Hm].
    split; [exact (Hrange _ _ Hm) |].
    apply list_elem_of_In, filter_In. split; [exact He |].
    apply Hblank, (Hrange _ _ Hm).
  - intros Hq e. rewrite Hq. simpl toLowerCase.
    rewrite list_elem_of_In, filter_In, Hblank, <- list_elem_of_In. tauto.
  - intros e He Hp Ht. apply list_elem_of_In, filter_In.
    split; [apply list_elem_of_In, He |].
    unfold matches. rewrite Ht, orb_true_r. simpl.
    apply andb_true_iff. rewrite !Z.leb_le. exact Hp.
Qed.

(** X19. The search ignores the case of the query: two queries with the
    same lower-case form show the same events. *)
Theorem filtered_events_ignore_case (q q' : string) (priceRange : Z * Z)
    (events : list CardEvent) :
  toLowerCase q' = toLowerCase q →
  filteredEvents q' priceRange events = filteredEvents q priceRange events.
Proof.
  intros H. unfold filteredEvents.
  rewrite <- !trim_lower, H. reflexivity.
Qed.

Lemma filtered_events_ignore_case_witness :
  filteredEvents " CRAFTS " (0%Z, 15000%Z)
    [mkCardEvent "E1" "Delhi Crafts Fair" "" "" "Delhi" "Crafts" 4 5000 0;
     mkCardEvent "E2" "Food Walk" "" "" "Mumbai" "Food" 2 900 0]
  = filteredEvents " crafts " (0%Z, 15000%Z)
      [mkCardEvent "E1" "Delhi Crafts Fair" "" "" "Delhi" "Crafts" 4 5000 0;
       mkCardEvent "E2" "Food Walk" "" "" "Mumbai" "Food" 2 900 0].
Proof. apply filtered_events_ignore_case. reflexivity. Defined.

Lemma min_of_le (p : Z) (prices : list Z) :
  (min_of p prices <= p)%Z ∧ ∀ x, x ∈ prices → (min_of p prices <= x)%Z.
Proof.
  unfold min_of. revert p. induction prices as [| y ys IH]; intros p; simpl.
  - split; [lia |]. intros x Hx. apply elem_of_nil in Hx. contradiction.
  - destruct (IH (Z.min p y)) as [H1 H2]. split; [lia |].
    intros x Hx. apply elem_of_cons in Hx as [-> | Hx]; [lia | apply H2, Hx].
Qed.

Lemma min_of_attained (p : Z) (prices : list Z) :
  min_of p prices = p ∨ min_of p prices ∈ prices.
Proof.
  unfold min_of. revert p. induction prices as [| y ys IH]; intros p; simpl.
  - left. reflexivity.
  - destruct (IH (Z.min p y)) as [H | H].
    + rewrite H. destruct (Z.min_spec p y) as [[_ ->] | [_ ->]];
        [left; reflexivity | right; left].
    + right. right. exact H.
Qed.

(** X20. The price of a card is the price of its cheapest stall: 0
    without stalls, otherwise the price of one of the stalls and no more
    than the price of any; the stalls available are the sum of the
    quantities left. *)
Theorem price_from_is_cheapest (stalls : list Stall) :
  (stalls = [] → priceFrom stalls = 0%Z)
  ∧ (∀ s, s ∈ stalls → (priceFrom stalls <= stall_price s)%Z)
  ∧ (stalls ≠ [] → ∃ s, s ∈ stalls ∧ priceFrom stalls = stall_price s)
  ∧ stallsAvailable stalls = sum_of stall_qtyLeft stalls.
Proof.
  pose proof num_or_zero as Hnum.
  split; [intros ->; reflexivity |]. split; [| split].
  - unfold priceFrom. destruct stalls as [| s0 rest]; simpl.
    + intros s Hs. apply elem_of_nil in Hs. contradiction.
    + intros s Hs. rewrite Hnum.
      destruct (min_of_le (stall_price s0)
                  (List.map (fun s => num_or (stall_price s) 0) rest)) as [H1 H2].
      apply elem_of_cons in Hs as [-> | Hs]; [exact H1 |].
      apply H2. apply list_elem_of_In, in_map_iff. exists s.
      split; [apply Hnum | apply list_elem_of_In, Hs].
  - intros Hne. unfold priceFrom. destruct stalls as [| s0 rest];
      [contradiction |]. simpl. rewrite Hnum.
    destruct (min_of_attained (stall_price s0)
                (List.map (fun s => num_or (stall_price s) 0) rest)) as [H | H].
    + exists s0. split; [left | exact H].
    + apply list_elem_of_In, in_map_iff in H as (s & Hs & Hin).
      exists s. split; [right; apply list_elem_of_In, Hin |].
      rewrite <- Hs. apply Hnum.
  - unfold stallsAvailable, sum_of.
    assert (Hacc : ∀ l z,
      foldl (fun sum s => (sum + num_or (stall_qtyLeft s) 0)%Z) z l
      = (z + foldr (fun s t => (stall_qtyLeft s + t)%Z) 0%Z l)%Z).
    { induction l as [| s l IH]; intros z; simpl; [lia |].
      rewrite IH, Hnum. lia. }
    rewrite Hacc. lia.
Qed.

(** X21. [guessCategory] always yields a label: never the empty text,
    General without a tag, and otherwise one of the six categories or
    the first tag itself; tags that differ only in case get the same
    category, or both are shown as they are. *)
Theorem guess_category_labels (csv : option string) :
  guessCategory csv ≠ ""
  ∧ (guessCategory csv
     ∈ ["Crafts"; "Beauty"; "Art"; "Home Decor"; "Food"; "Fashion"; "General"]
     ∨ guessCategory csv = firstTag csv)
  ∧ (firstTag csv = "" → guessCategory csv = "General")
  ∧ (∀ csv', toLowerCase (firstTag csv') = toLowerCase (firstTag csv) →
             guessCategory csv' = guessCategory csv
             ∨ guessCategory csv' = firstTag csv'
               ∧ guessCategory csv = firstTag csv).
Proof.
  unfold guessCategory.
  split; [| split; [| split]].
  - repeat (match goal with
            | |- context [if ?b then _ else _] => destruct b eqn:?
            end; try discriminate).
    intros E. rewrite E in *. discriminate.
  - repeat (match goal with
            | |- context [if ?b then _ else _] => destruct b eqn:?
            end; try (left; set_solver)).
    right. reflexivity.
  - intros ->. reflexivity.
  - intros csv' H. rewrite H.
    assert (He : String.eqb (firstTag csv') "" = String.eqb (firstTag csv) "").
    { rewrite <- (toLowerCase_empty (firstTag csv')), H.
      apply toLowerCase_empty. }
    rewrite He.
    repeat (match goal with
            | |- context [if ?b then _ else _] => destruct b eqn:?
            end; try (left; reflexivity)).
    right. split; reflexivity.
Qed.

End Search.

Section Organizer.
Import OrganizerDashboard.
Local Open Scope Z_scope.

Lemma total_acc (data : list Stall) (z : Z) :
  foldl (fun sum s => sum + num_or (stall_qtyTotal s) 0) z data
  = z + total data.
Proof.
  unfold total. revert z. induction data as [| s l IH]; intros z; simpl; [lia |].
  rewrite IH, (IH (0 + _)). lia.
Qed.

Lemma sold_acc (data : list Stall) (z : Z) :
  foldl (fun sum s => sum + soldOf s) z data = z + sold data.
Proof.
  unfold sold. revert z. induction data as [| s l IH]; intros z; simpl; [lia |].
  rewrite IH, (IH (0 + _)). lia.
Qed.

Lemma revenue_acc (data : list Stall) (z : Z) :
  foldl (fun sum s => sum + num_or (stall_price s) 0 * soldOf s) z data
  = z + revenue data.
Proof.
  unfold revenue. revert z. induction data as [| s l IH]; intros z; simpl; [lia |].
  rewrite IH, (IH (0 + _)). lia.
Qed.

Lemma stall_aggregates (data : list Stall) :
  0 <= sold data
  ∧ (Forall (fun s => 0 <= stall_qtyLeft s ∧ 0 <= stall_qtyTotal s) data →
     sold data <= total data)
  ∧ (Forall (fun s => 0 <= stall_qtyLeft s <= stall_qtyTotal s) data →
     sold data = total data - sum_of stall_qtyLeft data)
  ∧ (Forall (fun s => 0 <= stall_price s) data → 0 <= revenue data).
Proof.
  induction data as [| s l (IH1 & IH2 & IH3 & IH4)].
  - repeat split; intros; reflexivity.
  - assert (Es : sold (s :: l) = soldOf s + sold l)
      by (unfold sold at 1; simpl; rewrite sold_acc; lia).
    assert (Et : total (s :: l) = stall_qtyTotal s + total l)
      by (unfold total at 1; simpl; rewrite total_acc, num_or_zero; lia).
    assert (Er : revenue (s :: l) = stall_price s * soldOf s + revenue l)
      by (unfold revenue at 1; simpl; rewrite revenue_acc, num_or_zero; lia).
    assert (Eo : soldOf s = Z.max 0 (stall_qtyTotal s - stall_qtyLeft s))
      by (unfold soldOf; rewrite !num_or_zero; reflexivity).
    rewrite Es, Et, Er. simpl sum_of.
    split; [lia |]. split; [| split].
    + intros H. apply Forall_cons in H as [Hs Hl]. specialize (IH2 Hl). lia.
    + intros H. apply Forall_cons in H as [Hs Hl]. specialize (IH3 Hl). lia.
    + intros H. apply Forall_cons in H as [Hs Hl]. specialize (IH4 Hl).
      assert (0 <= stall_price s * soldOf s)
        by (apply Z.mul_nonneg_nonneg; lia).
      lia.
Qed.

(** X22. [refreshStalls] touches one card only: with the stalls loaded,
    ids and order of the cards are kept and every card of another event
    is unchanged; on the card of the event the stalls sold are never
    negative, never above the total when no quantity is negative, equal
    to the total less the quantities left when each quantity left lies
    between 0 and its total, and the revenue is not negative when no
    price is; a failed request leaves the cards as they were. *)
Theorem refresh_stalls_aggregates (eventId : string) (data : list Stall)
    (myEvents : list EventCard) (stalls : list Stall) :
  let out := refreshStalls eventId (StallsRows data) myEvents stalls in
  List.map ec_id (myEvents_after out) = List.map ec_id myEvents
  ∧ stalls_after out = data
  ∧ (∀ i ev, myEvents !! i = Some ev → ec_id ev ≠ eventId →
             myEvents_after out !! i = Some ev)
  ∧ (∀ ev, ev ∈ myEvents_after out → ec_id ev = eventId →
       0 <= ec_stallsSold ev
       ∧ (Forall (fun s => 0 <= stall_qtyLeft s ∧ 0 <= stall_qtyTotal s) data →
          ec_stallsSold ev <= ec_stallsTotal ev)
       ∧ (Forall (fun s => 0 <= stall_qtyLeft s <= stall_qtyTotal s) data →
          ec_stallsSold ev = ec_stallsTotal ev - sum_of stall_qtyLeft data)
       ∧ (Forall (fun s => 0 <= stall_price s) data → 0 <= ec_revenue ev))
  ∧ myEvents_after (refreshStalls eventId StallsFailed myEvents stalls) = myEvents
  ∧ myEvents_after (refreshStalls eventId StallsNull myEvents stalls) = myEvents.
Proof.
  simpl. split; [| split; [reflexivity | split; [| split]]].
  - rewrite List.map_map. apply List.map_ext. intros ev.
    destruct (String.eqb (ec_id ev) eventId); reflexivity.
  - intros i ev Hi Hne.
    change (List.map ?f myEvents) with (f <$> myEvents).
    rewrite list_lookup_fmap, Hi. simpl.
    apply String.eqb_neq in Hne. rewrite Hne. reflexivity.
  - intros ev Hin Hid.
    apply list_elem_of_In, in_map_iff in Hin as (ev0 & <- & _).
    destruct (String.eqb_spec (ec_id ev0) eventId) as [E | E];
      [| contradiction].
    simpl. apply stall_aggregates.
  - split; reflexivity.
Qed.

Lemma of_Z_nonpos_compare (z : Z) :
  z <= 0 → SFcompare (Num.of_Z 1) (Num.of_Z z) = Some Gt.
Proof.
  intros Hz. destruct z as [| p | p]; [reflexivity | lia |].
  change (Num.of_Z 1) with (S754_finite false 4503599627370496 (-52)).
  unfold Num.of_Z, binary_normalize, binary_round.
  destruct (shl_align _ _ _) as [mz ez].
  pose proof (binary_round_aux_sign true (Zpos mz) ez loc_Exact ltac:(lia)) as Hs.
  destruct (binary_round_aux _ _ _ _ _ _) as [s' | s' | | s' m' e'];
    try contradiction; subst s'; reflexivity.
Qed.

(** The denominator [Math.max(1, total)] is a finite positive number. *)
Lemma max_one_positive (z : Z) :
  z < 2 ^ 53 →
  ∃ m e, Num.max (Num.of_Z 1) (Num.of_Z z) = S754_finite false m e.
Proof.
  intros Hz. unfold Num.max.
  destruct (Z.le_gt_cases z 0) as [Hle | Hgt].
  - rewrite of_Z_nonpos_compare by exact Hle. eexists _, _. reflexivity.
  - destruct (of_Z_positive z ltac:(lia)) as (m & e & Ez). rewrite Ez.
    change (Num.of_Z 1) with (S754_finite false 4503599627370496 (-52)).
    destruct (SFcompare _ _) as [[] |] eqn:Ec; try (eexists _, _; reflexivity).
    simpl in Ec. destruct (e ?= -52); try discriminate Ec;
      destruct (Pos.compare_cont _ _ _); discriminate Ec.
Qed.

(** X23. The fill rate of an event card is never [NaN]: the divisor
    [Math.max(1, stallsTotal)] is a positive number also for a card
    without stalls (for a total below 2^53); a card with nothing sold
    shows 0. *)
Theorem fill_rate_defined (ev : EventCard) :
  ec_stallsTotal ev < 2 ^ 53 →
  Num.is_nan (fillRate ev) = false
  ∧ (ec_stallsSold ev = 0 → fillRate ev = Num.of_Z 0).
Proof.
  intros Ht. unfold fillRate.
  destruct (max_one_positive _ Ht) as (m & e & ->).
  change (Num.of_Z 100) with (S754_finite false 7036874417766400 (-46)).
  split.
  - apply round_not_nan, mul_not_nan, div_not_nan, of_Z_not_nan.
  - intros ->. reflexivity.
Qed.

Lemma fill_rate_defined_witness :
  Num.is_nan (fillRate (mkEventCard "E1" "Crafts Fair" "" "Delhi" live 0 0 0 0))
  = false
  ∧ (ec_stallsSold (mkEventCard "E1" "Crafts Fair" "" "Delhi" live 0 0 0 0) = 0 →
     fillRate (mkEventCard "E1" "Crafts Fair" "" "Delhi" live 0 0 0 0)
     = Num.of_Z 0).
Proof.
  apply (fill_rate_defined (mkEventCard "E1" "Crafts Fair" "" "Delhi" live 0 0 0 0)).
  reflexivity.
Defined.

Example fill_rate_examples :
  fillRate (mkEventCard "E1" "Crafts Fair" "" "Delhi" live 3 4 0 0) = Num.of_Z 75
  ∧ fillRate (mkEventCard "E1" "Crafts Fair" "" "Delhi" live 0 0 0 0) = Num.of_Z 0
  ∧ fillRate (mkEventCard "E1" "Crafts Fair" "" "Delhi" live 29 200 0 0)
    = Num.of_Z 14.
Proof. repeat split; vm_compute; reflexivity. Qed.

(** X24. The organizer dashboard reads the token under the key jwt
    only: with a token stored under the older key alone, the rest of the
    application finds it, while the load effects of the dashboard send no
    request and raise no notice. *)
Theorem organizer_reads_jwt_only (ls : Storage) :
  item_truthy (getItem "jwt" ls) = false →
  item_truthy (getItem "sharthi_token" ls) = true →
  getToken ls ≠ None
  ∧ ∀ net alive,
      Forall (fun ev => ∃ cell, ev = Effects.Did (Effects.SetState cell))
        (Effects.run Effects.OrganizerDashboard.cleanup net alive Effects.fresh
           (Effects.OrganizerDashboard.loadEvents ls))
      ∧ Forall (fun ev => ∃ cell, ev = Effects.Did (Effects.SetState cell))
          (Effects.run Effects.OrganizerDashboard.cleanup net alive Effects.fresh
             (Effects.OrganizerDashboard.loadBookings ls)).
Proof.
  intros Hjwt Hold. split.
  - unfold getToken. rewrite Hjwt, Hold.
    destruct (getItem "sharthi_token" ls); [discriminate | discriminate Hold].
  - intros net alive.
    unfold Effects.OrganizerDashboard.loadEvents,
      Effects.OrganizerDashboard.loadBookings.
    rewrite Hjwt. simpl. split; repeat constructor; eexists; reflexivity.
Qed.

Lemma organizer_reads_jwt_only_witness :
  getToken ({[ "sharthi_token" := Text "t0k" ]} : Storage) ≠ None
  ∧ ∀ net alive,
      Forall (fun ev => ∃ cell, ev = Effects.Did (Effects.SetState cell))
        (Effects.run Effects.OrganizerDashboard.cleanup net alive Effects.fresh
           (Effects.OrganizerDashboard.loadEvents {[ "sharthi_token" := Text "t0k" ]}))
      ∧ Forall (fun ev => ∃ cell, ev = Effects.Did (Effects.SetState cell))
          (Effects.run Effects.OrganizerDashboard.cleanup net alive Effects.fresh
             (Effects.OrganizerDashboard.loadBookings {[ "sharthi_token" := Text "t0k" ]})).
Proof.
  apply organizer_reads_jwt_only; reflexivity.
Defined.

End Organizer.

Section Roster.
Import OrganizerDashboard.

Lemma append_cons (c : ascii) (s t : string) :
  String c s ++ t = String c (s ++ t).
Proof. reflexivity. Qed.

Lemma append_nil_r (s : string) : s ++ "" = s.
Proof.
  induction s as [| c s IH]; [reflexivity |].
  rewrite append_cons, IH. reflexivity.
Qed.

Lemma append_assoc (a b c : string) : (a ++ b) ++ c = a ++ (b ++ c).
Proof.
  induction a as [| x a IH]; [reflexivity |].
  rewrite !append_cons, IH. reflexivity.
Qed.

Lemma read_quoted (v field : string) (record : list string) (rest : string) :
  csvRead Quoted field record (escape v ++ String dquote rest)
  = csvRead Closing (field ++ v) record rest.
Proof.
  revert field. induction v as [| c v IH]; intros field.
  - change (escape "" ++ String dquote rest) with (String dquote rest).
    cbn [csvRead]. change (Ascii.eqb dquote dquote) with true. cbv iota.
    rewrite append_nil_r. reflexivity.
  - cbn [escape]. destruct (Ascii.eqb_spec c dquote) as [-> | Hne].
    + rewrite !append_cons. cbn [csvRead].
      change (Ascii.eqb dquote dquote) with true.
      cbv iota. change (Ascii.eqb dquote ",") with false.
      change (Ascii.eqb dquote newline) with false. cbv iota.
      rewrite IH. unfold snoc_char. rewrite append_assoc. reflexivity.
    + rewrite append_cons. cbn [csvRead].
      apply Ascii.eqb_neq in Hne. rewrite Hne.
      rewrite IH. unfold snoc_char. rewrite append_assoc. reflexivity.
Qed.

Lemma read_cell (v : string) (record : list string) (rest : string) :
  csvRead FieldStart "" record
    (String dquote (escape v ++ String dquote EmptyString) ++ rest)
  = csvRead Closing v record rest.
Proof.
  rewrite append_cons. cbn [csvRead].
  change (Ascii.eqb dquote ",") with false.
  change (Ascii.eqb dquote newline) with false.
  change (Ascii.eqb dquote dquote) with true. cbv iota.
  rewrite append_assoc. apply read_quoted.
Qed.

Lemma read_line (v : string) (vs record : list string) (rest : string) :
  csvRead FieldStart "" record
    (Str.join ","
       (List.map (fun x => String dquote (escape x ++ String dquote EmptyString))
                 (v :: vs)) ++ rest)
  = csvRead Closing (List.last (v :: vs) "")
      (record ++ List.removelast (v :: vs)) rest.
Proof.
  revert v record. induction vs as [| v' vs IH]; intros v record.
  - simpl Str.join. rewrite read_cell. simpl. rewrite app_nil_r. reflexivity.
  - change (Str.join "," (List.map ?q (v :: v' :: vs)))
      with (q v ++ "," ++ Str.join "," (List.map q (v' :: vs))).
    rewrite append_assoc, read_cell.
    change (("," ++ ?x) ++ rest) with (String "," (x ++ rest)).
    cbn [csvRead]. change (Ascii.eqb "," ",") with true. cbv iota.
    rewrite IH.
    change (List.last (v :: v' :: vs) "") with (List.last (v' :: vs) "").
    change (List.removelast (v :: v' :: vs))
      with (v :: List.removelast (v' :: vs)).
    rewrite <- app_assoc. reflexivity.
Qed.

Lemma read_lines (row : json) (rows : list json) :
  csvRead FieldStart "" []
    (Str.join (String newline EmptyString) (List.map csvLine (row :: rows)))
  = Some (List.map (fun r => List.map (cellText r) headers) (row :: rows)).
Proof.
  assert (Hline : ∀ r rest,
    csvRead FieldStart "" [] (csvLine r ++ rest)
    = csvRead Closing (cellText r "creatorEmail")
        (List.removelast (List.map (cellText r) headers)) rest).
  { intros r rest. unfold csvLine, cell.
    change (List.map (fun h => String dquote (escape (cellText r h) ++ String dquote EmptyString)) headers)
      with (List.map (fun x => String dquote (escape x ++ String dquote EmptyString))
              (cellText r "bookingId" :: List.map (cellText r) (tl headers))).
    rewrite read_line. reflexivity. }
  revert row. induction rows as [| row' rows IH]; intros row.
  - simpl Str.join. rewrite <- (append_nil_r (csvLine row)), Hline.
    reflexivity.
  - change (Str.join (String newline "") (List.map csvLine (row :: row' :: rows)))
      with (csvLine row ++ String newline
              (Str.join (String newline "") (List.map csvLine (row' :: rows)))).
    rewrite Hline. cbn [csvRead].
    change (Ascii.eqb newline ",") with false.
    change (Ascii.eqb newline newline) with true. cbv iota.
    rewrite IH. reflexivity.
Qed.

Lemma read_document (row : json) (rows : list json) :
  csvParse (csvOf (row :: rows))
  = Some (headers
          :: List.map (fun r => List.map (cellText r) headers) (row :: rows)).
Proof.
  unfold csvParse, csvOf.
  change (Str.join (String newline "")
            (Str.join "," headers :: List.map csvLine (row :: rows)))
    with (Str.join "," headers
          ++ String newline
               (Str.join (String newline "") (List.map csvLine (row :: rows)))).
  set (body := Str.join (String newline "") (List.map csvLine (row :: rows))).
  transitivity (option_map (cons headers) (csvRead FieldStart "" [] body)).
  - reflexivity.
  - unfold body. rewrite read_lines. reflexivity.
Qed.

(** X25. The roster file reads back: whenever [exportRoster] produces a
    file, the answer had a list of rows that is not empty, and a CSV
    reader gets from the text the header line followed, for each row, by
    the texts of its nine cells, whatever commas, quotes or line breaks
    the values contain. *)
Theorem roster_csv_reads_back (net : fetched) (csv : string) (ts : list toast) :
  exportRoster net = (Some csv, ts) →
  ∃ resp rows,
    jsonFetch net = Some resp
    ∧ prop resp "rows" = Some (JArr rows)
    ∧ rows ≠ []
    ∧ csvParse csv
      = Some (headers :: List.map (fun r => List.map (cellText r) headers) rows).
Proof.
  unfold exportRoster.
  destruct (jsonFetch net) as [resp |]; [| discriminate].
  unfold rosterRows.
  destruct (opt_prop (Some resp) "rows") as [[| b | n | s | rows | fields] |] eqn:E;
    try discriminate.
  - destruct (String.eqb s ""); discriminate.
  - destruct rows as [| row rows]; [discriminate |].
    destruct (existsb is_null (row :: rows)); [discriminate |].
    intros [= <- _]. exists resp, (row :: rows).
    split; [reflexivity |]. split.
    + destruct resp; try discriminate E; exact E.
    + split; [discriminate | apply read_document].
  - destruct (truthy (assoc "length" fields)); discriminate.
Qed.

Lemma roster_csv_reads_back_witness :
  ∃ resp rows,
    jsonFetch
      (Response true
         (Some (JObj [("rows",
                       JArr [JObj [("bookingId", JStr "B1");
                                   ("amount", JNum 8000);
                                   ("creatorName",
                                    JStr (String "A" (String dquote (String "," "x"))))]])])))
    = Some resp
    ∧ prop resp "rows" = Some (JArr rows)
    ∧ rows ≠ []
    ∧ csvParse
        (csvOf [JObj [("bookingId", JStr "B1");
                      ("amount", JNum 8000);
                      ("creatorName",
                       JStr (String "A" (String dquote (String "," "x"))))]])
      = Some (headers :: List.map (fun r => List.map (cellText r) headers) rows).
Proof.
  apply (roster_csv_reads_back _ _ [ToastSuccess]). reflexivity.
Defined.

End Roster.

Section Profile.
Import CreatorProfile.
Local Open Scope Z_scope.

Lemma filled_cases (s : string) :
  (filled s = 0 ∧ s = "") ∨ (filled s = 1 ∧ s ≠ "").
Proof.
  unfold filled. destruct (String.eqb_spec s ""); [left | right]; auto.
Qed.

Lemma priced_cases (p : option Z) :
  (priced p = 0 ∧ ¬ (∃ n, p = Some n ∧ 0 < n))
  ∨ (priced p = 1 ∧ ∃ n, p = Some n ∧ 0 < n).
Proof.
  unfold priced. destruct p as [n |].
  - destruct (Z.ltb_spec 0 n); [right | left]; split; try reflexivity.
    + exists n. auto.
    + intros (k & [= ->] & Hk). lia.
  - left. split; [reflexivity |]. intros (k & Hk & _). discriminate Hk.
Qed.

(** X26. The completeness of a creator profile is one of 0, 14, 29, 43,
    57, 71, 86 and 100 by the number of items filled in; it is 100
    exactly when name, phone, bio, city, both prices (positive) and a
    skill are there, and 0 exactly when none is. *)
Theorem profile_complete_values (f : Form) :
  profileComplete f
  = Num.of_Z (nth (Z.to_nat (done f)) [0; 14; 29; 43; 57; 71; 86; 100] 0)
  ∧ (profileComplete f = Num.of_Z 100
     ↔ name f ≠ "" ∧ phone f ≠ "" ∧ bio f ≠ "" ∧ city f ≠ ""
       ∧ (∃ n, minPrice f = Some n ∧ 0 < n)
       ∧ (∃ n, maxPrice f = Some n ∧ 0 < n)
       ∧ skills f ≠ [])
  ∧ (profileComplete f = Num.of_Z 0
     ↔ name f = "" ∧ phone f = "" ∧ bio f = "" ∧ city f = ""
       ∧ ¬ (∃ n, minPrice f = Some n ∧ 0 < n)
       ∧ ¬ (∃ n, maxPrice f = Some n ∧ 0 < n)
       ∧ skills f = []).
Proof.
  assert (Hs : ((if (0 <? length (skills f))%nat then 1 else 0) = 0
                ∧ skills f = [])
               ∨ ((if (0 <? length (skills f))%nat then 1 else 0) = 1
                  ∧ skills f ≠ [])).
  { destruct (skills f); [left | right]; simpl; split;
      reflexivity || discriminate. }
  unfold profileComplete, done.
  destruct (filled_cases (name f)) as [[-> H1] | [-> H1]];
    destruct (filled_cases (phone f)) as [[-> H2] | [-> H2]];
    destruct (filled_cases (bio f)) as [[-> H3] | [-> H3]];
    destruct (filled_cases (city f)) as [[-> H4] | [-> H4]];
    destruct (priced_cases (minPrice f)) as [[-> H5] | [-> H5]];
    destruct (priced_cases (maxPrice f)) as [[-> H6] | [-> H6]];
    destruct Hs as [[-> H7] | [-> H7]];
    (split; [vm_compute; reflexivity |]);
    (split; (split; [intros H; try (vm_compute in H; discriminate H);
                     repeat split; assumption
                    | intros (G1 & G2 & G3 & G4 & G5 & G6 & G7);
                      try contradiction; try congruence;
                      vm_compute; reflexivity])).
Qed.

(** X27. The skill list stays in shape: adding keeps the skills
    distinct and at most twenty, adds nothing but the trimmed input (never
    an empty one), refuses a skill that is there already, and leaves a
    full list of twenty as it is; removing a skill deletes it and nothing
    else. *)
Theorem skills_stay_distinct (newSkill s : string) (skills : list string) :
  (NoDup skills → NoDup (onAddSkill newSkill skills).1.1)
  ∧ (length skills <= 20 → length (onAddSkill newSkill skills).1.1 <= 20)%nat
  ∧ (∀ x, x ∈ (onAddSkill newSkill skills).1.1 →
          x ∈ skills ∨ (x = Str.trim newSkill ∧ x ≠ ""))
  ∧ (Str.trim newSkill ∈ skills →
     onAddSkill newSkill skills = (skills, newSkill, [ToastInfo])
     ∨ onAddSkill newSkill skills = (skills, newSkill, []))
  ∧ (length skills = 20%nat → (onAddSkill newSkill skills).1.1 = skills)
  ∧ (s ∉ onRemoveSkill s skills)
  ∧ (NoDup skills → NoDup (onRemoveSkill s skills))
  ∧ (∀ x, x ≠ s → x ∈ onRemoveSkill s skills ↔ x ∈ skills).
Proof.
  unfold onAddSkill, onRemoveSkill.
  split; [| split; [| split; [| split; [| split; [| split; [| split]]]]]].
  - intros Hnd. destruct (String.eqb (Str.trim newSkill) ""); [exact Hnd |].
    destruct (bool_decide (Str.trim newSkill ∈ skills)) eqn:Hin; [exact Hnd |].
    apply bool_decide_eq_false_1 in Hin. simpl.
    eapply sublist_NoDup; [| apply sublist_take].
    apply NoDup_app. split; [exact Hnd |]. split.
    + intros x Hx Hx'. apply list_elem_of_singleton in Hx' as ->. auto.
    + apply NoDup_singleton.
  - intros Hlen. destruct (String.eqb (Str.trim newSkill) ""); [exact Hlen |].
    destruct (bool_decide (Str.trim newSkill ∈ skills)); [exact Hlen |].
    simpl. rewrite length_take. lia.
  - intros x. destruct (String.eqb_spec (Str.trim newSkill) "") as [E | E];
      [auto |].
    destruct (bool_decide (Str.trim newSkill ∈ skills)); [auto |].
    simpl. intros Hx. apply elem_of_take in Hx as (i & Hi & _).
    apply list_elem_of_lookup_2 in Hi.
    apply elem_of_app in Hi as [Hi | Hi]; [left; exact Hi |].
    apply list_elem_of_singleton in Hi as ->. right. auto.
  - intros Hin. destruct (String.eqb (Str.trim newSkill) ""); [right; reflexivity |].
    rewrite bool_decide_eq_true_2 by exact Hin. left. reflexivity.
  - intros Hlen. destruct (String.eqb (Str.trim newSkill) ""); [reflexivity |].
    destruct (bool_decide (Str.trim newSkill ∈ skills)); [reflexivity |].
    simpl. rewrite take_app_le by lia. apply take_ge. lia.
  - rewrite list_elem_of_filter. tauto.
  - apply NoDup_filter.
  - intros x Hx. rewrite list_elem_of_filter. tauto.
Qed.

End Profile.

(** ** Tier cards and the stalls behind them *)

Section OtherTiers.
Import EventDetail.

Lemma mkCard_group (groups groups' : gmap string (list Stall))
    (key label : string) (features : list string) (popular : bool) :
  default [] (groups !! key) = default [] (groups' !! key) →
  mkCard groups key label features popular
  = mkCard groups' key label features popular.
Proof. intros H. unfold mkCard. rewrite H. reflexivity. Qed.

Lemma filter_filter_key (key : string) (stalls : list Stall) :
  key ∈ ["BRONZE"; "SILVER"; "GOLD"] →
  filter (fun s => tierKey s = key)
    (filter (fun s => tierKey s ∈ ["BRONZE"; "SILVER"; "GOLD"]) stalls)
  = filter (fun s => tierKey s = key) stalls.
Proof.
  intros Hkey. induction stalls as [| s stalls IH]; [reflexivity |].
  rewrite !filter_cons.
  destruct (decide (tierKey s = key)) as [E | NE].
  - rewrite decide_True by (rewrite E; exact Hkey).
    rewrite filter_cons_True by exact E. rewrite IH. reflexivity.
  - destruct (decide (tierKey s ∈ ["BRONZE"; "SILVER"; "GOLD"]));
      [rewrite filter_cons_False by exact NE |]; exact IH.
Qed.

Lemma Qfloor_half (z : Z) : Qfloor (inject_Z z + (1 # 2)) = z.
Proof.
  unfold Qfloor, Qplus, inject_Z. simpl.
  symmetry. apply (Z.div_unique _ _ _ 1); lia.
Qed.

Lemma sum_of_bounds (f : Stall → Z) (lo hi : Z) (arr : list Stall) :
  Forall (fun s => lo <= f s <= hi)%Z arr →
  (lo * Z.of_nat (length arr) <= sum_of f arr <= hi * Z.of_nat (length arr))%Z.
Proof.
  induction 1 as [| s arr Hs _ IH]; simpl; [lia |].
  unfold sum_of in *. simpl. lia.
Qed.

Lemma round_div_bounds (sum lo hi : Z) (n : nat) :
  (0 < n)%nat →
  (lo * Z.of_nat n <= sum <= hi * Z.of_nat n)%Z →
  (lo <= round_div sum n <= hi)%Z.
Proof.
  intros Hn [Hlo Hhi]. unfold round_div.
  assert (Hnq : (0 < inject_Z (Z.of_nat n))%Q).
  { change (inject_Z 0 < inject_Z (Z.of_nat n))%Q. rewrite <- Zlt_Qlt. lia. }
  split.
  - rewrite <- (Qfloor_Z lo). apply Qfloor_resp_le.
    apply (Qle_trans _ (inject_Z lo + 0)%Q).
    + rewrite Qplus_0_r. apply Qle_refl.
    + apply Qplus_le_compat; [| discriminate].
      apply Qle_shift_div_l; [exact Hnq |].
      rewrite <- inject_Z_mult, <- Zle_Qle. exact Hlo.
  - etransitivity; [| apply Z.eq_le_incl, (Qfloor_half hi)].
    apply Qfloor_resp_le.
    apply Qplus_le_compat; [| apply Qle_refl].
    apply Qle_shift_div_r; [exact Hnq |].
    rewrite <- inject_Z_mult, <- Zle_Qle. exact Hhi.
Qed.

(** X28. The tier cards only see the three tiers: there are always the
    three cards bronze, silver and gold, they are the same as for the
    stalls of these three tiers alone, and a stall of any other tier
    changes no card; without stalls every card has no quantities, is not
    disabled, and selecting it only raises a notice. *)
Theorem tier_cards_ignore_other_tiers (stalls : list Stall) :
  tierCards stalls
  = tierCards (filter (fun s => tierKey s ∈ ["BRONZE"; "SILVER"; "GOLD"]) stalls)
  ∧ List.map card_id (tierCards stalls) = ["bronze"; "silver"; "gold"]
  ∧ (∀ s, tierKey s ∉ ["BRONZE"; "SILVER"; "GOLD"] →
          tierCards (stalls ++ [s])%list = tierCards stalls
          ∧ tierCards (s :: stalls) = tierCards stalls)
  ∧ (∀ c eid ls, c ∈ tierCards [] →
       card_total c = 0%Z ∧ card_available c = 0%Z ∧ disabled c = false
       ∧ onSelectTier (Some eid) c ls = (ls, [ToastInfo], false)).
Proof.
  assert (Hfilter : ∀ l,
    tierCards l
    = tierCards (filter (fun s => tierKey s ∈ ["BRONZE"; "SILVER"; "GOLD"]) l)).
  { intros l. unfold tierCards.
    rewrite (mkCard_group (byTier l)
               (byTier (filter (fun s => tierKey s ∈ ["BRONZE"; "SILVER"; "GOLD"]) l))
               "BRONZE")
      by (rewrite !byTier_group, filter_filter_key; [reflexivity | set_solver]).
    rewrite (mkCard_group (byTier l)
               (byTier (filter (fun s => tierKey s ∈ ["BRONZE"; "SILVER"; "GOLD"]) l))
               "SILVER")
      by (rewrite !byTier_group, filter_filter_key; [reflexivity | set_solver]).
    rewrite (mkCard_group (byTier l)
               (byTier (filter (fun s => tierKey s ∈ ["BRONZE"; "SILVER"; "GOLD"]) l))
               "GOLD")
      by (rewrite !byTier_group, filter_filter_key; [reflexivity | set_solver]).
    reflexivity. }
  split; [apply Hfilter |]. split; [reflexivity |]. split.
  - intros s Hs. split.
    + rewrite (Hfilter (stalls ++ [s])%list), filter_app, filter_cons_False by exact Hs.
      rewrite filter_nil, app_nil_r. symmetry. apply Hfilter.
    + rewrite (Hfilter (s :: stalls)), filter_cons_False by exact Hs.
      symmetry. apply Hfilter.
  - intros c eid ls Hc. unfold tierCards in Hc.
    repeat (apply elem_of_cons in Hc as [-> | Hc]);
      try (apply elem_of_nil in Hc; contradiction);
      repeat split; reflexivity.
Qed.

(** X29. For stalls priced in whole numbers, the prices of a tier adding
    up to less than [2 ^ 52] in absolute value (where the sum and its
    quotient by the number of stalls are the exact ones): the price on a
    tier card lies between the cheapest and the dearest stall of its tier.
    If the tier has a stall and every stall of the tier costs between [lo]
    and [hi], so does the card. (A price with a fraction is outside this
    statement: one stall at 99.5 gives a card at 100.) *)
Theorem tier_card_price_bounds (stalls : list Stall) (key label : string)
    (features : list string) (popular : bool) (lo hi : Z) :
  filter (fun s => tierKey s = key) stalls ≠ [] →
  (Z.abs (sum_by stall_price (filter (fun s => tierKey s = key) stalls))
   < 2 ^ 52)%Z →
  Forall (fun s => tierKey s = key → (lo <= stall_price s <= hi)%Z) stalls →
  (lo <= card_price (mkCard (byTier stalls) key label features popular) <= hi)%Z.
Proof.
  intros Hne _ Hall. unfold mkCard. cbn [card_price].
  rewrite byTier_group, sum_by_sum_of.
  destruct (filter (fun s => tierKey s = key) stalls) as [| s0 arr] eqn:Ef;
    [contradiction |].
  rewrite <- Ef.
  apply round_div_bounds.
  - rewrite Ef. simpl. lia.
  - apply sum_of_bounds. apply Forall_forall. intros s Hs.
    apply list_elem_of_filter in Hs as [Hk Hin].
    rewrite Forall_forall in Hall. exact (Hall s Hin Hk).
Qed.

Lemma tier_card_price_bounds_witness :
  (10000 <= card_price
              (mkCard (byTier [mkStall "S1" "G-1" "GOLD" 10000 5 2;
                               mkStall "S2" "G-2" "gold" 12000 5 5;
                               mkStall "S3" "B-1" "BRONZE" 4000 9 9])
                 "GOLD" "VIP" [] false) <= 12000)%Z.
Proof.
  apply tier_card_price_bounds.
  - discriminate.
  - vm_compute. reflexivity.
  - repeat (apply Forall_cons; split;
            [intros H; vm_compute in H; try discriminate H; simpl; lia |]).
    apply Forall_nil. exact I.
Defined.

End OtherTiers.
